(** * Trusty-cogs: paginated hockey menus and the Twitch polling client

    A shallow embedding of [hockey/menu.py] and [twitch/twitch_api.py].

    Coroutines are run sequentially: an [await] is an ordinary call, and the
    only interleaving that is represented is the passage of time during a
    sleep.  Python exceptions are values of [Py.exn]; a computation is a
    function from a state to an outcome and the state it leaves behind, so the
    effects performed before an exception is raised are kept.  Recursion and
    loops that Python does not bound take a fuel argument, and running out of
    fuel is the outcome [Diverge].  The retry of [get_response] is a call
    nested in the call, which the interpreter's recursion limit bounds: its
    argument is the depth that is left, and running out of it is
    [RecursionError].

    The host framework (discord.py, its [menus] extension, Red's [Config]) and
    the Twitch API are the surroundings: page sources are an interface, the
    HTTP endpoints are functions that answer the n-th request, and the
    configuration store holds values, so what is read from it is a copy.
    Time is counted in microseconds. *)

From Stdlib Require Import ZArith List String Ascii Bool Lia DecimalString
  Permutation.
Import ListNotations.

Set Implicit Arguments.

(* ================================================================== *)
(** * Python control flow *)
(* ================================================================== *)

Module Py.

(** Instances of Python's [Exception] that the two files can meet.  Every
    constructor is a subclass of [Exception], which is what the clause
    [except Exception] matches. *)
Inductive exn : Type :=
| IndexError
| KeyError
| ValueError
| TypeError
| AttributeError
| UnboundLocalError
| RecursionError
| NoSchedule
| TimeoutError
| ClientError
| OtherError (msg : string).

Definition is_IndexError (e : exn) : bool :=
  match e with IndexError => true | _ => false end.

Definition is_NoSchedule (e : exn) : bool :=
  match e with NoSchedule => true | _ => false end.

Definition is_TimeoutError (e : exn) : bool :=
  match e with TimeoutError => true | _ => false end.

(** What a call does: it returns, it raises, or it never comes back
    (recursion or a loop that outlives the fuel, a lock never released). *)
Inductive outcome (A : Type) : Type :=
| Ok (a : A)
| Raise (e : exn)
| Diverge.

Arguments Ok {A} a.
Arguments Raise {A} e.
Arguments Diverge {A}.

Definition M (S A : Type) : Type := S -> outcome A * S.

Definition ret {S A} (a : A) : M S A := fun s => (Ok a, s).

Definition bind {S A B} (c : M S A) (k : A -> M S B) : M S B :=
  fun s =>
    match c s with
    | (Ok a, s') => k a s'
    | (Raise e, s') => (Raise e, s')
    | (Diverge, s') => (Diverge, s')
    end.

Definition raise {S A} (e : exn) : M S A := fun s => (Raise e, s).

Definition gets {S A} (f : S -> A) : M S A := fun s => (Ok (f s), s).

Definition modify {S} (f : S -> S) : M S unit := fun s => (Ok tt, f s).

(** [try: body / except <handles>: handler].  An exception that the clause
    does not match goes on to the caller. *)
Definition try_except {S A} (body : M S A) (handles : exn -> bool)
           (handler : exn -> M S A) : M S A :=
  fun s =>
    match body s with
    | (Raise e, s') => if handles e then handler e s' else (Raise e, s')
    | r => r
    end.

(** [try: body / finally: cleanup], with a cleanup that cannot fail. *)
Definition try_finally {S A} (body : M S A) (cleanup : S -> S) : M S A :=
  fun s => let (r, s') := body s in (r, cleanup s').

(** Run a computation on a component of the state. *)
Definition zoom {S T A} (proj : S -> T) (upd : T -> S -> S) (c : M T A)
  : M S A :=
  fun s => let (r, t') := c (proj s) in (r, upd t' s).

(** [for x in xs: body x] *)
Fixpoint for_each {S X} (xs : list X) (body : X -> M S unit) : M S unit :=
  match xs with
  | [] => ret tt
  | x :: rest => bind (body x) (fun _ => for_each rest body)
  end.

(** [xs[i]] on a list: negative indices count from the end. *)
Definition index {A} (xs : list A) (i : Z) : option A :=
  let n := Z.of_nat (List.length xs) in
  if (0 <=? i)%Z then nth_error xs (Z.to_nat i)
  else if (- n <=? i)%Z then nth_error xs (Z.to_nat (n + i))
  else None.

End Py.

Import Py.

Declare Scope py_scope.
Delimit Scope py_scope with py.
Notation "x <- c ;; k" := (Py.bind c (fun x => k))
  (at level 61, c at next level, right associativity) : py_scope.
Notation "c ;;; k" := (Py.bind c (fun _ => k))
  (at level 61, right associativity) : py_scope.
Open Scope py_scope.

(* ================================================================== *)
(** * hockey/menu.py *)
(* ================================================================== *)

Module Menu.

(** The interface [menus.PageSource] of the host framework, as the two menu
    classes use it.  The second argument of [get_page] holds the keywords
    [skip_next] and [skip_prev] when the caller passes them, as [GamesMenu]
    does; [BaseMenu] goes through the framework's own [show_page], which
    passes none. *)
Class PageSource (Src Page Embed Date : Type) : Type := {
  get_max_pages : Src -> option Z;
  is_paginating : Src -> bool;
  get_page : Z -> option (bool * bool) -> M Src Page;
  format_page : Z -> Page -> M Src Embed;
  set_date : Date -> Src -> Src;
  prepare : M Src unit
}.

(** The controls of a session, named by what their reaction shows. *)
Inductive control : Type :=
| LeftTriangle
| RightTriangle
| LeftDoubleTriangle
| RightDoubleTriangle
| CrossMark
| TearOffCalendar.

Definition control_eqb (a b : control) : bool :=
  match a, b with
  | LeftTriangle, LeftTriangle
  | RightTriangle, RightTriangle
  | LeftDoubleTriangle, LeftDoubleTriangle
  | RightDoubleTriangle, RightDoubleTriangle
  | CrossMark, CrossMark
  | TearOffCalendar, TearOffCalendar => true
  | _, _ => false
  end.

Section Session.

Context {Src Page Embed Date : Type}.
Context {PS : PageSource Src Page Embed Date}.

(** The displayed message: [message.edit(content=..., embed=...)] replaces
    both parts. *)
Record message : Type := {
  content : option string;
  embed : option Embed;
  deleted : bool
}.

Record log_record : Type := {
  log_text : string;
  exc_info : exn
}.

(** What the session says in the invoking channel beside its own
    message. *)
Inductive ctx_event : Type :=
| CtxSend (text : string)
| CtxDelete (text : string).

Record menu : Type := {
  _source : Src;
  current_page : Z;
  msg : message;
  _running : bool;
  _lock : bool;
  log : list log_record;
  ctx : list ctx_event
}.

Definition with_source (s : Src) (m : menu) : menu :=
  {| _source := s; current_page := current_page m; msg := msg m;
     _running := _running m; _lock := _lock m; log := log m;
     ctx := ctx m |}.

Definition with_current_page (p : Z) (m : menu) : menu :=
  {| _source := _source m; current_page := p; msg := msg m;
     _running := _running m; _lock := _lock m; log := log m;
     ctx := ctx m |}.

Definition with_msg (x : message) (m : menu) : menu :=
  {| _source := _source m; current_page := current_page m; msg := x;
     _running := _running m; _lock := _lock m; log := log m;
     ctx := ctx m |}.

Definition with_running (b : bool) (m : menu) : menu :=
  {| _source := _source m; current_page := current_page m; msg := msg m;
     _running := b; _lock := _lock m; log := log m; ctx := ctx m |}.

Definition with_lock (b : bool) (m : menu) : menu :=
  {| _source := _source m; current_page := current_page m; msg := msg m;
     _running := _running m; _lock := b; log := log m; ctx := ctx m |}.

Definition with_log (l : list log_record) (m : menu) : menu :=
  {| _source := _source m; current_page := current_page m; msg := msg m;
     _running := _running m; _lock := _lock m; log := l; ctx := ctx m |}.

Definition with_ctx (c : list ctx_event) (m : menu) : menu :=
  {| _source := _source m; current_page := current_page m; msg := msg m;
     _running := _running m; _lock := _lock m; log := log m; ctx := c |}.

Definition on_source {A} (c : M Src A) : M menu A :=
  zoom _source with_source c.

Definition message_edit (c : option string) (e : option Embed)
  : M menu unit :=
  modify (fun m =>
    with_msg {| content := c; embed := e; deleted := deleted (msg m) |} m).

Definition message_delete : M menu unit :=
  modify (fun m =>
    with_msg {| content := content (msg m); embed := embed (msg m);
                deleted := true |} m).

Definition log_debug (text : string) (exc : exn) : M menu unit :=
  modify (fun m =>
    with_log (log m ++ [{| log_text := text; exc_info := exc |}]) m).

Definition ctx_send (text : string) : M menu unit :=
  modify (fun m => with_ctx (ctx m ++ [CtxSend text]) m).

Definition ctx_delete (text : string) : M menu unit :=
  modify (fun m => with_ctx (ctx m ++ [CtxDelete text]) m).

(** [Menu.stop] of the framework: the session stops running. *)
Definition stop : M menu unit := modify (with_running false).

(** [MenuPages._get_kwargs_from_page]: every source of this file formats a
    page into an embed, which is shown with no text content. *)
Definition _get_kwargs_from_page (page : Page)
  : M menu (option string * option Embed) :=
  cur <- gets current_page ;;
  em <- on_source (format_page cur page) ;;
  ret (None, Some em).

(** A control of the framework: [Button.__call__] does nothing when
    [skip_if] holds of the menu, and a control declared without [skip_if]
    is never skipped. *)
Record Button : Type := {
  emoji : control;
  lock : bool;
  skip_if : option (menu -> bool);
  action : M menu unit
}.

Definition skipped (b : Button) (m : menu) : bool :=
  match skip_if b with
  | Some p => p m
  | None => false
  end.

Definition call_button (b : Button) : M menu unit :=
  fun m => if skipped b m then (Ok tt, m) else action b m.

Fixpoint find_button (bs : list Button) (e : control) : option Button :=
  match bs with
  | [] => None
  | b :: rest => if control_eqb (emoji b) e then Some b
                 else find_button rest e
  end.

(** [self.buttons] of the framework: the mapping from emoji to control that
    a session works with.  It holds the controls that the class declares
    without those whose [skip_if] holds of the session; [seen] is the session
    as it is when the framework makes the mapping. *)
Definition self_buttons (declared : list Button) (seen : menu)
  : list Button :=
  filter (fun b => negb (skipped b seen)) declared.

(** [async with self._lock]: the gate is taken, the body runs, and the
    gate is released however the body ends.  A gate that is already held
    would suspend the caller for good in a sequential run. *)
Definition async_with_lock {A} (body : M menu A) : M menu A :=
  fun m =>
    if _lock m then (Diverge, m)
    else try_finally body (with_lock false) (with_lock true m).

(** [update], the same text in [GamesMenu] and in [BaseMenu].  [buttons] is
    the mapping that [self.buttons[payload.emoji]] is looked up in. *)
Definition update (buttons : list Button) (payload : control)
  : M menu unit :=
  button <- (match find_button buttons payload with
             | Some b => ret b
             | None => raise KeyError
             end) ;;
  running <- gets _running ;;
  if negb running then ret tt
  else
    try_except
      (if lock button then
         async_with_lock
           (still <- gets _running ;;
            if still then call_button button else ret tt)
       else call_button button)
      (fun _ => true)
      (fun exc => log_debug "Ignored exception on reaction event" exc).

(** A reaction event, as far as [reaction_check] reads it. *)
Record RawReactionActionEvent : Type := {
  message_id : Z;
  user_id : Z;
  payload_emoji : control
}.

(** [reaction_check], the same text in both classes.  [displayed_id] is the
    id of the session's message, [owner_ids] the owners the bot knows. *)
Definition reaction_check (buttons : list Button) (displayed_id : Z)
           (owner_ids : list Z) (_author_id : Z)
           (payload : RawReactionActionEvent) : bool :=
  if negb (message_id payload =? displayed_id)%Z then false
  else if negb (existsb (Z.eqb (user_id payload))
                        (owner_ids ++ [_author_id]))
  then false
  else match find_button buttons (payload_emoji payload) with
       | Some _ => true
       | None => false
       end.

End Session.

Arguments menu : clear implicits.
Arguments message : clear implicits.
Arguments Button : clear implicits.

(** ** class GamesMenu *)

Module GamesMenu.
Section Defs.

Context {Src Page Embed Date : Type}.
Context {PS : PageSource Src Page Embed Date}.

(** The texts are the ones in the source; the translator [_] is taken to
    leave them as they are. *)
Definition no_schedule_text : string :=
  "No Schedule could be found for that date and team.".

Definition show_page (page_number : Z) (skip_next skip_prev : bool)
  : M (menu Src Embed) unit :=
  fetched <- try_except
               (page <- on_source
                          (get_page page_number
                                    (Some (skip_next, skip_prev))) ;;
                ret (Some page))
               is_NoSchedule
               (fun _ =>
                  message_edit (Some no_schedule_text) None ;;;
                  ret None) ;;
  match fetched with
  | None => ret tt
  | Some page =>
      modify (with_current_page page_number) ;;;
      kwargs <- _get_kwargs_from_page page ;;
      message_edit (fst kwargs) (snd kwargs)
  end.

Definition show_checked_page (page_number : Z)
  : M (menu Src Embed) unit :=
  try_except (show_page page_number false false)
             is_IndexError
             (fun _ => ret tt).

Definition _skip_single_arrows (m : menu Src Embed) : bool :=
  match get_max_pages (_source m) with
  | None => true
  | Some max_pages => (max_pages =? 1)%Z
  end.

Definition go_to_previous_page : M (menu Src Embed) unit :=
  cur <- gets (@current_page Src Embed) ;;
  show_checked_page (cur - 1).

Definition go_to_next_page : M (menu Src Embed) unit :=
  cur <- gets (@current_page Src Embed) ;;
  show_checked_page (cur + 1).

Definition go_to_first_page : M (menu Src Embed) unit :=
  show_page 0 false true.

Definition go_to_last_page : M (menu Src Embed) unit :=
  show_page 0 true false.

Definition stop_pages : M (menu Src Embed) unit :=
  stop ;;; message_delete.

Definition date_prompt : string :=
  "Enter the date you would like to see `YYYY-MM-DD` format is accepted.".

Definition sorry_text (date_str : string) : string :=
  "Sorry No schedule was found for the date range " ++ date_str.

(** [reply] is what [wait_for] brings back within its 30 seconds: nothing
    (it raises [TimeoutError]), or a message of the author that matches
    [DATE_RE], given by the date string read off its groups and by what
    [strptime] makes of that string ([None] when it raises
    [ValueError]). *)
Definition choose_date (reply : option (string * option Date))
  : M (menu Src Embed) unit :=
  ctx_send date_prompt ;;;
  got <- try_except
           (match reply with
            | Some r => ret (Some r)
            | None => raise TimeoutError
            end)
           is_TimeoutError
           (fun _ => ctx_delete date_prompt ;;; ret None) ;;
  match got with
  | None => ret tt
  | Some (date_str, parsed) =>
      date <- (match parsed with
               | Some d => ret d
               | None => raise ValueError
               end) ;;
      modify (fun m => with_source (set_date date (_source m)) m) ;;;
      prepared <- try_except
                    (on_source prepare ;;; ret true)
                    is_NoSchedule
                    (fun _ => ctx_send (sorry_text date_str) ;;;
                              ret false) ;;
      if prepared then show_page 0 false false else ret tt
  end.

(** The controls as the decorators declare them: [lock] keeps its default
    and no control of this class is given a [skip_if]. *)
Definition buttons (reply : option (string * option Date))
  : list (Button Src Embed) :=
  [ {| emoji := LeftTriangle; lock := true; skip_if := None;
       action := go_to_previous_page |};
    {| emoji := RightTriangle; lock := true; skip_if := None;
       action := go_to_next_page |};
    {| emoji := LeftDoubleTriangle; lock := true; skip_if := None;
       action := go_to_first_page |};
    {| emoji := RightDoubleTriangle; lock := true; skip_if := None;
       action := go_to_last_page |};
    {| emoji := CrossMark; lock := true; skip_if := None;
       action := stop_pages |};
    {| emoji := TearOffCalendar; lock := true; skip_if := None;
       action := choose_date reply |} ].

(** [send_initial_message].  [team] and [_last_searched] are the
    attributes of the schedule source that the texts read, and
    [humanize_list] is the framework's way of writing a list out. *)
Definition send_initial_message (humanize_list : list string -> string)
           (team : list string) (_last_searched : string)
  : M (menu Src Embed) (option string * option Embed) :=
  fetched <- try_except
               (page <- on_source (get_page 0 None) ;; ret (Some page))
               is_IndexError
               (fun _ => ret None) ;;
  match fetched with
  | Some page => _get_kwargs_from_page page
  | None =>
      match team with
      | _ :: _ =>
          ret (Some ("No schedule could be found for " ++ humanize_list team
                       ++ " in date ranges " ++ _last_searched ++ ".")%string,
               None)
      | [] =>
          ret (Some ("No schedule could be found in date ranges "
                       ++ _last_searched)%string, None)
      end
  end.

End Defs.
End GamesMenu.

(** ** class BaseMenu *)

Module BaseMenu.
Section Defs.

Context {Src Page Embed Date : Type}.
Context {PS : PageSource Src Page Embed Date}.

(** [MenuPages.show_page] of the framework, which this class inherits. *)
Definition show_page (page_number : Z) : M (menu Src Embed) unit :=
  page <- on_source (get_page page_number None) ;;
  modify (with_current_page page_number) ;;;
  kwargs <- _get_kwargs_from_page page ;;
  message_edit (fst kwargs) (snd kwargs).

Definition show_checked_page (page_number : Z)
  : M (menu Src Embed) unit :=
  max_pages <- gets (fun m : menu Src Embed =>
                       get_max_pages (_source m)) ;;
  try_except
    (match max_pages with
     | None => show_page page_number
     | Some max_pages =>
         if (page_number >=? max_pages)%Z then show_page 0
         else if (page_number <? 0)%Z then show_page (max_pages - 1)
         else if ((max_pages >? page_number)%Z
                  && (page_number >=? 0)%Z)%bool
              then show_page page_number
         else ret tt
     end)
    is_IndexError
    (fun _ => ret tt).

Definition _skip_single_arrows (m : menu Src Embed) : bool :=
  match get_max_pages (_source m) with
  | None => true
  | Some max_pages => (max_pages =? 1)%Z
  end.

Definition _skip_double_triangle_buttons (m : menu Src Embed) : bool :=
  match get_max_pages (_source m) with
  | None => true
  | Some max_pages => (max_pages <=? 2)%Z
  end.

Definition go_to_previous_page : M (menu Src Embed) unit :=
  cur <- gets (@current_page Src Embed) ;;
  show_checked_page (cur - 1).

Definition go_to_next_page : M (menu Src Embed) unit :=
  cur <- gets (@current_page Src Embed) ;;
  show_checked_page (cur + 1).

Definition go_to_first_page : M (menu Src Embed) unit :=
  show_page 0.

(** [None - 1] is a [TypeError]. *)
Definition go_to_last_page : M (menu Src Embed) unit :=
  max_pages <- gets (fun m : menu Src Embed =>
                       get_max_pages (_source m)) ;;
  match max_pages with
  | Some n => show_page (n - 1)
  | None => raise TypeError
  end.

Definition stop_pages : M (menu Src Embed) unit :=
  stop ;;; message_delete.

(** The controls as the decorators declare them.  The mapping that a
    session works with is [self_buttons] of them. *)
Definition buttons : list (Button Src Embed) :=
  [ {| emoji := LeftTriangle; lock := true;
       skip_if := Some _skip_single_arrows;
       action := go_to_previous_page |};
    {| emoji := RightTriangle; lock := true;
       skip_if := Some _skip_single_arrows;
       action := go_to_next_page |};
    {| emoji := LeftDoubleTriangle; lock := true;
       skip_if := Some _skip_double_triangle_buttons;
       action := go_to_first_page |};
    {| emoji := RightDoubleTriangle; lock := true;
       skip_if := Some _skip_double_triangle_buttons;
       action := go_to_last_page |};
    {| emoji := CrossMark; lock := true; skip_if := None;
       action := stop_pages |} ].

(** [send_initial_message]: the page at [page_start] is what the new
    message shows. *)
Definition send_initial_message (page_start : Z)
  : M (menu Src Embed) (option string * option Embed) :=
  page <- on_source (get_page page_start None) ;;
  _get_kwargs_from_page page.

End Defs.
End BaseMenu.

(** ** The list sources

    [StandingsPages], [TeamStandingsPages], [ConferenceStandingsPages],
    [DivisionStandingsPages], [LeaderboardPages] and [RosterPages] are all
    [menus.ListPageSource] with [per_page=1]: the page count is the length
    of the list and a page is the entry at the index, [IndexError] when
    there is none; [get_page] of that class takes no keywords.  They
    differ in [is_paginating] and in how a page is formatted, which are the
    two arguments. *)
Definition ListPageSource {Page Embed : Type} (paginating : bool)
           (fmt : Z -> list Page -> Page -> outcome Embed)
  : PageSource (list Page) Page Embed unit :=
  {| get_max_pages := fun entries => Some (Z.of_nat (List.length entries));
     is_paginating := fun _ => paginating;
     get_page := fun page_number keywords entries =>
                   match keywords with
                   | Some _ => (Raise TypeError, entries)
                   | None =>
                       match Py.index entries page_number with
                       | Some page => (Ok page, entries)
                       | None => (Raise IndexError, entries)
                       end
                   end;
     format_page := fun cur page entries => (fmt cur entries page, entries);
     set_date := fun _ entries => entries;
     prepare := ret tt |}.

(** ** Sources for the examples

    [GameList] is a source in the manner of the schedule source, which
    takes the keywords: it serves a fixed list of games, and reports how
    many there are when [counted] is set.  [NoGames] has nothing to show on
    any date. *)
Definition GameList (counted : bool)
  : PageSource (list string) string string unit :=
  {| get_max_pages := fun games =>
                        if counted then Some (Z.of_nat (List.length games))
                        else None;
     is_paginating := fun _ => true;
     get_page := fun page_number _ games =>
                   match Py.index games page_number with
                   | Some game => (Ok game, games)
                   | None => (Raise IndexError, games)
                   end;
     format_page := fun _ game => ret game;
     set_date := fun _ games => games;
     prepare := ret tt |}.

Definition NoGames : PageSource unit string string unit :=
  {| get_max_pages := fun _ => None;
     is_paginating := fun _ => true;
     get_page := fun _ _ => raise NoSchedule;
     format_page := fun _ game => ret game;
     set_date := fun _ s => s;
     prepare := raise NoSchedule |}.

(** A roster whose player lookup fails while a page is formatted. *)
Definition BrokenRoster : PageSource (list string) string string unit :=
  ListPageSource true (fun _ _ _ => Raise (OtherError "format failed")).

(** A leaderboard whose pages are shown as they are. *)
Definition PlainPages : PageSource (list string) string string unit :=
  ListPageSource true (fun _ _ page => Ok page).

(** A session that has just been started on [src], showing [shown]. *)
Definition session {Src Embed : Type} (src : Src) (page : Z)
           (shown : option Embed) : menu Src Embed :=
  {| _source := src; current_page := page;
     msg := {| content := None; embed := shown; deleted := false |};
     _running := true; _lock := false; log := []; ctx := [] |}.

End Menu.

(* ================================================================== *)
(** * twitch/twitch_api.py *)
(* ================================================================== *)

Module Twitch.

Local Open Scope string_scope.
Local Open Scope Z_scope.

Definition BASE_URL : string := "https://api.twitch.tv/helix".

(** ** Numbers and dates as text *)

(** [str(n)] *)
Definition str (n : Z) : string := NilZero.string_of_int (Z.to_int n).

Definition digit (d : Z) : ascii := ascii_of_nat (48 + Z.to_nat d).

(** The last [width] decimal digits of [n], zero padded. *)
Fixpoint zfill (width : nat) (n : Z) : string :=
  match width with
  | O => ""
  | S w => zfill w (n / 10) ++ String (digit (n mod 10)) ""
  end.

(** A naive UTC [datetime]: microseconds since 1970-01-01T00:00:00. *)
Definition datetime : Type := Z.

Definition MICRO : Z := 1000000.

Definition timedelta_days (days : Z) : Z := days * 86400 * MICRO.

(** Year, month and day of a day number counted from 1970-01-01 in the
    proleptic Gregorian calendar. *)
Definition civil_from_days (z0 : Z) : Z * Z * Z :=
  let z := z0 + 719468 in
  let era := z / 146097 in
  let doe := z - era * 146097 in
  let yoe := (doe - doe / 1460 + doe / 36524 - doe / 146096) / 365 in
  let doy := doe - (365 * yoe + yoe / 4 - yoe / 100) in
  let mp := (5 * doy + 2) / 153 in
  let d := doy - (153 * mp + 2) / 5 + 1 in
  let m := if mp <? 10 then mp + 3 else mp - 9 in
  let y := yoe + era * 400 + (if m <=? 2 then 1 else 0) in
  (y, m, d).

(** [datetime.isoformat()]: the fraction is printed only when it is not
    zero. *)
Definition isoformat (t : datetime) : string :=
  let us := t mod MICRO in
  let s := t / MICRO in
  let secs := s mod 86400 in
  let '(y, m, d) := civil_from_days (s / 86400) in
  zfill 4 y ++ "-" ++ zfill 2 m ++ "-" ++ zfill 2 d ++ "T"
    ++ zfill 2 (secs / 3600) ++ ":" ++ zfill 2 (secs / 60 mod 60) ++ ":"
    ++ zfill 2 (secs mod 60)
    ++ (if us =? 0 then "" else "." ++ zfill 6 us).

(** ** What comes over the wire *)

Record TwitchProfile : Type := {
  id : string;
  login : string;
  display_name : string;
  description : string;
  profile_image_url : string;
  offline_image_url : string;
  view_count : Z
}.

Record TwitchFollower : Type := {
  from_id : string;
  to_id : string;
  followed_at : string
}.

Record clip : Type := {
  clip_id : string;
  clip_url : string
}.

(** A parsed JSON body, by the shape the callers look for. *)
Inductive body : Type :=
| Users (data : list TwitchProfile)
| Follows (data : list TwitchFollower) (total : Z)
| Clips (data : list clip)
| Token (access_token : option string)
| NotJson.

(** A rate-limit header as [headers.get] returns it: nothing, an empty
    string, or the decimal integer that the API documents. *)
Inductive header_value : Type :=
| Absent
| Blank
| Number (n : Z).

Record response : Type := {
  status : Z;
  Ratelimit_Remaining : header_value;
  Ratelimit_Reset : header_value;
  payload : body
}.

(** A request either gets a response or fails in the HTTP client. *)
Inductive reply : Type :=
| Responds (r : response)
| Fails (e : exn).

(** [if value: target = int(value)] *)
Definition int_header {S} (h : header_value) (store : Z -> M S unit)
  : M S unit :=
  match h with
  | Absent | Blank => ret tt
  | Number n => store n
  end.

(** [await resp.json()] *)
Definition json {S} (r : response) : M S body :=
  match payload r with
  | NotJson => raise ClientError
  | b => ret b
  end.

(** Modelled from the spec: [twitch_profile.py] and [twitch_follower.py]
    are not among the sources.  A profile lookup reads the first entry of
    the body's user list and a follower list reads every entry; a body of
    another shape makes the decoder raise. *)
Definition TwitchProfile_from_json {S} (b : body) : M S TwitchProfile :=
  match b with
  | Users (p :: _) => ret p
  | Users [] => raise IndexError
  | _ => raise KeyError
  end.

Definition follows_from_json {S} (b : body)
  : M S (list TwitchFollower * Z) :=
  match b with
  | Follows fs total => ret (fs, total)
  | _ => raise KeyError
  end.

Definition clips_from_json {S} (b : body) : M S (list clip) :=
  match b with
  | Clips cs => ret cs
  | _ => raise KeyError
  end.

(** ** Discord and the configuration store *)

Record channel : Type := {
  embed_links : bool;      (* permissions_for(guild.me).embed_links *)
  send_messages : bool;    (* permissions_for(guild.me).send_messages *)
  accepts : bool           (* channel.send goes through *)
}.

Record Embed : Type := {
  colour : Z;
  em_description : string;
  author_name : string;
  author_url : string;
  author_icon_url : string;
  image_url : string;
  fields : list (string * string);
  thumbnail_url : string;
  timestamp : datetime;
  footer_text : string;
  footer_icon_url : string
}.

Inductive outgoing : Type :=
| SendEmbed (em : Embed)
| SendText (text : string).

(** An entry of [config.twitch_accounts]. *)
Record account : Type := {
  account_id : string;
  followers : list string;
  channels : list Z
}.

(** A value of [config.twitch_clips]. *)
Record clip_data : Type := {
  cd_display_name : string;
  clips : list string;
  cd_channels : list Z
}.

(** [config.access_token]: the empty dict, a dict without the key
    ["access_token"], or a dict with it. *)
Inductive token_dict : Type :=
| EmptyDict
| NoTokenDict
| WithToken (t : string).

Record api_keys : Type := {
  client_id : option string;
  client_secret : option string
}.

(** The surroundings of the client.  Each endpoint answers its [n]-th
    request as the function says, so a server may answer differently every
    time.  [set_iter] is the order in which a set of integers is iterated,
    which Python leaves open. *)
Record Env : Type := {
  api_tokens : api_keys;
  token_endpoint : nat -> reply;
  validate_endpoint : nat -> string -> reply;
  api : nat -> string -> list (string * string) -> reply;
  get_channel : Z -> option channel;
  cog_registered : Z -> bool;
  set_iter : list Z -> list Z
}.

Inductive log_record : Type :=
| LogDebug (text : string)
| LogInfo (text : string)
| LogError (text : string) (exc : exn).

Record world : Type := {
  clock : Z;                          (* time.time(), in microseconds *)
  access_token_cfg : token_dict;
  twitch_accounts : list account;
  twitch_clips : list (string * clip_data);
  rate_limit_remaining : Z;
  rate_limit_resets : list Z;
  token_calls : nat;
  validate_calls : nat;
  api_calls : nat;
  issued : list (Z * string);         (* API requests: when, and the URL *)
  sent : list (Z * outgoing);         (* what each channel was sent *)
  log : list log_record
}.

Definition set_clock (v : Z) (w : world) : world :=
  {| clock := v; access_token_cfg := access_token_cfg w; twitch_accounts
  := twitch_accounts w; twitch_clips := twitch_clips w;
  rate_limit_remaining := rate_limit_remaining w; rate_limit_resets :=
  rate_limit_resets w; token_calls := token_calls w; validate_calls :=
  validate_calls w; api_calls := api_calls w; issued := issued w; sent
  := sent w; log := log w |}.

Definition set_access_token_cfg (v : token_dict) (w : world) : world :=
  {| clock := clock w; access_token_cfg := v; twitch_accounts :=
  twitch_accounts w; twitch_clips := twitch_clips w;
  rate_limit_remaining := rate_limit_remaining w; rate_limit_resets :=
  rate_limit_resets w; token_calls := token_calls w; validate_calls :=
  validate_calls w; api_calls := api_calls w; issued := issued w; sent
  := sent w; log := log w |}.

Definition set_twitch_accounts (v : list account) (w : world) : world :=
  {| clock := clock w; access_token_cfg := access_token_cfg w;
  twitch_accounts := v; twitch_clips := twitch_clips w;
  rate_limit_remaining := rate_limit_remaining w; rate_limit_resets :=
  rate_limit_resets w; token_calls := token_calls w; validate_calls :=
  validate_calls w; api_calls := api_calls w; issued := issued w; sent
  := sent w; log := log w |}.

Definition set_twitch_clips (v : list (string * clip_data)) (w : world) : world :=
  {| clock := clock w; access_token_cfg := access_token_cfg w;
  twitch_accounts := twitch_accounts w; twitch_clips := v;
  rate_limit_remaining := rate_limit_remaining w; rate_limit_resets :=
  rate_limit_resets w; token_calls := token_calls w; validate_calls :=
  validate_calls w; api_calls := api_calls w; issued := issued w; sent
  := sent w; log := log w |}.

Definition set_rate_limit_remaining (v : Z) (w : world) : world :=
  {| clock := clock w; access_token_cfg := access_token_cfg w;
  twitch_accounts := twitch_accounts w; twitch_clips := twitch_clips w;
  rate_limit_remaining := v; rate_limit_resets := rate_limit_resets w;
  token_calls := token_calls w; validate_calls := validate_calls w;
  api_calls := api_calls w; issued := issued w; sent := sent w; log :=
  log w |}.

Definition set_rate_limit_resets (v : list Z) (w : world) : world :=
  {| clock := clock w; access_token_cfg := access_token_cfg w;
  twitch_accounts := twitch_accounts w; twitch_clips := twitch_clips w;
  rate_limit_remaining := rate_limit_remaining w; rate_limit_resets :=
  v; token_calls := token_calls w; validate_calls := validate_calls w;
  api_calls := api_calls w; issued := issued w; sent := sent w; log :=
  log w |}.

Definition set_token_calls (v : nat) (w : world) : world :=
  {| clock := clock w; access_token_cfg := access_token_cfg w;
  twitch_accounts := twitch_accounts w; twitch_clips := twitch_clips w;
  rate_limit_remaining := rate_limit_remaining w; rate_limit_resets :=
  rate_limit_resets w; token_calls := v; validate_calls :=
  validate_calls w; api_calls := api_calls w; issued := issued w; sent
  := sent w; log := log w |}.

Definition set_validate_calls (v : nat) (w : world) : world :=
  {| clock := clock w; access_token_cfg := access_token_cfg w;
  twitch_accounts := twitch_accounts w; twitch_clips := twitch_clips w;
  rate_limit_remaining := rate_limit_remaining w; rate_limit_resets :=
  rate_limit_resets w; token_calls := token_calls w; validate_calls :=
  v; api_calls := api_calls w; issued := issued w; sent := sent w; log
  := log w |}.

Definition set_api_calls (v : nat) (w : world) : world :=
  {| clock := clock w; access_token_cfg := access_token_cfg w;
  twitch_accounts := twitch_accounts w; twitch_clips := twitch_clips w;
  rate_limit_remaining := rate_limit_remaining w; rate_limit_resets :=
  rate_limit_resets w; token_calls := token_calls w; validate_calls :=
  validate_calls w; api_calls := v; issued := issued w; sent := sent w;
  log := log w |}.

Definition set_issued (v : list (Z * string)) (w : world) : world :=
  {| clock := clock w; access_token_cfg := access_token_cfg w;
  twitch_accounts := twitch_accounts w; twitch_clips := twitch_clips w;
  rate_limit_remaining := rate_limit_remaining w; rate_limit_resets :=
  rate_limit_resets w; token_calls := token_calls w; validate_calls :=
  validate_calls w; api_calls := api_calls w; issued := v; sent := sent
  w; log := log w |}.

Definition set_sent (v : list (Z * outgoing)) (w : world) : world :=
  {| clock := clock w; access_token_cfg := access_token_cfg w;
  twitch_accounts := twitch_accounts w; twitch_clips := twitch_clips w;
  rate_limit_remaining := rate_limit_remaining w; rate_limit_resets :=
  rate_limit_resets w; token_calls := token_calls w; validate_calls :=
  validate_calls w; api_calls := api_calls w; issued := issued w; sent
  := v; log := log w |}.

Definition set_log (v : list log_record) (w : world) : world :=
  {| clock := clock w; access_token_cfg := access_token_cfg w;
  twitch_accounts := twitch_accounts w; twitch_clips := twitch_clips w;
  rate_limit_remaining := rate_limit_remaining w; rate_limit_resets :=
  rate_limit_resets w; token_calls := token_calls w; validate_calls :=
  validate_calls w; api_calls := api_calls w; issued := issued w; sent
  := sent w; log := v |}.

Definition NEWLINE : string := String (ascii_of_nat 10) "".

Definition account_eqb (a b : account) : bool :=
  (String.eqb (account_id a) (account_id b)
   && if list_eq_dec string_dec (followers a) (followers b)
      then true else false)
  && (if list_eq_dec Z.eq_dec (channels a) (channels b)
      then true else false).

(** [xs.remove(x)]: the first equal entry goes, [ValueError] when there is
    none. *)
Fixpoint list_remove (x : account) (xs : list account)
  : option (list account) :=
  match xs with
  | [] => None
  | y :: rest =>
      if account_eqb y x then Some rest
      else match list_remove x rest with
           | Some rest' => Some (y :: rest')
           | None => None
           end
  end.

(** [saved[key]["clips"].append(v)] on the stored mapping. *)
Fixpoint append_clip (key v : string) (saved : list (string * clip_data))
  : option (list (string * clip_data)) :=
  match saved with
  | [] => None
  | (k, cd) :: rest =>
      if String.eqb k key
      then Some ((k, {| cd_display_name := cd_display_name cd;
                        clips := (clips cd ++ [v])%list;
                        cd_channels := cd_channels cd |}) :: rest)
      else match append_clip key v rest with
           | Some rest' => Some ((k, cd) :: rest')
           | None => None
           end
  end.

Definition mem (x : string) (xs : list string) : bool :=
  existsb (String.eqb x) xs.

(** [s.add(x)] on a set of integers. *)
Definition set_add (x : Z) (s : list Z) : list Z :=
  if existsb (Z.eqb x) s then s else (s ++ [x])%list.

Section Client.

Variable env : Env.

Definition log_add (r : log_record) : M world unit :=
  modify (fun w => set_log (log w ++ [r])%list w).

(** [asyncio.sleep(delay)], the delay in microseconds. *)
Definition sleep (delay : Z) : M world unit :=
  modify (fun w => set_clock (clock w + Z.max 0 delay) w).

Definition _get_api_tokens : M world api_keys := ret (api_tokens env).

(** [keys["client_id"]] *)
Definition keys_client_id (keys : api_keys) : M world string :=
  match client_id keys with
  | Some c => ret c
  | None => raise KeyError
  end.

Definition get_header : M world (list (string * string)) :=
  keys <- _get_api_tokens ;;
  cid <- keys_client_id keys ;;
  let header := [("Client-ID", cid)] in
  access_token <- gets access_token_cfg ;;
  match access_token with
  | EmptyDict => ret header
  | NoTokenDict => raise KeyError
  | WithToken t => ret (app header [("Authorization", "Bearer " ++ t)])
  end.

(** [int(time.time())] *)
Definition current_second (w : world) : Z := Z.quot (clock w) MICRO.

Definition wait_for_rate_limit_reset : M world unit :=
  remaining <- gets rate_limit_remaining ;;
  if remaining =? 0 then
    current_time <- gets current_second ;;
    modify (fun w =>
      set_rate_limit_resets
        (nodup Z.eq_dec
           (filter (fun x => x >? current_time) (rate_limit_resets w)))
        w) ;;;
    resets <- gets rate_limit_resets ;;
    if (0 <? Z.of_nat (List.length resets)) then
      match set_iter env resets with
      | reset_time :: _ =>
          let wait_time :=
            (reset_time - current_time) * MICRO + MICRO / 10 in
          log_add (LogDebug (str (reset_time - current_time) ++ ".1")) ;;;
          sleep wait_time
      | [] => raise IndexError
      end
    else ret tt
  else ret tt.

Definition token_dict_of_body (b : body) : token_dict :=
  match b with
  | Token (Some t) => WithToken t
  | _ => NoTokenDict
  end.

Fixpoint oauth_check (fuel : nat) : M world unit :=
  match fuel with
  | O => fun w => (Diverge, w)
  | S fuel' =>
      keys <- _get_api_tokens ;;
      match client_secret keys with
      | None => ret tt
      | Some _ =>
          _ <- keys_client_id keys ;;
          access_token <- gets access_token_cfg ;;
          match access_token with
          | EmptyDict =>
              n <- gets token_calls ;;
              modify (set_token_calls (S n)) ;;;
              match token_endpoint env n with
              | Fails e => raise e
              | Responds resp =>
                  tok <- json resp ;;
                  modify (set_access_token_cfg (token_dict_of_body tok))
              end
          | NoTokenDict =>
              modify (set_access_token_cfg EmptyDict) ;;;
              oauth_check fuel'
          | WithToken t =>
              n <- gets validate_calls ;;
              modify (set_validate_calls (S n)) ;;;
              match validate_endpoint env n ("OAuth " ++ t) with
              | Fails e => raise e
              | Responds resp =>
                  if status resp =? 200 then ret tt
                  else
                    modify (set_access_token_cfg EmptyDict) ;;;
                    oauth_check fuel'
              end
          end
      end
  end.

(** The retry, [return await self.get_response(url)], is a call from
    within the call: every rejected attempt leaves its frames on the
    interpreter's stack.  [fuel] is the number of nested attempts that the
    recursion limit still allows when the call is made; an attempt with none
    left ends with [RecursionError], which goes up through every attempt
    under way. *)
Fixpoint get_response (fuel : nat) (url : string) : M world body :=
  match fuel with
  | O => fun w => (Raise RecursionError, w)
  | S fuel' =>
      oauth_check fuel ;;;
      header <- get_header ;;
      wait_for_rate_limit_reset ;;;
      n <- gets api_calls ;;
      now <- gets clock ;;
      modify (fun w =>
        set_api_calls (S n) (set_issued (issued w ++ [(now, url)])%list w)) ;;;
      match api env n url header with
      | Fails e => raise e
      | Responds resp =>
          int_header (Ratelimit_Remaining resp)
            (fun v => modify (set_rate_limit_remaining v)) ;;;
          int_header (Ratelimit_Reset resp)
            (fun v => modify (fun w =>
               set_rate_limit_resets (set_add v (rate_limit_resets w))
                                     w)) ;;;
          if status resp =? 429 then
            log_add (LogInfo "Trying again") ;;;
            get_response fuel' url
          else json resp
      end
  end.

Definition make_follow_embed (acct profile : TwitchProfile)
           (total_followers : Z) : M world Embed :=
  let url := "https://twitch.tv/" ++ login profile in
  utcnow <- gets clock ;;
  ret {| colour := 6570404;
         em_description :=
           substring 0 2048
                     (description profile ++ NEWLINE ++ NEWLINE ++ url);
         author_name := display_name profile ++ " has just followed "
                          ++ display_name acct ++ "!";
         author_url := url;
         author_icon_url := profile_image_url profile;
         image_url := offline_image_url profile;
         fields := [("Viewer count", str (view_count profile))];
         thumbnail_url := profile_image_url profile;
         timestamp := utcnow;
         footer_text := display_name acct ++ " has "
                          ++ str total_followers ++ " followers";
         footer_icon_url := profile_image_url acct |}.

Definition get_all_followers (fuel : nat) (user_id : string)
  : M world (list string * Z) :=
  let url := BASE_URL ++ "/users/follows?to_id=" ++ user_id
                      ++ "&first=100" in
  data <- get_response fuel url ;;
  ft <- follows_from_json data ;;
  log_add (LogDebug (str (Z.of_nat (List.length (fst ft))) ++ " of "
                       ++ str (snd ft))) ;;;
  ret (map from_id (fst ft), snd ft).

Definition get_profile_from_name (fuel : nat) (twitch_name : string)
  : M world TwitchProfile :=
  let url := BASE_URL ++ "/users?login=" ++ twitch_name in
  data <- get_response fuel url ;;
  TwitchProfile_from_json data.

Definition get_profile_from_id (fuel : nat) (twitch_id : string)
  : M world TwitchProfile :=
  let url := BASE_URL ++ "/users?id=" ++ twitch_id in
  data <- get_response fuel url ;;
  TwitchProfile_from_json data.

Definition get_new_followers (fuel : nat) (user_id : string)
  : M world (list TwitchFollower * Z) :=
  let url := BASE_URL ++ "/users/follows?to_id=" ++ user_id
                      ++ "&first=100" in
  data <- get_response fuel url ;;
  follows_from_json data.

(** The URL that [get_new_clips] asks for; [utcnow] is only read when a
    start is given. *)
Definition get_new_clips_url (user_id : string)
           (started_at : option datetime) (utcnow : datetime) : string :=
  let url := BASE_URL ++ "/clips?broadcaster_id=" ++ user_id in
  match started_at with
  | Some start =>
      (url ++ "&started_at=" ++ isoformat start ++ "Z")
        ++ "&ended_at=" ++ isoformat utcnow ++ "Z"
  | None => url
  end.

Definition get_new_clips (fuel : nat) (user_id : string)
           (started_at : option datetime) : M world (list clip) :=
  utcnow <- gets clock ;;
  data <- get_response fuel (get_new_clips_url user_id started_at utcnow) ;;
  clips_from_json data.

Definition channel_send (channel_id : Z) (ch : channel) (what : outgoing)
  : M world unit :=
  if accepts ch
  then modify (fun w => set_sent (sent w ++ [(channel_id, what)])%list w)
  else raise (OtherError "discord.HTTPException").

(** The body of [for follow in reversed(followers)].  [acct] is the dict
    the loop mutates in place and [profile] the local of that name, which
    is unbound until a lookup has succeeded and keeps its value from one
    round to the next.  The text notification reads
    [account.display_name] off a dict, which is an [AttributeError]. *)
Fixpoint check_followers_loop (fuel : nat) (followed : TwitchProfile)
         (total : Z) (follows : list TwitchFollower) (acct : account)
         (profile : option TwitchProfile) : M world unit :=
  match follows with
  | [] => ret tt
  | follow :: rest =>
      if negb (mem (from_id follow) (followers acct)) then
        profile' <- try_except
                      (p <- get_profile_from_id fuel (from_id follow) ;;
                       ret (Some p))
                      (fun _ => true)
                      (fun e =>
                         log_add (LogError
                                    ("Error getting twitch profile "
                                       ++ from_id follow) e) ;;;
                         ret profile) ;;
        match profile' with
        | None => raise UnboundLocalError
        | Some p =>
            log_add (LogInfo (login p ++ " Followed! "
                                ++ display_name followed ++ " has "
                                ++ str total ++ " followers now.")) ;;;
            em <- make_follow_embed followed p total ;;
            for_each (channels acct) (fun channel_id =>
              match get_channel env channel_id with
              | None => ret tt
              | Some ch =>
                  if embed_links ch
                  then channel_send channel_id ch (SendEmbed em)
                  else raise AttributeError
              end) ;;;
            check_accounts <- gets twitch_accounts ;;
            match list_remove acct check_accounts with
            | None => raise ValueError
            | Some others =>
                let acct' :=
                  {| account_id := account_id acct;
                     followers := (followers acct ++ [from_id follow])%list;
                     channels := channels acct |} in
                modify (set_twitch_accounts (others ++ [acct'])%list) ;;;
                check_followers_loop fuel followed total rest acct'
                                     (Some p)
            end
        end
      else check_followers_loop fuel followed total rest acct profile
  end.

Definition check_followers (fuel : nat) (acct : account) : M world unit :=
  followed <- get_profile_from_id fuel (account_id acct) ;;
  ft <- get_new_followers fuel (account_id acct) ;;
  check_followers_loop fuel followed (snd ft) (rev (fst ft)) acct None.

(** [asyncio.gather] over the sends: each one is attempted, and the first
    failure is what the caller sees. *)
Fixpoint gather (tasks : list (Z * channel)) (what : outgoing)
         (failed : option exn) : M world unit :=
  match tasks with
  | [] => match failed with
          | Some e => raise e
          | None => ret tt
          end
  | (channel_id, ch) :: rest =>
      fun w =>
        match channel_send channel_id ch what w with
        | (Raise e, w') =>
            gather rest what
                   (match failed with Some _ => failed | None => Some e end)
                   w'
        | (_, w') => gather rest what failed w'
        end
  end.

Definition send_clips_update (c : clip) (cd : clip_data) : M world unit :=
  let msg := cd_display_name cd ++ " has a new clip! " ++ clip_url c in
  let tasks :=
    flat_map (fun channel_id =>
                match get_channel env channel_id with
                | Some ch => if send_messages ch then [(channel_id, ch)]
                             else []
                | None => []
                end) (cd_channels cd) in
  gather tasks (SendText msg) None.

Definition check_clips (fuel : nat) : M world unit :=
  followed <- gets twitch_clips ;;
  for_each followed (fun item =>
    let user_id := fst item in
    let cd := snd item in
    fetched <- try_except
                 (utcnow <- gets clock ;;
                  let now := utcnow + timedelta_days (-8) in
                  cs <- get_new_clips fuel user_id (Some now) ;;
                  ret (Some cs))
                 (fun _ => true)
                 (fun e =>
                    log_add (LogError
                               ("Error getting twitch clips " ++ user_id)
                               e) ;;;
                    ret None) ;;
    match fetched with
    | None => ret tt
    | Some cs =>
        for_each cs (fun c =>
          if negb (mem (clip_id c) (clips cd)) then
            send_clips_update c cd ;;;
            saved <- gets twitch_clips ;;
            match append_clip user_id (clip_id c) saved with
            | Some saved' => modify (set_twitch_clips saved')
            | None => raise KeyError
            end
          else ret tt)
    end).

(** The [while] of [check_for_new_followers]; [cycles] bounds how many
    rounds are followed. *)
Fixpoint polling_loop (cycles fuel : nat) : M world unit :=
  match cycles with
  | O => fun w => (Diverge, w)
  | S cycles' =>
      now <- gets clock ;;
      if cog_registered env now then
        follow_accounts <- gets twitch_accounts ;;
        for_each follow_accounts (check_followers fuel) ;;;
        check_clips fuel ;;;
        sleep (60 * MICRO) ;;;
        polling_loop cycles' fuel
      else ret tt
  end.

Definition check_for_new_followers (cycles fuel : nat) : M world unit :=
  polling_loop cycles fuel.

(** [check_account_added]: the loop does not stop at a match, so the last
    account with the id of the profile is the one returned. *)
Fixpoint check_account_added_from (account_return : option account)
         (account_list : list account) (profile : TwitchProfile)
  : option account :=
  match account_list with
  | [] => account_return
  | acct :: rest =>
      check_account_added_from
        (if String.eqb (account_id acct) (id profile) then Some acct
         else account_return)
        rest profile
  end.

Definition check_account_added (account_list : list account)
           (profile : TwitchProfile) : option account :=
  check_account_added_from None account_list profile.

(** [TwitchError] of [errors.py], an exception with a message. *)
Definition TwitchError (msg : string) : exn := OtherError msg.

(** [maybe_get_twitch_profile].  [stored_id] is what
    [config.user(ctx.author).id()] holds, which is only read when no name is
    given.  The log record keeps the exception that was caught beside the
    message. *)
Definition maybe_get_twitch_profile (fuel : nat) (stored_id : string)
           (twitch_name : option string) : M world TwitchProfile :=
  match twitch_name with
  | Some name =>
      try_except
        (get_profile_from_name fuel name)
        (fun _ => true)
        (fun e =>
           log_add (LogError (name ++ " is not a valid Twitch username") e) ;;;
           raise (TwitchError (name ++ " is not a valid Twitch username")))
  | None =>
      if String.eqb stored_id ""
      then raise (TwitchError "You must set a twitch ID")
      else get_profile_from_id fuel stored_id
  end.

End Client.

(** ** Vocabulary of the statements *)

(** What a step may leave untouched: everything but the cached credential
    and the counts of the requests made to the identity service. *)
Definition oauth_frame (w w' : world) : Prop :=
  clock w' = clock w
  /\ twitch_accounts w' = twitch_accounts w
  /\ twitch_clips w' = twitch_clips w
  /\ rate_limit_remaining w' = rate_limit_remaining w
  /\ rate_limit_resets w' = rate_limit_resets w
  /\ api_calls w' = api_calls w
  /\ issued w' = issued w
  /\ sent w' = sent w
  /\ log w' = log w.

(** What a call of [get_response] may leave behind: requests for [url] and
    for nothing else, none of them before the time of the call, nothing
    sent to any channel and no account or clip stored. *)
Definition response_trace (url : string) (w w' : world) : Prop :=
  (exists times,
      issued w' = (issued w ++ map (fun t => (t, url)) times)%list
      /\ Forall (fun t => clock w <= t) times)
  /\ clock w <= clock w'
  /\ sent w' = sent w
  /\ twitch_accounts w' = twitch_accounts w
  /\ twitch_clips w' = twitch_clips w.

(** An account after more followers have been recorded for it, and a clip
    subject after more clips have been. *)
Definition account_grown (a a' : account) : Prop :=
  account_id a' = account_id a
  /\ channels a' = channels a
  /\ exists more, followers a' = (followers a ++ more)%list.

Definition subject_grown (s s' : string * clip_data) : Prop :=
  fst s' = fst s
  /\ cd_display_name (snd s') = cd_display_name (snd s)
  /\ cd_channels (snd s') = cd_channels (snd s)
  /\ exists more, clips (snd s') = (clips (snd s) ++ more)%list.

(** What the polling task keeps of the world: the followed accounts, up to
    their order and to followers recorded since; the clip subjects, in their
    order, up to clips recorded since; what has been sent and asked so far;
    and the direction of time. *)
Definition store_kept (w w' : world) : Prop :=
  (exists l, Permutation (twitch_accounts w) l
             /\ Forall2 account_grown l (twitch_accounts w'))
  /\ Forall2 subject_grown (twitch_clips w) (twitch_clips w')
  /\ (exists more, sent w' = (sent w ++ more)%list)
  /\ (exists more, issued w' = (issued w ++ more)%list)
  /\ clock w <= clock w'.

(** A computation that takes every world to one that [R] relates to it,
    however it ends. *)
Definition keeps {A} (R : world -> world -> Prop) (c : M world A) : Prop :=
  forall w, R w (snd (c w)).

(** The bot can see the channel behind a destination. *)
Definition resolves (env : Env) (channel_id : Z) : bool :=
  match get_channel env channel_id with
  | Some _ => true
  | None => false
  end.

(** The reset times that are still ahead of [int(time.time())]. *)
Definition pending_resets (w : world) : list Z :=
  nodup Z.eq_dec
        (filter (fun x => x >? Z.quot (clock w) MICRO) (rate_limit_resets w)).

(** The order in which CPython iterates a set of at most four non-negative
    integers that fall into different slots of its eight-slot table: by
    slot, and the slot of [x] is [x mod 8].  So [list({1, 8})] is
    [[8, 1]]. *)
Definition small_set_order (s : list Z) : list Z :=
  flat_map (fun slot => filter (fun x => x mod 8 =? slot) s)
           [0; 1; 2; 3; 4; 5; 6; 7].

(** ** Surroundings for the examples *)

Definition plain (code : Z) (b : body) : reply :=
  Responds {| status := code; Ratelimit_Remaining := Absent;
              Ratelimit_Reset := Absent; payload := b |}.

(** A bot with a client id and no client secret, whose cog stays
    registered. *)
Definition example_env
           (api : nat -> string -> list (string * string) -> reply)
           (get_channel : Z -> option channel) : Env :=
  {| api_tokens := {| client_id := Some "client"; client_secret := None |};
     token_endpoint := fun _ => Fails ClientError;
     validate_endpoint := fun _ _ => Fails ClientError;
     api := api;
     get_channel := get_channel;
     cog_registered := fun _ => true;
     set_iter := small_set_order |}.

(** Twitch with no clips to report and a bot that sees no channel. *)
Definition quiet_env : Env :=
  example_env (fun _ _ _ => plain 200 (Clips [])) (fun _ => None).

(** A client that has made no request yet, at 2023-11-14T22:13:20. *)
Definition example_world (accounts : list account)
           (clip_subjects : list (string * clip_data))
           (remaining : Z) (resets : list Z) : world :=
  {| clock := 1700000000 * MICRO;
     access_token_cfg := EmptyDict;
     twitch_accounts := accounts;
     twitch_clips := clip_subjects;
     rate_limit_remaining := remaining;
     rate_limit_resets := resets;
     token_calls := 0; validate_calls := 0; api_calls := 0;
     issued := []; sent := []; log := [] |}.

Definition example_profile (name : string) : TwitchProfile :=
  {| id := name; login := name; display_name := name;
     description := "streams"; profile_image_url := "face.png";
     offline_image_url := "offline.png"; view_count := 7 |}.

Definition example_follow (who : string) : TwitchFollower :=
  {| from_id := who; to_id := "A"; followed_at := "2023-11-14" |}.

Definition open_channel : channel :=
  {| embed_links := true; send_messages := true; accepts := true |}.

Definition text_only_channel : channel :=
  {| embed_links := false; send_messages := true; accepts := true |}.

(** Twitch as the follower scenario has it: account ["A"] is followed by
    ["u1"] and, more recently, by ["u2"]. *)
Definition scenario_api (n : nat) (url : string)
           (header : list (string * string)) : reply :=
  if String.eqb url (BASE_URL ++ "/users?id=A")
  then plain 200 (Users [example_profile "A"])
  else if String.eqb url (BASE_URL ++ "/users?id=u2")
  then plain 200 (Users [example_profile "u2"])
  else if String.eqb url (BASE_URL ++ "/users/follows?to_id=A&first=100")
  then plain 200 (Follows [example_follow "u2"; example_follow "u1"] 2)
  else Fails ClientError.

(** The bot sees channel 10, where it may embed, and channel 12, where it
    may only write text; it sees no channel 11. *)
Definition scenario_env : Env :=
  example_env scenario_api
              (fun c => if c =? 10 then Some open_channel
                        else if c =? 12 then Some text_only_channel
                        else None).

(** Account ["A"] with the follower ["u1"] on record. *)
Definition scenario_account (destinations : list Z) : account :=
  {| account_id := "A"; followers := ["u1"]; channels := destinations |}.

(** Twitch out of reach. *)
Definition offline_env : Env :=
  example_env (fun _ _ _ => Fails ClientError) (fun _ => None).



(** Twitch with nothing to report and a cog that is unloaded at the time
    [unloaded_at]. *)
Definition unloading_env (unloaded_at : Z) : Env :=
  {| api_tokens := {| client_id := Some "client"; client_secret := None |};
     token_endpoint := fun _ => Fails ClientError;
     validate_endpoint := fun _ _ => Fails ClientError;
     api := fun _ _ _ => plain 200 (Clips []);
     get_channel := fun _ => None;
     cog_registered := fun now => now <? unloaded_at;
     set_iter := small_set_order |}.

(** Twitch reporting the clips ["c1"] and ["c2"] for every broadcaster, and
    a bot that sees channel 10 only. *)
Definition example_clip (name : string) : clip :=
  {| clip_id := name; clip_url := "https://clips.twitch.tv/" ++ name |}.

Definition clips_env : Env :=
  example_env (fun _ _ _ => plain 200 (Clips [example_clip "c1";
                                              example_clip "c2"]))
              (fun c => if c =? 10 then Some open_channel else None).

(** An identity service that rejects the token it is shown and issues the
    token ["new"], and a Twitch that serves the profile of ["A"] to the
    bearer of ["new"] and to nobody else. *)
Definition renewing_env : Env :=
  {| api_tokens := {| client_id := Some "client";
                      client_secret := Some "secret" |};
     token_endpoint := fun _ => plain 200 (Token (Some "new"));
     validate_endpoint := fun _ _ => plain 401 NotJson;
     api := fun _ _ header =>
              if existsb (fun h => String.eqb (snd h) "Bearer new") header
              then plain 200 (Users [example_profile "A"])
              else plain 401 NotJson;
     get_channel := fun _ => None;
     cog_registered := fun _ => true;
     set_iter := small_set_order |}.

(** A bot whose client secret the identity service does not know: the token
    endpoint answers every request with an error body. *)
Definition refused_env : Env :=
  {| api_tokens := {| client_id := Some "client";
                      client_secret := Some "wrong" |};
     token_endpoint := fun _ => plain 400 (Token None);
     validate_endpoint := fun _ _ => Fails ClientError;
     api := fun _ _ _ => plain 200 (Users [example_profile "A"]);
     get_channel := fun _ => None;
     cog_registered := fun _ => true;
     set_iter := small_set_order |}.

End Twitch.

(* ================================================================== *)
(** * hockey/menu.py: LeaderboardPages *)
(* ================================================================== *)

Module Leaderboard.

Local Open Scope string_scope.
Local Open Scope Z_scope.

Record Embed : Type := {
  timestamp : Z;
  description : string;
  author_name : string;
  author_icon_url : string;
  thumbnail_url : string;
  footer_text : string
}.

(** [LeaderboardPages.format_page].  A page is the list of the lines of one
    leaderboard page; [guild_name] and [guild_icon_url] are read off the
    invoking context and [utcnow] is the time of the call. *)
Definition format_page (style guild_name guild_icon_url : string)
           (utcnow : Z) (current_page : Z) (entries : list (list string))
           (page : list string) : outcome Embed :=
  Ok {| timestamp := utcnow;
        description := fold_left String.append page "";
        author_name := guild_name ++ " Pickems " ++ style ++ " Leaderboard";
        author_icon_url := guild_icon_url;
        thumbnail_url := guild_icon_url;
        footer_text := "Page " ++ Twitch.str (current_page + 1) ++ "/"
                         ++ Twitch.str (Z.of_nat (List.length entries)) |}.

Definition LeaderboardPages (style guild_name guild_icon_url : string)
           (utcnow : Z)
  : Menu.PageSource (list (list string)) (list string) Embed unit :=
  Menu.ListPageSource true (format_page style guild_name guild_icon_url utcnow).

End Leaderboard.

(** Unfold the control flow of a computation, down to the calls it makes. *)
Ltac py_step :=
  cbv beta iota zeta
      delta [Py.bind Py.ret Py.raise Py.gets Py.modify Py.try_except
             Py.try_finally Twitch._get_api_tokens Twitch.keys_client_id
             Twitch.log_add Twitch.sleep Twitch.json Twitch.int_header].

Ltac py_step_in H :=
  cbv beta iota zeta
      delta [Py.bind Py.ret Py.raise Py.gets Py.modify Py.try_except
             Py.try_finally Twitch._get_api_tokens Twitch.keys_client_id
             Twitch.log_add Twitch.sleep Twitch.json Twitch.int_header] in H.

(* ================================================================== *)
(** * Properties of the menus *)
(* ================================================================== *)

Import Menu.

Open Scope Z_scope.

(** Two facts about sequencing. *)

Lemma bind_Ok {S A B} (c : M S A) (k : A -> M S B) s a s' :
  c s = (Ok a, s') -> bind c k s = k a s'.
Proof. intros H. unfold bind. now rewrite H. Qed.

Lemma bind_ext {S A B} (c : M S A) (k1 k2 : A -> M S B) (s : S) :
  (forall a s', k1 a s' = k2 a s') -> bind c k1 s = bind c k2 s.
Proof.
  intros H. unfold bind. destruct (c s) as [[a|e|] s']; [apply H|reflexivity..].
Qed.

Section MenuFacts.

Context {Src Page Embed Date : Type}.
Context {PS : PageSource Src Page Embed Date}.

Lemma on_source_run {A} (c : M Src A) (m : menu Src Embed) :
  on_source c m = (fst (c (_source m)), with_source (snd (c (_source m))) m).
Proof. unfold on_source, zoom. now destruct (c (_source m)). Qed.

(** What [GamesMenu.show_page] does, by the outcome of the fetch. *)
Lemma GamesMenu_show_page_cases n sn sp (m : menu Src Embed) :
  GamesMenu.show_page n sn sp m =
  match get_page n (Some (sn, sp)) (_source m) with
  | (Ok page, s1) =>
      (kwargs <- _get_kwargs_from_page page ;;
       message_edit (fst kwargs) (snd kwargs))
        (with_current_page n (with_source s1 m))
  | (Raise NoSchedule, s1) =>
      (Ok tt,
       with_msg {| content := Some GamesMenu.no_schedule_text;
                   embed := None;
                   deleted := deleted (msg m) |} (with_source s1 m))
  | (Raise e, s1) => (Raise e, with_source s1 m)
  | (Diverge, s1) => (Diverge, with_source s1 m)
  end.
Proof.
  unfold GamesMenu.show_page, bind at 1, try_except, bind at 1.
  rewrite on_source_run.
  destruct (get_page n (Some (sn, sp)) (_source m)) as [[page|e|] s1];
    cbn; try reflexivity.
  destruct e; reflexivity.
Qed.

(** Showing a page never touches the index after it has been set. *)
Lemma render_keeps_index page (m : menu Src Embed) :
  current_page
    (snd ((kwargs <- _get_kwargs_from_page page ;;
           message_edit (fst kwargs) (snd kwargs)) m)) = current_page m.
Proof.
  unfold _get_kwargs_from_page, bind, gets, ret, message_edit, modify.
  rewrite on_source_run.
  destruct (format_page (current_page m) page (_source m)) as [[em|e|] s1];
    reflexivity.
Qed.

End MenuFacts.

(** C5.  When the page source answers a fetch with the "no schedule" signal,
    [GamesMenu.show_page] returns normally and the displayed message now
    reads "No Schedule could be found for that date and team." with no embed:
    the failure is shown to the user, it is neither raised nor dropped.  The
    same holds when the fetch comes from a navigation control, through
    [show_checked_page]. *)
Theorem GamesMenu_no_schedule_is_shown
        {Src Page Embed Date : Type} {PS : PageSource Src Page Embed Date}
        (n : Z) (sn sp : bool) (m : menu Src Embed) (s1 : Src) :
  get_page n (Some (sn, sp)) (_source m) = (Raise NoSchedule, s1) ->
  let shown :=
    with_msg
      {| content :=
           Some "No Schedule could be found for that date and team."%string;
         embed := None;
         deleted := deleted (msg m) |} (with_source s1 m) in
  GamesMenu.show_page n sn sp m = (Ok tt, shown)
  /\ (sn = false -> sp = false ->
      GamesMenu.show_checked_page n m = (Ok tt, shown)).
Proof.
  intros H shown.
  assert (E : GamesMenu.show_page n sn sp m = (Ok tt, shown)).
  { rewrite GamesMenu_show_page_cases, H. reflexivity. }
  split; [exact E|].
  intros -> ->. unfold GamesMenu.show_checked_page, try_except.
  now rewrite E.
Qed.

Lemma GamesMenu_no_schedule_is_shown_witness :
  GamesMenu.show_page (PS := NoGames) 1 false false
                      (session tt 0 (Some "Game 1"%string))
  = (Ok tt,
     {| _source := tt; current_page := 0;
        msg := {| content :=
                    Some "No Schedule could be found for that date and team."%string;
                  embed := None; deleted := false |};
        _running := true; _lock := false; log := []; ctx := [] |}).
Proof.
  exact (proj1 (GamesMenu_no_schedule_is_shown
                  (PS := NoGames) 1 false false
                  (session tt 0 (Some "Game 1"%string)) eq_refl)).
Defined.

(** C10.  [GamesMenu.show_page] sets the index to the requested page number
    exactly when the fetch returns a page.  On the "no schedule" signal the
    index keeps its value and nothing changes but the displayed message,
    which is replaced by the error text (and whatever the fetch did to the
    source); on any other failure of the fetch the index and the message both
    keep their values. *)
Theorem GamesMenu_show_page_index
        {Src Page Embed Date : Type} {PS : PageSource Src Page Embed Date}
        (n : Z) (sn sp : bool) (m : menu Src Embed) :
  let fetch := get_page n (Some (sn, sp)) (_source m) in
  let m' := snd (GamesMenu.show_page n sn sp m) in
  match fst fetch with
  | Ok _ => current_page m' = n
  | Raise NoSchedule =>
      current_page m' = current_page m
      /\ m' = with_msg {| content := Some GamesMenu.no_schedule_text;
                          embed := None;
                          deleted := deleted (msg m) |}
                       (with_source (snd fetch) m)
  | _ => current_page m' = current_page m /\ m' = with_source (snd fetch) m
  end.
Proof.
  cbv zeta. rewrite GamesMenu_show_page_cases.
  destruct (get_page n (Some (sn, sp)) (_source m)) as [[page|e|] s1]; cbn.
  - now rewrite render_keeps_index.
  - destruct e; cbn; auto.
  - auto.
Qed.

Lemma update_found {Src Embed : Type} (buttons : list (Button Src Embed))
      (payload : control) (b : Button Src Embed) (m : menu Src Embed) :
  find_button buttons payload = Some b ->
  update buttons payload m =
  if negb (_running m) then (Ok tt, m)
  else
    try_except
      (if lock b
       then async_with_lock
              (still <- gets (@_running Src Embed) ;;
               if still then call_button b else ret tt)
       else call_button b)
      (fun _ => true)
      (fun exc => log_debug "Ignored exception on reaction event" exc) m.
Proof.
  intros Hb. unfold update. rewrite Hb.
  unfold bind at 1. unfold ret at 1. unfold bind at 1. unfold gets at 1.
  cbv beta iota. now destruct (_running m).
Qed.

Lemma locked_call {Src Embed : Type} (b : Button Src Embed)
      (m : menu Src Embed) :
  _running m = true ->
  _lock m = false ->
  async_with_lock
    (still <- gets (@_running Src Embed) ;;
     if still then call_button b else ret tt) m
  = (fst (call_button b (with_lock true m)),
     with_lock false (snd (call_button b (with_lock true m)))).
Proof.
  intros Hr Hl. unfold async_with_lock, try_finally. rewrite Hl.
  unfold bind, gets.
  replace (_running (with_lock true m)) with true by (symmetry; exact Hr).
  now destruct (call_button b (with_lock true m)) as [[u|e|] m1].
Qed.

(** C8.  [update] never lets an exception of a control's handler out.  When
    the control exists, [update] does not raise whatever the handler does;
    and when the handler raises [e] on a running session, [update] returns
    normally, the session gate is released, one record "Ignored exception on
    reaction event" carrying [e] is added to the log, and everything else,
    the running flag included, is as the handler left it. *)
Theorem update_suppresses_handler_failure
        {Src Embed : Type} (buttons : list (Button Src Embed))
        (payload : control) (b : Button Src Embed) (m : menu Src Embed) :
  find_button buttons payload = Some b ->
  (forall e, fst (update buttons payload m) <> Raise e)
  /\ (forall e m1,
         _running m = true ->
         _lock m = false ->
         call_button b (if lock b then with_lock true m else m)
         = (Raise e, m1) ->
         let m2 := if lock b then with_lock false m1 else m1 in
         update buttons payload m
         = (Ok tt,
            with_log
              (log m2 ++ [{| log_text := "Ignored exception on reaction event";
                             exc_info := e |}]) m2)).
Proof.
  intros Hb. split.
  - intros e. rewrite (update_found _ _ m Hb).
    destruct (_running m) eqn:Hr; simpl; [|discriminate].
    unfold try_except. destruct (lock b).
    + destruct (_lock m) eqn:Hl.
      * unfold async_with_lock. rewrite Hl. discriminate.
      * rewrite (locked_call b m Hr Hl).
        destruct (call_button b (with_lock true m)) as [[u|e'|] m1]; simpl;
          discriminate.
    + destruct (call_button b m) as [[u|e'|] m1]; simpl; discriminate.
  - intros e m1 Hr Hl Hcall. rewrite (update_found _ _ m Hb), Hr. simpl.
    unfold try_except. destruct (lock b).
    + rewrite (locked_call b m Hr Hl), Hcall. reflexivity.
    + rewrite Hcall. reflexivity.
Qed.

Lemma update_suppresses_handler_failure_witness :
  update (BaseMenu.buttons (PS := BrokenRoster)) RightTriangle
         (session ["a"; "b"; "c"]%string 0 None)
  = (Ok tt,
     {| _source := ["a"; "b"; "c"]%string; current_page := 1;
        msg := {| content := None; embed := None; deleted := false |};
        _running := true; _lock := false;
        log := [{| log_text := "Ignored exception on reaction event";
                   exc_info := OtherError "format failed" |}];
        ctx := [] |}).
Proof.
  exact (proj2 (update_suppresses_handler_failure
                  (BaseMenu.buttons (PS := BrokenRoster)) RightTriangle
                  (session ["a"; "b"; "c"]%string 0 None) eq_refl)
               (OtherError "format failed")
               {| _source := ["a"; "b"; "c"]%string; current_page := 1;
                  msg := {| content := None; embed := None;
                            deleted := false |};
                  _running := true; _lock := true; log := []; ctx := [] |}
               eq_refl eq_refl eq_refl).
Defined.

(** What the framework's [show_page] does when the source serves the page. *)
Lemma BaseMenu_show_page_served
      {Src Page Embed Date : Type} {PS : PageSource Src Page Embed Date}
      (k : Z) (m : menu Src Embed) page s1 em s2 :
  get_page k None (_source m) = (Ok page, s1) ->
  format_page k page s1 = (Ok em, s2) ->
  BaseMenu.show_page k m
  = (Ok tt,
     with_msg {| content := None; embed := Some em;
                 deleted := deleted (msg m) |}
              (with_current_page k (with_source s2 m))).
Proof.
  intros Hget Hfmt.
  unfold BaseMenu.show_page, bind at 1. rewrite on_source_run, Hget. cbn.
  unfold _get_kwargs_from_page, bind, gets, modify. cbn.
  rewrite on_source_run. cbn. rewrite Hfmt. reflexivity.
Qed.

Lemma BaseMenu_show_page_raises
      {Src Page Embed Date : Type} {PS : PageSource Src Page Embed Date}
      (k : Z) (m : menu Src Embed) e s1 :
  get_page k None (_source m) = (Raise e, s1) ->
  BaseMenu.show_page k m = (Raise e, with_source s1 m).
Proof.
  intros Hget.
  unfold BaseMenu.show_page, bind at 1. rewrite on_source_run, Hget.
  reflexivity.
Qed.

(** C4, as the code has it.  In a [BaseMenu] session whose source counts
    [N > 0] pages, "next" at index [N - 1] shows page 0 and "previous" at
    index 0 shows page [N - 1], whenever the source serves that page.  With no
    page count, a request that the source answers with [IndexError] leaves the
    session as it was.  A [GamesMenu] session never wraps: it hands the
    requested index to the source whatever the page count is, and an
    [IndexError] leaves the session as it was. *)
Theorem navigation_wraps_in_BaseMenu_only
        {Src Page Embed Date : Type} {PS : PageSource Src Page Embed Date}
        (m : menu Src Embed) :
  let shows k em s :=
    with_msg {| content := None; embed := Some em;
                deleted := deleted (msg m) |}
             (with_current_page k (with_source s m)) in
  (forall N page s1 em s2,
      get_max_pages (_source m) = Some N -> 0 < N ->
      current_page m = N - 1 ->
      get_page 0 None (_source m) = (Ok page, s1) ->
      format_page 0 page s1 = (Ok em, s2) ->
      BaseMenu.go_to_next_page m = (Ok tt, shows 0 em s2))
  /\ (forall N page s1 em s2,
         get_max_pages (_source m) = Some N -> 0 < N ->
         current_page m = 0 ->
         get_page (N - 1) None (_source m) = (Ok page, s1) ->
         format_page (N - 1) page s1 = (Ok em, s2) ->
         BaseMenu.go_to_previous_page m = (Ok tt, shows (N - 1) em s2))
  /\ (forall k s1,
         get_max_pages (_source m) = None ->
         get_page k None (_source m) = (Raise IndexError, s1) ->
         BaseMenu.show_checked_page k m = (Ok tt, with_source s1 m))
  /\ (forall k s1,
         get_page k (Some (false, false)) (_source m)
         = (Raise IndexError, s1) ->
         GamesMenu.show_checked_page k m = (Ok tt, with_source s1 m)).
Proof.
  cbv zeta. repeat split.
  - intros N page s1 em s2 Hmax HN Hcur Hget Hfmt.
    unfold BaseMenu.go_to_next_page, bind at 1, gets at 1.
    unfold BaseMenu.show_checked_page, bind at 1, gets at 1.
    rewrite Hmax, Hcur. unfold try_except.
    replace (N - 1 + 1 >=? N) with true by (symmetry; apply Z.geb_le; lia).
    now rewrite (BaseMenu_show_page_served _ _ Hget Hfmt).
  - intros N page s1 em s2 Hmax HN Hcur Hget Hfmt.
    unfold BaseMenu.go_to_previous_page, bind at 1, gets at 1.
    unfold BaseMenu.show_checked_page, bind at 1, gets at 1.
    rewrite Hmax, Hcur. unfold try_except.
    replace (0 - 1 >=? N) with false
      by (symmetry; rewrite Z.geb_leb; apply Z.leb_gt; lia).
    replace (0 - 1 <? 0) with true by reflexivity.
    now rewrite (BaseMenu_show_page_served _ _ Hget Hfmt).
  - intros k s1 Hmax Hget.
    unfold BaseMenu.show_checked_page, bind at 1, gets at 1.
    rewrite Hmax. unfold try_except.
    now rewrite (BaseMenu_show_page_raises _ _ Hget).
  - intros k s1 Hget.
    unfold GamesMenu.show_checked_page, try_except.
    rewrite GamesMenu_show_page_cases, Hget. reflexivity.
Qed.

Lemma navigation_wraps_in_BaseMenu_only_witness :
  BaseMenu.go_to_next_page (PS := PlainPages)
                           (session ["a"; "b"; "c"]%string 2 (Some "c"%string))
  = (Ok tt, session ["a"; "b"; "c"]%string 0 (Some "a"%string))
  /\ BaseMenu.go_to_previous_page
       (PS := PlainPages)
       (session ["a"; "b"; "c"]%string 0 (Some "a"%string))
     = (Ok tt, session ["a"; "b"; "c"]%string 2 (Some "c"%string))
  /\ BaseMenu.show_checked_page
       (PS := GameList false) 3
       (session ["a"; "b"; "c"]%string 2 (Some "c"%string))
     = (Ok tt, session ["a"; "b"; "c"]%string 2 (Some "c"%string))
  /\ GamesMenu.show_checked_page
       (PS := GameList true) 3
       (session ["a"; "b"; "c"]%string 2 (Some "c"%string))
     = (Ok tt, session ["a"; "b"; "c"]%string 2 (Some "c"%string)).
Proof.
  split; [|split; [|split]].
  - exact (proj1 (navigation_wraps_in_BaseMenu_only
                    (PS := PlainPages)
                    (session ["a"; "b"; "c"]%string 2 (Some "c"%string)))
                 3 "a"%string ["a"; "b"; "c"]%string "a"%string
                 ["a"; "b"; "c"]%string
                 eq_refl eq_refl eq_refl eq_refl eq_refl).
  - exact (proj1 (proj2 (navigation_wraps_in_BaseMenu_only
                           (PS := PlainPages)
                           (session ["a"; "b"; "c"]%string 0
                                    (Some "a"%string))))
                 3 "c"%string ["a"; "b"; "c"]%string "c"%string
                 ["a"; "b"; "c"]%string
                 eq_refl eq_refl eq_refl eq_refl eq_refl).
  - exact (proj1 (proj2 (proj2 (navigation_wraps_in_BaseMenu_only
                                  (PS := GameList false)
                                  (session ["a"; "b"; "c"]%string 2
                                           (Some "c"%string)))))
                 3 ["a"; "b"; "c"]%string eq_refl eq_refl).
  - exact (proj2 (proj2 (proj2 (navigation_wraps_in_BaseMenu_only
                                  (PS := GameList true)
                                  (session ["a"; "b"; "c"]%string 2
                                           (Some "c"%string)))))
                 3 ["a"; "b"; "c"]%string eq_refl).
Defined.

(** C4 fails as stated: a [GamesMenu] session on a source that counts three
    pages, at the last index, ignores "next" instead of showing page 0. *)
Lemma GamesMenu_next_does_not_wrap :
  let m := session ["g1"; "g2"; "g3"]%string 2 (Some "g3"%string) in
  get_max_pages (PageSource := GameList true) (_source m) = Some 3
  /\ current_page m = 3 - 1
  /\ GamesMenu.go_to_next_page (PS := GameList true) m = (Ok tt, m)
  /\ update (GamesMenu.buttons (PS := GameList true) None) RightTriangle m
     = (Ok tt, m)
  /\ current_page m <> 0.
Proof.
  cbv zeta. repeat split. discriminate.
Qed.

(** A skipped control does nothing when it is activated. *)
Lemma skipped_control_is_inert {Src Embed : Type} (b : Button Src Embed)
      (m : menu Src Embed) :
  skipped b m = true -> call_button b m = (Ok tt, m).
Proof. intros H. unfold call_button. now rewrite H. Qed.

(** [BaseMenu] gives its arrows the predicate [_skip_single_arrows] and its
    double triangles the predicate [_skip_double_triangle_buttons], both read
    off the source each time they are asked: with one page the arrows are
    skipped, with at most two pages the double triangles are. *)
Lemma BaseMenu_controls_skipped
      {Src Page Embed Date : Type} {PS : PageSource Src Page Embed Date}
      (m : menu Src Embed) :
  map (fun b => skipped b m) BaseMenu.buttons
  = [BaseMenu._skip_single_arrows m; BaseMenu._skip_single_arrows m;
     BaseMenu._skip_double_triangle_buttons m;
     BaseMenu._skip_double_triangle_buttons m; false]
  /\ (get_max_pages (_source m) = Some 1 ->
      BaseMenu._skip_single_arrows m = true)
  /\ (forall N, get_max_pages (_source m) = Some N -> N <= 2 ->
                BaseMenu._skip_double_triangle_buttons m = true).
Proof.
  split; [reflexivity|]. split.
  - intros H. unfold BaseMenu._skip_single_arrows. now rewrite H.
  - intros N H HN. unfold BaseMenu._skip_double_triangle_buttons.
    rewrite H. now apply Z.leb_le.
Qed.

(** No control of [GamesMenu] is ever skipped, whatever the source reports. *)
Lemma GamesMenu_controls_never_skipped
      {Src Page Embed Date : Type} {PS : PageSource Src Page Embed Date}
      (reply : option (string * option Date)) (m : menu Src Embed) :
  map (fun b => skipped b m) (GamesMenu.buttons reply)
  = [false; false; false; false; false; false].
Proof. reflexivity. Qed.

(** C7 at a [GamesMenu] session whose source counts exactly one page.  The
    class computes [_skip_single_arrows], which holds here, but none of its
    controls is declared with a [skip_if]: no control is skipped, and
    "previous" runs its handler, which moves the index to [-1]. *)
Theorem GamesMenu_single_page_controls_stay_live :
  let m := session ["g1"]%string 0 (Some "g1"%string) in
  get_max_pages (PageSource := GameList true) (_source m) = Some 1
  /\ GamesMenu._skip_single_arrows (PS := GameList true) m = true
  /\ map (fun b => skipped b m) (GamesMenu.buttons (PS := GameList true) None)
     = [false; false; false; false; false; false]
  /\ update (GamesMenu.buttons (PS := GameList true) None) LeftTriangle m
     = (Ok tt, with_current_page (-1) m).
Proof.
  cbv zeta. repeat split.
Qed.

(* ================================================================== *)
(** * Properties of the Twitch client *)
(* ================================================================== *)

Import Twitch.

Section ClientFacts.

Variable env : Env.

Lemma oauth_frame_refl w : oauth_frame w w.
Proof. repeat split. Qed.

Lemma oauth_frame_trans w1 w2 w3 :
  oauth_frame w1 w2 -> oauth_frame w2 w3 -> oauth_frame w1 w3.
Proof.
  unfold oauth_frame. intros H1 H2.
  repeat match goal with H : _ /\ _ |- _ => destruct H end.
  repeat split; congruence.
Qed.

Lemma oauth_check_frame fuel w :
  oauth_frame w (snd (oauth_check env fuel w)).
Proof.
  revert w. induction fuel as [|fuel IH]; intros w; [apply oauth_frame_refl|].
  cbn [oauth_check]. unfold bind, _get_api_tokens, ret, gets.
  destruct (client_secret (api_tokens env)); [|apply oauth_frame_refl].
  unfold keys_client_id, raise, ret.
  destruct (client_id (api_tokens env)); [|apply oauth_frame_refl].
  destruct (access_token_cfg w) eqn:Htok.
  - unfold modify. cbn.
    destruct (token_endpoint env (token_calls w)) as [resp|e]; cbn.
    + unfold json, raise, ret.
      destruct (payload resp); cbn; repeat split.
    + repeat split.
  - unfold modify. cbn.
    eapply oauth_frame_trans; [|apply IH]. repeat split.
  - unfold modify. cbn.
    destruct (validate_endpoint env (validate_calls w) _) as [resp|e]; cbn.
    + destruct (status resp =? 200); cbn; [repeat split|].
      eapply oauth_frame_trans; [|apply IH]. repeat split.
    + repeat split.
Qed.

Lemma get_header_keeps w : snd (get_header env w) = w.
Proof.
  unfold get_header. py_step.
  destruct (client_id (api_tokens env)); [|reflexivity].
  destruct (access_token_cfg w); reflexivity.
Qed.

Lemma wait_for_rate_limit_reset_cases w :
  wait_for_rate_limit_reset env w =
  if rate_limit_remaining w =? 0 then
    let w1 := set_rate_limit_resets (pending_resets w) w in
    if 0 <? Z.of_nat (List.length (pending_resets w)) then
      match set_iter env (pending_resets w) with
      | reset_time :: _ =>
          let d := reset_time - Z.quot (clock w) MICRO in
          (Ok tt,
           set_clock (clock w + Z.max 0 (d * MICRO + MICRO / 10))
                     (set_log (Twitch.log w ++ [LogDebug (str d ++ ".1")])
                              w1))
      | [] => (Raise IndexError, w1)
      end
    else (Ok tt, w1)
  else (Ok tt, w).
Proof.
  unfold wait_for_rate_limit_reset, pending_resets, current_second.
  py_step.
  destruct (rate_limit_remaining w =? 0); [|reflexivity].
  cbn [rate_limit_resets set_rate_limit_resets].
  set (pend := nodup Z.eq_dec _).
  destruct (0 <? Z.of_nat (List.length pend)); [|reflexivity].
  destruct (set_iter env pend); reflexivity.
Qed.

(** Waiting moves the clock forward only and sends nothing. *)
Lemma wait_for_rate_limit_reset_frame w :
  let w' := snd (wait_for_rate_limit_reset env w) in
  clock w <= clock w'
  /\ issued w' = issued w
  /\ api_calls w' = api_calls w
  /\ sent w' = sent w
  /\ twitch_accounts w' = twitch_accounts w
  /\ twitch_clips w' = twitch_clips w
  /\ access_token_cfg w' = access_token_cfg w.
Proof.
  cbv zeta. rewrite wait_for_rate_limit_reset_cases.
  destruct (rate_limit_remaining w =? 0); cbn; [|repeat split; lia].
  destruct (0 <? Z.of_nat (List.length (pending_resets w))); cbn;
    [|repeat split; lia].
  destruct (set_iter env (pending_resets w)); cbn; repeat split; lia.
Qed.

Lemma response_trace_none url w w1 :
  clock w <= clock w1 -> issued w1 = issued w -> sent w1 = sent w ->
  twitch_accounts w1 = twitch_accounts w ->
  twitch_clips w1 = twitch_clips w ->
  response_trace url w w1.
Proof.
  intros Hc Hi Hs Ha Hcl. split; [|repeat split; assumption].
  exists []. split; [now rewrite app_nil_r|constructor].
Qed.

Lemma get_response_trace fuel url w r w' :
  get_response env fuel url w = (r, w') -> response_trace url w w'.
Proof.
  revert w r w'. induction fuel as [|fuel IH]; intros w r w' Hrun.
  { cbn in Hrun. inversion Hrun; subst.
    apply response_trace_none; (lia || reflexivity). }
  cbn [get_response] in Hrun. unfold bind at 1 in Hrun.
  pose proof (oauth_check_frame (S fuel) w) as Hoa.
  destruct (oauth_check env (S fuel) w) as [[[]|e|] w1]; cbn [snd] in Hoa;
    destruct Hoa as (Hc1 & Ha1 & Hcl1 & _ & _ & _ & Hi1 & Hs1 & _);
    try (inversion Hrun; subst;
         apply response_trace_none; (lia || assumption)).
  unfold bind at 1 in Hrun.
  pose proof (get_header_keeps w1) as Hh.
  destruct (get_header env w1) as [[header|e|] w1']; cbn [snd] in Hh;
    subst w1';
    try (inversion Hrun; subst;
         apply response_trace_none; (lia || assumption)).
  unfold bind at 1 in Hrun.
  pose proof (wait_for_rate_limit_reset_frame w1) as Hw. cbv zeta in Hw.
  destruct (wait_for_rate_limit_reset env w1) as [[[]|e|] w2];
    cbn [snd] in Hw; destruct Hw as (Hc2 & Hi2 & _ & Hs2 & Ha2 & Hcl2 & _);
    try (inversion Hrun; subst;
         apply response_trace_none; (lia || congruence)).
  py_step_in Hrun.
  set (w3 := set_api_calls (S (api_calls w2))
               (set_issued (issued w2 ++ [(clock w2, url)]) w2)) in Hrun.
  assert (Hone : forall w4 : world,
             clock w4 = clock w2 -> issued w4 = issued w3 ->
             sent w4 = sent w2 -> twitch_accounts w4 = twitch_accounts w2 ->
             twitch_clips w4 = twitch_clips w2 ->
             response_trace url w w4).
  { intros w4 Hc Hi Hs Ha Hcl. split; [|repeat split; (lia || congruence)].
    exists [clock w2]. split.
    - rewrite Hi. subst w3. cbn. congruence.
    - constructor; [lia|constructor]. }
  destruct (api env (api_calls w2) url header) as [resp|e];
    [|inversion Hrun; subst; now apply Hone].
  destruct (Ratelimit_Remaining resp) as [| |n];
    destruct (Ratelimit_Reset resp) as [| |n'].
  all: destruct (status resp =? 429);
    [|destruct (payload resp); inversion Hrun; subst; now apply Hone].
  all: apply IH in Hrun;
    destruct Hrun as ((times & Hi5 & Ht5) & Hc5 & Hs5 & Ha5 & Hcl5);
    cbn in Hi5, Ht5, Hc5, Hs5, Ha5, Hcl5.
  all: split; [|repeat split; (lia || congruence)].
  all: exists (clock w2 :: times); split;
    [ rewrite Hi5, Hi2, Hi1; cbn; now rewrite <- app_assoc
    | constructor; [lia|];
      eapply Forall_impl; [|exact Ht5]; cbn; intros; lia ].
Qed.

End ClientFacts.

(** C9, as the code has it.  [get_new_clips] asks for one URL only.  With a
    start timestamp the URL carries [started_at], the start, and [ended_at],
    the time at which the call was made: the window is bounded below by the
    start and above by "now".  Without a start timestamp the URL carries the
    broadcaster and nothing else, so the window has no bound at all. *)
Theorem get_new_clips_window (env : Env) (fuel : nat) (user_id : string)
        (started_at : option datetime) (w : world) :
  (exists times,
      issued (snd (get_new_clips env fuel user_id started_at w))
      = (issued w
           ++ map (fun t => (t, get_new_clips_url user_id started_at (clock w)))
                  times)%list)
  /\ (forall start now,
         get_new_clips_url user_id (Some start) now
         = ((BASE_URL ++ "/clips?broadcaster_id=" ++ user_id
                      ++ "&started_at=" ++ isoformat start ++ "Z")
              ++ "&ended_at=" ++ isoformat now ++ "Z")%string)
  /\ (forall now,
         get_new_clips_url user_id None now
         = (BASE_URL ++ "/clips?broadcaster_id=" ++ user_id)%string).
Proof.
  split; [|split; reflexivity].
  unfold get_new_clips, bind at 1, gets at 1.
  set (url := get_new_clips_url user_id started_at (clock w)).
  unfold bind.
  destruct (get_response env fuel url w) as [r w'] eqn:Hrun.
  destruct (get_response_trace _ _ _ _ Hrun) as ((times & Hi & _) & _).
  exists times.
  destruct r as [b|e|]; [|exact Hi|exact Hi].
  unfold clips_from_json. destruct b; exact Hi.
Qed.

(** C9 fails as stated: a retrieval without a start timestamp asks for the
    clips of the broadcaster with no [ended_at] in the URL. *)
Lemma get_new_clips_without_start_has_no_end :
  let env := quiet_env in
  let w := example_world [] [] 40 [] in
  let url := "https://api.twitch.tv/helix/clips?broadcaster_id=123"%string in
  get_new_clips env 1 "123" None w
  = (Ok [], set_api_calls 1 (set_issued [(clock w, url)] w))
  /\ String.index 0 "ended_at" url = None.
Proof.
  cbv zeta. split; reflexivity.
Qed.

Section RateLimit.

Variable env : Env.

(** If the wait that precedes the request cannot end before [bound], no
    request of the call is issued before [bound]. *)
Lemma get_response_not_before fuel url w r w' bound :
  get_response env fuel url w = (r, w') ->
  (forall w1, oauth_frame w w1 ->
              bound <= clock (snd (wait_for_rate_limit_reset env w1))) ->
  forall entry, In entry (issued w') ->
                In entry (issued w) \/ bound <= fst entry.
Proof.
  intros Hrun Hwait entry Hin.
  destruct fuel as [|fuel].
  { cbn in Hrun. inversion Hrun; subst. now left. }
  cbn [get_response] in Hrun. unfold bind at 1 in Hrun.
  pose proof (oauth_check_frame env (S fuel) w) as Hoa.
  destruct (oauth_check env (S fuel) w) as [[[]|e|] w1]; cbn [snd] in Hoa;
    pose proof Hoa as (Hc1 & _ & _ & _ & _ & _ & Hi1 & _);
    try (inversion Hrun; subst; left; congruence).
  unfold bind at 1 in Hrun.
  pose proof (get_header_keeps env w1) as Hh.
  destruct (get_header env w1) as [[header|e|] w1']; cbn [snd] in Hh;
    subst w1'; try (inversion Hrun; subst; left; congruence).
  unfold bind at 1 in Hrun.
  specialize (Hwait w1 Hoa).
  pose proof (wait_for_rate_limit_reset_frame env w1) as Hw.
  cbv zeta in Hw.
  destruct (wait_for_rate_limit_reset env w1) as [[[]|e|] w2];
    cbn [snd] in Hw, Hwait; destruct Hw as (_ & Hi2 & _);
    try (inversion Hrun; subst; left; congruence).
  py_step_in Hrun.
  set (w3 := set_api_calls (S (api_calls w2))
               (set_issued (issued w2 ++ [(clock w2, url)]) w2)) in Hrun.
  assert (Hone : forall w4 : world,
             issued w4 = issued w3 ->
             In entry (issued w4) ->
             In entry (issued w) \/ bound <= fst entry).
  { intros w4 Hi Hin4. rewrite Hi in Hin4. subst w3. cbn in Hin4.
    apply in_app_or in Hin4. destruct Hin4 as [Hold|[<-|[]]].
    - left. congruence.
    - right. exact Hwait. }
  destruct (api env (api_calls w2) url header) as [resp|e];
    [|inversion Hrun; subst; now apply (Hone w3)].
  destruct (Ratelimit_Remaining resp) as [| |n];
    destruct (Ratelimit_Reset resp) as [| |n'].
  all: destruct (status resp =? 429);
    [|destruct (payload resp); inversion Hrun; subst;
      (eapply Hone; [|exact Hin]; reflexivity)].
  all: apply get_response_trace in Hrun;
    destruct Hrun as ((times & Hi5 & Ht5) & _);
    cbn in Hi5, Ht5; rewrite Hi5 in Hin;
    apply in_app_or in Hin; destruct Hin as [Hin|Hin];
    [ apply (Hone w3 eq_refl); exact Hin
    | right; apply in_map_iff in Hin; destruct Hin as (t & <- & Ht);
      rewrite Forall_forall in Ht5; specialize (Ht5 t Ht); cbn; lia ].
Qed.

Lemma pending_resets_spec w x :
  In x (pending_resets w)
  <-> In x (rate_limit_resets w) /\ Z.quot (clock w) MICRO < x.
Proof.
  unfold pending_resets. rewrite nodup_In, filter_In.
  now rewrite Z.gtb_lt.
Qed.

End RateLimit.

(** C3, as the code has it.  When the remaining-request counter is zero and
    some tracked reset time lies ahead of the current second, the client
    drops the reset times that have elapsed and sleeps until 0.1 s after the
    reset time [T] that comes first when the set of pending reset times is
    iterated.  [T] is one of the pending reset times, so the client wakes no
    earlier than 0.1 s after the earliest of them, and no request of the call
    is issued before [T + 0.1]; with a single pending reset time that is the
    only choice.  Times are in microseconds. *)
Theorem rate_limit_wait (env : Env) (w : world) (T : Z) (rest : list Z) :
  rate_limit_remaining w = 0 ->
  0 <= clock w ->
  set_iter env (pending_resets w) = T :: rest ->
  In T (pending_resets w) ->
  let now := Z.quot (clock w) MICRO in
  let wake := clock w + (T - now) * MICRO + MICRO / 10 in
  wait_for_rate_limit_reset env w
  = (Ok tt,
     set_clock wake
       (set_log (Twitch.log w ++ [LogDebug (str (T - now) ++ ".1")])
                (set_rate_limit_resets (pending_resets w) w)))
  /\ (forall x, In x (pending_resets w)
                <-> In x (rate_limit_resets w) /\ now < x)
  /\ T * MICRO + MICRO / 10 <= wake
  /\ (forall earliest,
         (forall x, In x (pending_resets w) -> earliest <= x) ->
         earliest * MICRO + MICRO / 10 <= wake)
  /\ (forall fuel url r w',
         get_response env fuel url w = (r, w') ->
         forall t u, In (t, u) (issued w') ->
                     In (t, u) (issued w) \/ T * MICRO + MICRO / 10 <= t).
Proof.
  intros Hrem Hclock Hiter HT now wake.
  assert (Hnow : now * MICRO <= clock w).
  { subst now. unfold MICRO.
    pose proof (Z.quot_rem' (clock w) 1000000) as Hqr.
    pose proof (Z.rem_nonneg (clock w) 1000000 ltac:(lia) Hclock). lia. }
  assert (HTnow : now < T) by (apply pending_resets_spec in HT; tauto).
  assert (Hlen : (0 <? Z.of_nat (List.length (pending_resets w))) = true).
  { apply Z.ltb_lt. destruct (pending_resets w); [destruct HT|cbn; lia]. }
  assert (Hwake : T * MICRO + MICRO / 10 <= wake)
    by (subst wake; unfold MICRO in *; cbn; lia).
  split; [|split; [|split; [|split]]].
  - rewrite wait_for_rate_limit_reset_cases, Hrem. cbn [Z.eqb].
    cbv zeta. rewrite Hlen, Hiter. fold now.
    rewrite Z.max_r by (unfold MICRO; cbn; lia).
    subst wake. now rewrite <- Z.add_assoc.
  - intros x. apply pending_resets_spec.
  - exact Hwake.
  - intros earliest Hmin. specialize (Hmin T HT).
    unfold MICRO in *. cbn in *. lia.
  - intros fuel url r w' Hrun t u Hin.
    change t with (fst (t, u)).
    eapply get_response_not_before; [exact Hrun| |exact Hin].
    intros w1 (Hc1 & _ & _ & Hr1 & Hs1 & _).
    assert (Hp : pending_resets w1 = pending_resets w)
      by (unfold pending_resets; now rewrite Hc1, Hs1).
    rewrite wait_for_rate_limit_reset_cases, Hr1, Hrem. cbn [Z.eqb].
    cbv zeta. rewrite Hp, Hlen, Hiter, Hc1. fold now. cbn [snd clock set_clock].
    rewrite Z.max_r by (unfold MICRO; cbn; lia).
    subst wake. lia.
Qed.

Lemma rate_limit_wait_witness :
  let w := example_world [] [] 0 [1699999999; 1700000005] in
  wait_for_rate_limit_reset quiet_env w
  = (Ok tt,
     set_clock (1700000005 * MICRO + MICRO / 10)
       (set_log [LogDebug "5.1"] (set_rate_limit_resets [1700000005] w)))
  /\ (forall fuel url r w',
         get_response quiet_env fuel url w = (r, w') ->
         forall t u, In (t, u) (issued w') ->
                     In (t, u) (issued w)
                     \/ 1700000005 * MICRO + MICRO / 10 <= t).
Proof.
  pose proof (@rate_limit_wait
                quiet_env (example_world [] [] 0 [1699999999; 1700000005])
                1700000005 [] eq_refl ltac:(discriminate) eq_refl
                (or_introl eq_refl)) as H.
  cbv zeta in H. destruct H as (H1 & _ & _ & _ & H5).
  split; [exact H1|exact H5].
Defined.

(** C3 fails as stated: with the reset times 1700000001 and 1700000008 both
    pending at time 1700000000, the set is iterated as [[1700000008;
    1700000001]] and the client sleeps until 1700000008.1, which is not 0.1 s
    after the earliest pending reset time. *)
Lemma rate_limit_wait_is_not_for_the_earliest :
  let w := example_world [] [] 0 [1700000001; 1700000008] in
  pending_resets w = [1700000001; 1700000008]
  /\ set_iter quiet_env (pending_resets w) = [1700000008; 1700000001]
  /\ clock (snd (wait_for_rate_limit_reset quiet_env w))
     = 1700000008 * MICRO + MICRO / 10
  /\ clock (snd (wait_for_rate_limit_reset quiet_env w))
     <> 1700000001 * MICRO + MICRO / 10
  /\ issued (snd (get_response quiet_env 1 "https://api.twitch.tv/helix/users?id=A" w))
     = [(1700000008 * MICRO + MICRO / 10,
         "https://api.twitch.tv/helix/users?id=A"%string)].
Proof.
  cbv zeta. repeat split. discriminate.
Qed.

Section Retry.

Variable env : Env.



End Retry.

Section ReducedPrivilege.

(** The bot has a client id and no client secret, no credential is cached,
    and iterating a set that is not empty yields something. *)
Variable env : Env.
Variable cid : string.
Hypothesis no_secret : client_secret (api_tokens env) = None.
Hypothesis has_id : client_id (api_tokens env) = Some cid.
Hypothesis iter_nonempty : forall l, l <> [] -> set_iter env l <> [].






End ReducedPrivilege.






Lemma mem_In (x : string) (xs : list string) :
  mem x xs = true <-> In x xs.
Proof.
  unfold mem. rewrite existsb_exists. split.
  - intros (y & Hy & Heq). apply String.eqb_eq in Heq. now subst.
  - intros Hx. exists x. split; [exact Hx|apply String.eqb_refl].
Qed.

Section Followers.

Variable env : Env.

(** Identifiers that are recorded are passed over with no effect: the loop
    does what it would do had they not been fetched. *)
Lemma check_followers_loop_skips fuel followed total
      (recorded : list string) (follows : list TwitchFollower) :
  forall acct profile w,
    (forall x, In x recorded -> In x (followers acct)) ->
    check_followers_loop env fuel followed total follows acct profile w
    = check_followers_loop
        env fuel followed total
        (filter (fun f => negb (mem (from_id f) recorded)) follows)
        acct profile w.
Proof.
  induction follows as [|follow rest IH]; intros acct profile w Hsub;
    [reflexivity|].
  cbn [filter].
  destruct (mem (from_id follow) recorded) eqn:Hrec; cbn [negb].
  - cbn [check_followers_loop].
    assert (Hin : mem (from_id follow) (followers acct) = true)
      by (apply mem_In, Hsub, mem_In, Hrec).
    rewrite Hin. cbn [negb]. now apply IH.
  - cbn [check_followers_loop].
    destruct (negb (mem (from_id follow) (followers acct)));
      [|now apply IH].
    apply bind_ext. intros [p|] w1; [|reflexivity].
    apply bind_ext. intros _ w2.
    apply bind_ext. intros em w3.
    apply bind_ext. intros _ w4.
    apply bind_ext. intros check_accounts w5.
    destruct (list_remove acct check_accounts) as [others|]; [|reflexivity].
    apply bind_ext. intros _ w6.
    apply IH. cbn. intros x Hx. apply in_or_app. left. now apply Hsub.
Qed.

(** The embed goes once to every destination that resolves, when each of
    those permits embeds and accepts the message. *)
Lemma follow_embed_delivery em (destinations : list Z) :
  (forall c ch, In c destinations -> get_channel env c = Some ch ->
                embed_links ch = true /\ accepts ch = true) ->
  forall w,
    for_each destinations
      (fun channel_id =>
         match get_channel env channel_id with
         | None => ret tt
         | Some ch =>
             if embed_links ch
             then channel_send channel_id ch (SendEmbed em)
             else raise AttributeError
         end) w
    = (Ok tt,
       set_sent (sent w ++ map (fun c => (c, SendEmbed em))
                               (filter (resolves env) destinations)) w).
Proof.
  induction destinations as [|c rest IH]; intros Hok w.
  - cbn. rewrite app_nil_r. now destruct w.
  - cbn [for_each filter]. unfold bind at 1, resolves at 1.
    destruct (get_channel env c) as [ch|] eqn:Hc.
    + destruct (Hok c ch (or_introl eq_refl) Hc) as [He Ha].
      rewrite He. unfold channel_send. rewrite Ha. py_step.
      rewrite IH by (intros c' ch' Hin; apply Hok; now right).
      cbn. now rewrite <- app_assoc.
    + py_step. apply IH. intros c' ch' Hin. apply Hok. now right.
Qed.

End Followers.

Section FollowerCheck.

Variable env : Env.

Lemma get_profile_from_id_frame fuel twitch_id w r w' :
  get_profile_from_id env fuel twitch_id w = (r, w') ->
  sent w' = sent w /\ twitch_accounts w' = twitch_accounts w.
Proof.
  unfold get_profile_from_id, bind. intros Hrun.
  destruct (get_response env fuel _ w) as [rb wb] eqn:Hresp.
  destruct (get_response_trace _ _ _ _ Hresp) as (_ & _ & Hs & Ha & _).
  destruct rb as [b|e|]; [|inversion Hrun; subst; now split..].
  unfold TwitchProfile_from_json, ret, raise in Hrun.
  destruct b as [[|p ps]| | | |]; inversion Hrun; subst; now split.
Qed.

Lemma get_new_followers_frame fuel user_id w r w' :
  get_new_followers env fuel user_id w = (r, w') ->
  sent w' = sent w /\ twitch_accounts w' = twitch_accounts w.
Proof.
  unfold get_new_followers, bind. intros Hrun.
  destruct (get_response env fuel _ w) as [rb wb] eqn:Hresp.
  destruct (get_response_trace _ _ _ _ Hresp) as (_ & _ & Hs & Ha & _).
  destruct rb as [b|e|]; [|inversion Hrun; subst; now split..].
  unfold follows_from_json, ret, raise in Hrun.
  destruct b; inversion Hrun; subst; now split.
Qed.

End FollowerCheck.

(** C2, as the code has it.  A check passes over every fetched identifier
    that the account has recorded, with no effect at all: it does what it
    would do had those identifiers not been fetched, so a recorded follower
    is not notified again.  In particular, when the recorded list is
    [["u1"]], the followers are processed in the order "u1", "u2", the profile
    lookups succeed, and every registered destination that resolves to a
    channel permits embeds and accepts the message, then one notification,
    the embed [em] made for "u2", goes to each registered destination that
    resolves, none goes to the others, and the stored record of the account
    ends with the followers [["u1"; "u2"]]. *)
Theorem check_followers_notifies_new_followers_only
        (env : Env) (fuel : nat) (acct : account) :
  (forall followed total follows profile w,
      check_followers_loop env fuel followed total follows acct profile w
      = check_followers_loop
          env fuel followed total
          (filter (fun f => negb (mem (from_id f) (followers acct))) follows)
          acct profile w)
  /\ (forall w followed wa f1 f2 total wb p2 wc em others,
         followers acct = ["u1"%string] ->
         from_id f1 = "u1"%string ->
         from_id f2 = "u2"%string ->
         get_profile_from_id env fuel (account_id acct) w
         = (Ok followed, wa) ->
         get_new_followers env fuel (account_id acct) wa
         = (Ok ([f2; f1], total), wb) ->
         get_profile_from_id env fuel "u2" wb = (Ok p2, wc) ->
         make_follow_embed followed p2 total wc = (Ok em, wc) ->
         (forall c ch, In c (channels acct) -> get_channel env c = Some ch ->
                       embed_links ch = true /\ accepts ch = true) ->
         list_remove acct (twitch_accounts w) = Some others ->
         exists w',
           check_followers env fuel acct w = (Ok tt, w')
           /\ sent w'
              = sent w ++ map (fun c => (c, SendEmbed em))
                              (filter (resolves env) (channels acct))
           /\ twitch_accounts w'
              = others ++ [{| account_id := account_id acct;
                              followers := ["u1"; "u2"]%string;
                              channels := channels acct |}]).
Proof.
  split.
  - intros followed total follows profile w.
    apply check_followers_loop_skips. auto.
  - intros w followed wa f1 f2 total wb p2 wc em others
           Hrec Hf1 Hf2 Hfollowed Hfetch Hp2 Hem Hdest Hremove.
    destruct (get_profile_from_id_frame _ _ _ _ Hfollowed) as [Hs1 Ha1].
    destruct (get_new_followers_frame _ _ _ _ Hfetch) as [Hs2 Ha2].
    destruct (get_profile_from_id_frame _ _ _ _ Hp2) as [Hs3 Ha3].
    unfold make_follow_embed, bind, gets, ret in Hem.
    inversion Hem as [Hem']. clear Hem. subst em.
    unfold check_followers.
    rewrite (bind_Ok _ _ _ Hfollowed), (bind_Ok _ _ _ Hfetch).
    cbn [fst snd rev app check_followers_loop].
    rewrite Hrec, Hf1, Hf2. cbn [mem existsb String.eqb Ascii.eqb Bool.eqb
                                  orb negb].
    unfold try_except at 1, bind at 1, bind at 1. rewrite Hp2.
    unfold ret at 1. cbv beta iota.
    unfold bind at 1, log_add at 1, modify at 1.
    unfold bind at 1, make_follow_embed at 1, bind at 1, gets at 1, ret at 1.
    cbv beta iota. cbn [clock set_log].
    unfold bind at 1. rewrite follow_embed_delivery by exact Hdest.
    unfold bind at 1, gets at 1. cbn [twitch_accounts set_sent set_log].
    rewrite Ha3, Ha2, Ha1, Hremove.
    unfold bind at 1, modify at 1. cbv beta iota.
    eexists. split; [reflexivity|]. split.
    + cbn [sent set_sent set_log set_twitch_accounts].
      now rewrite Hs3, Hs2, Hs1.
    + reflexivity.
Qed.

Lemma check_followers_notifies_new_followers_only_witness :
  let acct := scenario_account [10; 11] in
  let w := example_world [acct] [] 40 [] in
  exists w',
    check_followers scenario_env 1 acct w = (Ok tt, w')
    /\ map fst (sent w') = [10]
    /\ twitch_accounts w'
       = [{| account_id := "A"; followers := ["u1"; "u2"]%string;
             channels := [10; 11] |}].
Proof.
  intros acct w.
  set (wa := snd (get_profile_from_id scenario_env 1 "A" w)).
  set (wb := snd (get_new_followers scenario_env 1 "A" wa)).
  set (wc := snd (get_profile_from_id scenario_env 1 "u2" wb)).
  assert (H1 : get_profile_from_id scenario_env 1 (account_id acct) w
               = (Ok (example_profile "A"), wa)) by reflexivity.
  assert (H2 : get_new_followers scenario_env 1 (account_id acct) wa
               = (Ok ([example_follow "u2"; example_follow "u1"], 2), wb))
    by reflexivity.
  assert (H3 : get_profile_from_id scenario_env 1 "u2" wb
               = (Ok (example_profile "u2"), wc)) by reflexivity.
  assert (Hdest : forall c ch,
             In c (channels acct) -> get_channel scenario_env c = Some ch ->
             embed_links ch = true /\ accepts ch = true).
  { intros c ch [<-|[<-|[]]] Hc; cbn in Hc; [|discriminate].
    inversion Hc. split; reflexivity. }
  destruct (proj2 (check_followers_notifies_new_followers_only
                     scenario_env 1 acct)
                  w (example_profile "A") wa
                  (example_follow "u1") (example_follow "u2") 2 wb
                  (example_profile "u2") wc _ []
                  eq_refl eq_refl eq_refl H1 H2 H3 eq_refl Hdest eq_refl)
    as (w' & Hrun & Hsent & Hacct).
  exists w'. split; [exact Hrun|]. split; [|exact Hacct].
  rewrite Hsent. reflexivity.
Defined.

(** C2 fails as stated.  With the destinations 10 and 11 registered and no
    channel behind 11, the check sends one notification to 10 and none to 11.
    With the destinations 10 and 12 registered and embeds not permitted in
    12, the check stops with [AttributeError] at 12 and the follower is not
    recorded. *)
Lemma check_followers_misses_destinations :
  (let acct := scenario_account [10; 11] in
   let w' := snd (check_followers scenario_env 1 acct
                                  (example_world [acct] [] 40 [])) in
   In 11 (channels acct)
   /\ map fst (sent w') = [10]
   /\ map followers (twitch_accounts w') = [["u1"; "u2"]%string])
  /\ (let acct := scenario_account [10; 12] in
      let run := check_followers scenario_env 1 acct
                                 (example_world [acct] [] 40 []) in
      fst run = Raise AttributeError
      /\ map fst (sent (snd run)) = [10]
      /\ map followers (twitch_accounts (snd run)) = [["u1"]%string]).
Proof.
  cbv zeta. split; (split; [|split]); try reflexivity.
  cbn. auto.
Qed.

(** An exception that leaves the check of a followed account leaves the
    polling loop with it, whatever the surroundings are. *)
Lemma polling_loop_propagates (env : Env) (cycles fuel : nat) (w : world)
      (acct : account) (rest : list account) (e : exn) (w' : world) :
  cog_registered env (clock w) = true ->
  twitch_accounts w = acct :: rest ->
  check_followers env fuel acct w = (Raise e, w') ->
  check_for_new_followers env (S cycles) fuel w = (Raise e, w').
Proof.
  intros Hreg Hacc Hrun.
  unfold check_for_new_followers. cbn [polling_loop].
  unfold bind at 1, gets at 1. rewrite Hreg.
  unfold bind at 1, gets at 1. rewrite Hacc.
  unfold bind at 1. cbn [for_each]. unfold bind at 1. now rewrite Hrun.
Qed.

(** A clip subject whose fetch fails is logged and passed over. *)
Lemma check_clips_skips_failed_fetch (env : Env) (fuel : nat) (w : world)
      (user_id : string) (cd : clip_data) (e : exn) (w1 : world) :
  twitch_clips w = [(user_id, cd)] ->
  get_new_clips env fuel user_id (Some (clock w + timedelta_days (-8))) w
  = (Raise e, w1) ->
  check_clips env fuel w
  = (Ok tt,
     set_log (Twitch.log w1
                ++ [LogError ("Error getting twitch clips " ++ user_id) e])
             w1).
Proof.
  intros Hclips Hrun.
  unfold check_clips, bind at 1, gets at 1. rewrite Hclips.
  cbn [for_each fst snd]. unfold bind at 1, bind at 1, try_except at 1.
  unfold bind at 1, gets at 1, bind at 1. rewrite Hrun.
  reflexivity.
Qed.

(** C1 at two inputs, with the cog registered throughout.  When Twitch cannot
    be reached, the profile lookup that opens the check of a followed account
    raises, nothing catches it, and the polling loop ends with that exception
    in its first round.  When a registered destination does not permit
    embeds, the check raises [AttributeError] and the loop ends the same way.
    The check of a clip subject does catch the failure of its fetch: on the
    same unreachable Twitch the loop goes on round after round. *)
Theorem polling_loop_ends_on_follower_error :
  (forall t, cog_registered offline_env t = true)
  /\ (forall cycles fuel,
         fst (check_for_new_followers
                offline_env (S cycles) (S fuel)
                (example_world [scenario_account [10]] [] 40 []))
         = Raise ClientError)
  /\ (forall cycles fuel,
         fst (check_for_new_followers
                scenario_env (S cycles) (S fuel)
                (example_world [scenario_account [12]] [] 40 []))
         = Raise AttributeError)
  /\ fst (check_for_new_followers
            offline_env 5 1
            (example_world []
               [("B"%string, {| cd_display_name := "B"; clips := [];
                                cd_channels := [10] |})] 40 []))
     = Diverge.
Proof.
  split; [reflexivity|]. split; [|split].
  - intros cycles fuel. reflexivity.
  - intros cycles fuel. reflexivity.
  - reflexivity.
Qed.

(* ================================================================== *)
(** * Further properties of the menus *)
(* ================================================================== *)

(** What [update] leaves behind is what the control's call leaves behind,
    up to the gate and the log. *)
Lemma update_state {Src Embed : Type} (buttons : list (Button Src Embed))
      (payload : control) (m : menu Src Embed) :
  let m' := snd (update buttons payload m) in
  m' = m
  \/ exists b m0 m1 l,
      find_button buttons payload = Some b
      /\ (m0 = m \/ m0 = with_lock true m)
      /\ m1 = snd (call_button b m0)
      /\ (m' = m1 \/ m' = with_lock false m1
          \/ m' = with_log l m1 \/ m' = with_log l (with_lock false m1)).
Proof.
  cbv zeta.
  destruct (find_button buttons payload) as [b|] eqn:Hb.
  2:{ left. unfold update. rewrite Hb. reflexivity. }
  rewrite (update_found _ _ m Hb).
  destruct (_running m) eqn:Hr; [|now left]. cbn [negb].
  unfold try_except. destruct (lock b).
  - destruct (_lock m) eqn:Hl.
    + left. unfold async_with_lock. now rewrite Hl.
    + rewrite (locked_call b m Hr Hl). right.
      exists b, (with_lock true m), (snd (call_button b (with_lock true m))).
      destruct (call_button b (with_lock true m)) as [[u|e|] m1]; cbn.
      * exists []. repeat split; auto.
      * eexists. repeat split; auto.
      * exists []. repeat split; auto.
  - right. exists b, m, (snd (call_button b m)).
    destruct (call_button b m) as [[u|e|] m1]; cbn.
    + exists []. repeat split; auto.
    + eexists. repeat split; auto.
    + exists []. repeat split; auto.
Qed.

(** X1.  The session gate is free again after every [update] that found it
    free, whatever the handler of an exclusive control did, raising
    included. *)
Theorem update_releases_the_gate
        {Src Embed : Type} (buttons : list (Button Src Embed))
        (payload : control) (m : menu Src Embed) :
  _lock m = false ->
  (forall b, find_button buttons payload = Some b -> lock b = true) ->
  _lock (snd (update buttons payload m)) = false.
Proof.
  intros Hl Hex.
  destruct (find_button buttons payload) as [b|] eqn:Hb.
  2:{ unfold update. rewrite Hb. exact Hl. }
  rewrite (update_found _ _ m Hb), (Hex b eq_refl).
  destruct (_running m) eqn:Hr; [|exact Hl]. cbn [negb].
  unfold try_except. rewrite (locked_call b m Hr Hl).
  destruct (call_button b (with_lock true m)) as [[u|e|] m1]; reflexivity.
Qed.

Lemma update_releases_the_gate_witness :
  _lock (snd (update (BaseMenu.buttons (PS := BrokenRoster)) RightTriangle
                     (session ["a"; "b"; "c"]%string 0 None))) = false.
Proof.
  apply update_releases_the_gate; [reflexivity|].
  intros b Hb. inversion Hb. reflexivity.
Defined.

(** X2.  The cross mark ends a running session of either class: the session
    stops running and its message is deleted, with what it showed left as it
    was.  No control activation changes anything after that. *)
Theorem stopped_session_is_inert
        {Src Page Embed Date : Type} {PS : PageSource Src Page Embed Date}
        (reply : option (string * option Date)) (m : menu Src Embed) :
  _running m = true ->
  _lock m = false ->
  let stopped :=
    with_msg {| content := content (msg m); embed := embed (msg m);
                deleted := true |} (with_running false m) in
  update BaseMenu.buttons CrossMark m = (Ok tt, stopped)
  /\ update (GamesMenu.buttons reply) CrossMark m = (Ok tt, stopped)
  /\ (forall payload,
         snd (update BaseMenu.buttons payload stopped) = stopped
         /\ snd (update (GamesMenu.buttons reply) payload stopped) = stopped).
Proof.
  intros Hr Hl stopped.
  assert (Hstop : forall b : Button Src Embed,
             lock b = true -> skip_if b = None ->
             action b = (stop ;;; message_delete) ->
             forall bs, find_button bs CrossMark = Some b ->
                        update bs CrossMark m = (Ok tt, stopped)).
  { intros b Hlock Hskip Hact bs Hb.
    rewrite (update_found _ _ m Hb), Hr, Hlock. cbn [negb].
    unfold try_except. rewrite (locked_call b m Hr Hl).
    unfold call_button, skipped. rewrite Hskip, Hact.
    subst stopped. destruct m as [src cur [c e d] run lk lg cx].
    cbn in Hl. subst lk. reflexivity. }
  split; [|split].
  - exact (Hstop {| emoji := CrossMark; lock := true; skip_if := None;
                    action := BaseMenu.stop_pages |}
                 eq_refl eq_refl eq_refl BaseMenu.buttons eq_refl).
  - exact (Hstop {| emoji := CrossMark; lock := true; skip_if := None;
                    action := GamesMenu.stop_pages |}
                 eq_refl eq_refl eq_refl (GamesMenu.buttons reply) eq_refl).
  - intros payload.
    assert (Hoff : forall bs : list (Button Src Embed),
               snd (update bs payload stopped) = stopped).
    { intros bs. unfold update.
      destruct (find_button bs payload); reflexivity. }
    split; apply Hoff.
Qed.

Lemma stopped_session_is_inert_witness :
  let m := session ["a"; "b"; "c"]%string 1 (Some "b"%string) in
  update (BaseMenu.buttons (PS := PlainPages)) CrossMark m
  = (Ok tt,
     {| _source := ["a"; "b"; "c"]%string; current_page := 1;
        msg := {| content := None; embed := Some "b"%string;
                  deleted := true |};
        _running := false; _lock := false; Menu.log := []; ctx := [] |}).
Proof.
  exact (proj1 (stopped_session_is_inert
                  (PS := PlainPages) None
                  (session ["a"; "b"; "c"]%string 1 (Some "b"%string))
                  eq_refl eq_refl)).
Defined.

Section ListSessions.

Context {Page Embed : Type}.
Variable paginating : bool.
Variable fmt : Z -> list Page -> Page -> outcome Embed.

Let PS : PageSource (list Page) Page Embed unit :=
  ListPageSource paginating fmt.

Lemma index_in_range (entries : list Page) (k : Z) :
  0 <= k -> (Py.index entries k <> None <-> k < Z.of_nat (List.length entries)).
Proof.
  intros Hk. unfold Py.index.
  replace (0 <=? k) with true by (symmetry; now apply Z.leb_le).
  rewrite nth_error_Some. lia.
Qed.

(** What the framework's [show_page] does on a list source. *)
Lemma list_show_page_cases (k : Z) (m : menu (list Page) Embed) :
  BaseMenu.show_page (PS := PS) k m =
  match Py.index (_source m) k with
  | None => (Raise IndexError, m)
  | Some page =>
      match fmt k (_source m) page with
      | Ok em =>
          (Ok tt,
           with_msg {| content := None; embed := Some em;
                       deleted := deleted (msg m) |} (with_current_page k m))
      | Raise e => (Raise e, with_current_page k m)
      | Diverge => (Diverge, with_current_page k m)
      end
  end.
Proof.
  unfold BaseMenu.show_page, bind at 1. rewrite on_source_run.
  cbn [get_page PS ListPageSource].
  destruct (Py.index (_source m) k) as [page|] eqn:Hidx; cbn [fst snd].
  2:{ now destruct m. }
  unfold bind at 1, modify at 1. unfold bind at 1.
  unfold _get_kwargs_from_page, bind at 1, gets at 1, bind at 1.
  rewrite on_source_run. cbn [format_page PS ListPageSource fst snd].
  destruct m as [src cur [c e d] run lk lg cx]. cbn.
  destruct (fmt k src page) as [em|e'|]; reflexivity.
Qed.

(** A list source is never changed, and the index moves to [k] only when
    the list has an entry at [k]. *)
Lemma list_show_page (k : Z) (m : menu (list Page) Embed) :
  let m' := snd (BaseMenu.show_page (PS := PS) k m) in
  _source m' = _source m
  /\ (current_page m' = current_page m
      \/ (current_page m' = k /\ Py.index (_source m) k <> None)).
Proof.
  cbv zeta. rewrite list_show_page_cases.
  destruct (Py.index (_source m) k) as [page|] eqn:Hidx.
  2:{ split; [reflexivity|now left]. }
  destruct (fmt k (_source m) page) as [em|e|]; cbn;
    (split; [reflexivity|]); right; (split; [reflexivity|discriminate]).
Qed.

(** On a list source the checked page is always one the wrap-around
    picks. *)
Lemma list_show_checked_page_cases (k : Z) (m : menu (list Page) Embed) :
  let n := Z.of_nat (List.length (_source m)) in
  BaseMenu.show_checked_page (PS := PS) k m
  = try_except
      (BaseMenu.show_page (PS := PS)
                          (if k >=? n then 0 else if k <? 0 then n - 1 else k))
      is_IndexError (fun _ => ret tt) m.
Proof.
  cbv zeta. unfold BaseMenu.show_checked_page, bind at 1, gets at 1.
  cbn [get_max_pages PS ListPageSource].
  set (n := Z.of_nat (List.length (_source m))).
  destruct (k >=? n) eqn:H1; [reflexivity|].
  destruct (k <? 0) eqn:H2; [reflexivity|].
  replace ((n >? k) && (k >=? 0))%bool with true; [reflexivity|].
  symmetry. apply andb_true_iff. split.
  - rewrite Z.gtb_ltb. apply Z.ltb_lt. rewrite Z.geb_leb in H1.
    apply Z.leb_gt in H1. lia.
  - rewrite Z.geb_leb. apply Z.leb_le. apply Z.ltb_ge in H2. lia.
Qed.

Lemma list_show_checked_page (k : Z) (m : menu (list Page) Embed) :
  let n := Z.of_nat (List.length (_source m)) in
  let m' := snd (BaseMenu.show_checked_page (PS := PS) k m) in
  0 <= current_page m < n ->
  _source m' = _source m /\ 0 <= current_page m' < n.
Proof.
  cbv zeta. intros Hcur. rewrite list_show_checked_page_cases.
  set (n := Z.of_nat (List.length (_source m))) in *.
  set (k' := if k >=? n then 0 else if k <? 0 then n - 1 else k).
  assert (Hk' : 0 <= k').
  { subst k'. destruct (k >=? n); [lia|].
    destruct (k <? 0) eqn:H2; [lia|]. apply Z.ltb_ge in H2. lia. }
  unfold try_except.
  pose proof (list_show_page k' m) as Hs. cbv zeta in Hs.
  destruct (BaseMenu.show_page k' m) as [[u|e|] m1]; cbn [snd] in *;
    try (destruct (is_IndexError e); cbn [snd ret]);
    (destruct Hs as [Hsrc [Hsame|[Hk Hin]]]; split; try assumption;
     [lia|apply index_in_range in Hin; [subst n; lia|assumption]]).
Qed.

Lemma BaseMenu_control_keeps_range (b : Button (list Page) Embed)
      (payload : control) (m : menu (list Page) Embed) :
  find_button (BaseMenu.buttons (PS := PS)) payload = Some b ->
  let n := Z.of_nat (List.length (_source m)) in
  let m' := snd (call_button b m) in
  0 <= current_page m < n ->
  _source m' = _source m /\ 0 <= current_page m' < n.
Proof.
  intros Hb n m' Hcur. subst m'.
  assert (Hpage : forall k, 0 <= k < n ->
             let m' := snd (BaseMenu.show_page (PS := PS) k m) in
             _source m' = _source m /\ 0 <= current_page m' < n).
  { intros k Hk. pose proof (list_show_page k m) as Hs. cbv zeta in *.
    destruct Hs as [Hsrc [Hsame|[Hk' _]]]; split; try assumption; lia. }
  destruct payload; cbn in Hb; inversion Hb; subst b; clear Hb;
    unfold call_button, skipped; cbn [skip_if action].
  - destruct (BaseMenu._skip_single_arrows m); [now split|].
    unfold BaseMenu.go_to_previous_page, bind at 1, gets at 1.
    now apply list_show_checked_page.
  - destruct (BaseMenu._skip_single_arrows m); [now split|].
    unfold BaseMenu.go_to_next_page, bind at 1, gets at 1.
    now apply list_show_checked_page.
  - destruct (BaseMenu._skip_double_triangle_buttons m); [now split|].
    apply Hpage. lia.
  - destruct (BaseMenu._skip_double_triangle_buttons m); [now split|].
    unfold BaseMenu.go_to_last_page, bind at 1, gets at 1.
    cbn [get_max_pages PS ListPageSource]. apply Hpage. subst n. lia.
  - unfold BaseMenu.stop_pages, stop, message_delete, bind, modify.
    cbn. now split.
Qed.

End ListSessions.

(** X3.  In a [BaseMenu] session on a list source (standings, leaderboard,
    roster), no control activation moves the index out of the list or
    changes the list: an index in [0, N) stays in [0, N) whatever control is
    activated and whether or not formatting the page fails. *)
Theorem BaseMenu_index_stays_in_range
        {Page Embed : Type} (paginating : bool)
        (fmt : Z -> list Page -> Page -> outcome Embed)
        (payload : control) (m : menu (list Page) Embed) :
  let n := Z.of_nat (List.length (_source m)) in
  let m' := snd (update (BaseMenu.buttons
                           (PS := ListPageSource paginating fmt)) payload m) in
  0 <= current_page m < n ->
  _source m' = _source m /\ 0 <= current_page m' < n.
Proof.
  intros n m' Hcur. subst m'.
  destruct (update_state
              (BaseMenu.buttons (PS := ListPageSource paginating fmt))
              payload m)
    as [Hsame|(b & m0 & m1 & l & Hb & Hm0 & Hm1 & Hm')].
  - rewrite Hsame. now split.
  - assert (H0 : _source m0 = _source m /\ current_page m0 = current_page m)
      by (destruct Hm0; subst m0; now split).
    destruct H0 as [Hs0 Hc0].
    pose proof (@BaseMenu_control_keeps_range _ _ paginating fmt b payload
                                              m0 Hb) as Hkeep.
    cbv zeta in Hkeep. rewrite Hs0, Hc0, <- Hm1 in Hkeep.
    specialize (Hkeep Hcur).
    destruct Hm' as [Hm'|[Hm'|[Hm'|Hm']]]; rewrite Hm'; exact Hkeep.
Qed.

Lemma BaseMenu_index_stays_in_range_witness :
  let m := session ["a"; "b"; "c"]%string 2 (Some "c"%string) in
  let m' := snd (update (BaseMenu.buttons (PS := BrokenRoster))
                        RightTriangle m) in
  _source m' = ["a"; "b"; "c"]%string /\ 0 <= current_page m' < 3.
Proof.
  apply (BaseMenu_index_stays_in_range
           true (fun _ _ _ => Raise (OtherError "format failed"))
           RightTriangle (session ["a"; "b"; "c"]%string 2 (Some "c"%string))).
  cbn. split; [discriminate|reflexivity].
Defined.

(** What the lookup of [update] finds among the controls of a session. *)
Lemma find_self_button {Src Embed : Type}
      (declared : list (Button Src Embed)) (seen : menu Src Embed)
      (e : control) :
  (forall b, find_button (self_buttons declared seen) e = Some b ->
             In b declared /\ emoji b = e /\ skipped b seen = false)
  /\ ((forall b, In b declared -> emoji b = e -> skipped b seen = true) ->
      find_button (self_buttons declared seen) e = None).
Proof.
  unfold self_buttons. induction declared as [|b0 rest [IH1 IH2]].
  - split; [discriminate|reflexivity].
  - cbn [filter]. split.
    + intros b Hb. destruct (skipped b0 seen) eqn:Hs0; cbn [negb] in Hb.
      * destruct (IH1 b Hb) as (Hin & He & Hs). split; [now right|now split].
      * cbn [find_button] in Hb.
        destruct (control_eqb (emoji b0) e) eqn:He0.
        -- inversion Hb; subst. split; [now left|]. split; [|exact Hs0].
           destruct (emoji b), e; (reflexivity || discriminate).
        -- destruct (IH1 b Hb) as (Hin & He & Hs).
           split; [now right|now split].
    + intros Hall. destruct (skipped b0 seen) eqn:Hs0; cbn [negb].
      * apply IH2. intros b Hin. apply Hall. now right.
      * cbn [find_button].
        destruct (control_eqb (emoji b0) e) eqn:He0.
        -- assert (He : emoji b0 = e)
             by (destruct (emoji b0), e; (reflexivity || discriminate)).
           rewrite (Hall b0 (or_introl eq_refl) He) in Hs0. discriminate.
        -- apply IH2. intros b Hin. apply Hall. now right.
Qed.

(** A reaction on a control that is not among the controls of the session
    is refused, and [update] for it fails at the lookup. *)
Lemma missing_control {Src Embed : Type}
      (controls : list (Button Src Embed)) (e : control) :
  find_button controls e = None ->
  (forall m, update controls e m = (Raise KeyError, m))
  /\ (forall displayed_id owner_ids _author_id mid who,
         reaction_check controls displayed_id owner_ids _author_id
                        {| message_id := mid; user_id := who;
                           payload_emoji := e |} = false).
Proof.
  intros Hnone. split.
  - intros m. unfold update, bind at 1. now rewrite Hnone.
  - intros displayed_id owner_ids _author_id mid who.
    unfold reaction_check. cbn [message_id user_id payload_emoji].
    rewrite Hnone.
    destruct (negb (mid =? displayed_id)); [reflexivity|].
    now destruct (negb _).
Qed.

(** X4.  In a [BaseMenu] session the arrows are not among the controls of
    the session when the source has one page or does not know how many it
    has, and the double triangles are not when it has at most two or does
    not know: [self.buttons] leaves out the controls whose [skip_if] holds.
    A reaction on such a control is refused by [reaction_check], whoever
    sends it, and [update], called for one all the same, raises [KeyError]
    at the lookup and leaves the session as it was.  So a session on a
    source without a page count cannot be navigated, and [go_to_last_page]
    never gets to subtract from a missing count. *)
Theorem BaseMenu_skipped_controls_are_inert
        {Src Page Embed Date : Type} {PS : PageSource Src Page Embed Date}
        (seen : menu Src Embed) (payload : control) :
  let controls := self_buttons BaseMenu.buttons seen in
  let refused :=
    (forall m, update controls payload m = (Raise KeyError, m))
    /\ (forall displayed_id owner_ids _author_id mid who,
           reaction_check controls displayed_id owner_ids _author_id
                          {| message_id := mid; user_id := who;
                             payload_emoji := payload |} = false) in
  ((payload = LeftTriangle \/ payload = RightTriangle) ->
   (get_max_pages (_source seen) = None
    \/ get_max_pages (_source seen) = Some 1) ->
   refused)
  /\ ((payload = LeftDoubleTriangle \/ payload = RightDoubleTriangle) ->
      (get_max_pages (_source seen) = None
       \/ exists n, get_max_pages (_source seen) = Some n /\ n <= 2) ->
      refused).
Proof.
  cbv zeta. split.
  - intros Hp Hmax. apply missing_control.
    assert (Hskip : BaseMenu._skip_single_arrows seen = true).
    { unfold BaseMenu._skip_single_arrows.
      destruct Hmax as [-> | ->]; reflexivity. }
    unfold self_buttons, BaseMenu.buttons, skipped.
    cbn [filter skip_if]. rewrite Hskip. cbn [negb].
    destruct (BaseMenu._skip_double_triangle_buttons seen);
      destruct Hp as [-> | ->]; reflexivity.
  - intros Hp Hmax. apply missing_control.
    assert (Hskip : BaseMenu._skip_double_triangle_buttons seen = true).
    { unfold BaseMenu._skip_double_triangle_buttons.
      destruct Hmax as [-> | (n & -> & Hn)]; [reflexivity|].
      now apply Z.leb_le. }
    unfold self_buttons, BaseMenu.buttons, skipped.
    cbn [filter skip_if]. rewrite Hskip. cbn [negb].
    destruct (BaseMenu._skip_single_arrows seen);
      destruct Hp as [-> | ->]; reflexivity.
Qed.

Lemma BaseMenu_skipped_controls_are_inert_witness :
  let m := session (Embed := string) ["only"]%string 0 (Some "only"%string) in
  update (self_buttons (BaseMenu.buttons (PS := PlainPages)) m)
         RightTriangle m
  = (Raise KeyError, m)
  /\ reaction_check (self_buttons (BaseMenu.buttons (PS := PlainPages)) m)
                    77 [1; 2] 5
                    {| message_id := 77; user_id := 5;
                       payload_emoji := RightTriangle |}
     = false
  /\ update (self_buttons (BaseMenu.buttons (PS := GameList false)) m)
            RightDoubleTriangle m
     = (Raise KeyError, m).
Proof.
  intros m. split; [|split].
  - exact (proj1 (proj1 (BaseMenu_skipped_controls_are_inert
                           (PS := PlainPages) m RightTriangle)
                        (or_intror eq_refl) (or_intror eq_refl)) m).
  - exact (proj2 (proj1 (BaseMenu_skipped_controls_are_inert
                           (PS := PlainPages) m RightTriangle)
                        (or_intror eq_refl) (or_intror eq_refl))
                 77 [1; 2] 5 77 5).
  - exact (proj1 (proj2 (BaseMenu_skipped_controls_are_inert
                           (PS := GameList false) m RightDoubleTriangle)
                        (or_intror eq_refl) (or_introl eq_refl)) m).
Defined.

(** X5.  What the calendar control does.  When the author does not answer
    in time, the prompt is sent and deleted and nothing else changes.  When
    the answer is not a date of the calendar, [ValueError] is raised with the
    prompt left in place.  When the source has no schedule for the date, the
    user is told so and the page shown and the index stay as they were, while
    the source keeps the new date.  Only when the source accepts the date is
    a page shown, and it is page 0. *)
Theorem choose_date_outcomes
        {Src Page Embed Date : Type} {PS : PageSource Src Page Embed Date}
        (m : menu Src Embed) :
  let prompt := CtxSend GamesMenu.date_prompt in
  GamesMenu.choose_date None m
  = (Ok tt,
     with_ctx (ctx m ++ [prompt; CtxDelete GamesMenu.date_prompt]) m)
  /\ (forall date_str,
         GamesMenu.choose_date (Some (date_str, None)) m
         = (Raise ValueError, with_ctx (ctx m ++ [prompt]) m))
  /\ (forall date_str date s1,
         prepare (set_date date (_source m)) = (Raise NoSchedule, s1) ->
         GamesMenu.choose_date (Some (date_str, Some date)) m
         = (Ok tt,
            with_ctx (ctx m ++ [prompt;
                                CtxSend (GamesMenu.sorry_text date_str)])
                     (with_source s1 m)))
  /\ (forall date_str date s1,
         prepare (set_date date (_source m)) = (Ok tt, s1) ->
         GamesMenu.choose_date (Some (date_str, Some date)) m
         = GamesMenu.show_page 0 false false
                               (with_ctx (ctx m ++ [prompt])
                                         (with_source s1 m))).
Proof.
  cbv zeta. destruct m as [src cur shown run lk lg cx].
  split; [|split; [|split]].
  - unfold GamesMenu.choose_date, bind, try_except, raise, ret, ctx_send,
      ctx_delete, modify. cbn. now rewrite <- app_assoc.
  - intros date_str. reflexivity.
  - intros date_str date s1 Hprep. cbn [_source] in Hprep.
    unfold GamesMenu.choose_date, bind at 1, ctx_send at 1, modify at 1.
    unfold bind at 1, try_except at 1, ret at 1. cbv beta iota.
    unfold bind at 1, ret at 1. cbv beta iota.
    unfold bind at 1, modify at 1. cbv beta iota.
    unfold bind at 1, try_except at 1, bind at 1. rewrite on_source_run.
    cbn [_source with_source with_ctx]. rewrite Hprep.
    cbn. now rewrite <- app_assoc.
  - intros date_str date s1 Hprep. cbn [_source] in Hprep.
    unfold GamesMenu.choose_date, bind at 1, ctx_send at 1, modify at 1.
    unfold bind at 1, try_except at 1, ret at 1. cbv beta iota.
    unfold bind at 1, ret at 1. cbv beta iota.
    unfold bind at 1, modify at 1. cbv beta iota.
    unfold bind at 1, try_except at 1, bind at 1. rewrite on_source_run.
    cbn [_source with_source with_ctx]. rewrite Hprep.
    reflexivity.
Qed.

Lemma choose_date_outcomes_witness :
  GamesMenu.choose_date (PS := NoGames) (Some ("2021-02-03"%string, Some tt))
                        (session tt 4 (Some "Game 5"%string))
  = (Ok tt,
     with_ctx [CtxSend GamesMenu.date_prompt;
               CtxSend (GamesMenu.sorry_text "2021-02-03")]
              (session tt 4 (Some "Game 5"%string)))
  /\ GamesMenu.choose_date (PS := GameList false)
                           (Some ("2021-02-03"%string, Some tt))
                           (session ["g1"; "g2"]%string 1 (Some "g2"%string))
     = (Ok tt,
        with_ctx [CtxSend GamesMenu.date_prompt]
                 (session ["g1"; "g2"]%string 0 (Some "g1"%string))).
Proof.
  split.
  - exact (proj1 (proj2 (proj2 (choose_date_outcomes
                                  (PS := NoGames)
                                  (session tt 4 (Some "Game 5"%string)))))
                 "2021-02-03"%string tt tt eq_refl).
  - exact (proj2 (proj2 (proj2 (choose_date_outcomes
                                  (PS := GameList false)
                                  (session ["g1"; "g2"]%string 1
                                           (Some "g2"%string)))))
                 "2021-02-03"%string tt ["g1"; "g2"]%string eq_refl).
Defined.

(** X6.  A reaction that [reaction_check] lets through is on the session's
    own message, comes from the author or from an owner of the bot, and names
    a control of the session: one that the class declares and whose [skip_if]
    does not hold.  [update] finds that control, so it does not raise for the
    reaction, whatever the handler does.  A reaction from anybody else is
    refused, and so is a reaction, also from the author, on a control that
    the session has left out because its [skip_if] holds. *)
Theorem reaction_check_admits
        {Src Embed : Type} (declared : list (Button Src Embed))
        (seen : menu Src Embed)
        (displayed_id : Z) (owner_ids : list Z) (_author_id : Z)
        (payload : RawReactionActionEvent) :
  let controls := self_buttons declared seen in
  (reaction_check controls displayed_id owner_ids _author_id payload = true ->
   message_id payload = displayed_id
   /\ (In (user_id payload) owner_ids \/ user_id payload = _author_id)
   /\ (exists b, In b declared /\ emoji b = payload_emoji payload
                 /\ skipped b seen = false)
   /\ forall m e,
       fst (update controls (payload_emoji payload) m) <> Raise e)
  /\ (~ In (user_id payload) owner_ids ->
      user_id payload <> _author_id ->
      reaction_check controls displayed_id owner_ids _author_id payload
      = false)
  /\ ((forall b, In b declared -> emoji b = payload_emoji payload ->
                 skipped b seen = true) ->
      reaction_check controls displayed_id owner_ids _author_id payload
      = false).
Proof.
  cbv zeta. unfold reaction_check. split; [|split].
  - destruct (message_id payload =? displayed_id) eqn:Hmsg; cbn [negb];
      [|discriminate].
    destruct (existsb (Z.eqb (user_id payload)) (owner_ids ++ [_author_id]))
      eqn:Hwho; cbn [negb]; [|discriminate].
    destruct (find_button (self_buttons declared seen)
                          (payload_emoji payload)) as [b|] eqn:Hb;
      [|discriminate].
    intros _. split; [now apply Z.eqb_eq|]. split; [|split].
    + apply existsb_exists in Hwho. destruct Hwho as (x & Hin & Heq).
      apply Z.eqb_eq in Heq. subst x. apply in_app_or in Hin.
      destruct Hin as [Hin|[Hin|[]]]; [now left|now right].
    + exists b. exact (proj1 (find_self_button declared seen _) b Hb).
    + intros m e. rewrite (update_found _ _ m Hb).
      destruct (_running m) eqn:Hr; cbn [negb]; [|discriminate].
      unfold try_except. destruct (lock b).
      * destruct (_lock m) eqn:Hl.
        -- unfold async_with_lock. rewrite Hl. discriminate.
        -- rewrite (locked_call b m Hr Hl).
           destruct (call_button b (with_lock true m)) as [[u|e'|] m1];
             discriminate.
      * destruct (call_button b m) as [[u|e'|] m1]; discriminate.
  - intros Hown Hauth.
    destruct (message_id payload =? displayed_id); cbn [negb]; [|reflexivity].
    destruct (existsb (Z.eqb (user_id payload)) (owner_ids ++ [_author_id]))
      eqn:Hwho; cbn [negb]; [|reflexivity].
    exfalso. apply existsb_exists in Hwho. destruct Hwho as (x & Hin & Heq).
    apply Z.eqb_eq in Heq. subst x. apply in_app_or in Hin.
    destruct Hin as [Hin|[Hin|[]]]; [now apply Hown|now apply Hauth].
  - intros Hskipped.
    rewrite (proj2 (find_self_button declared seen _) Hskipped).
    destruct (negb (message_id payload =? displayed_id)); [reflexivity|].
    now destruct (negb _).
Qed.

Lemma reaction_check_admits_witness :
  let m := session (Embed := string) ["only"]%string 0 (Some "only"%string) in
  let controls := self_buttons (BaseMenu.buttons (PS := PlainPages)) m in
  (forall m' e, fst (update controls CrossMark m') <> Raise e)
  /\ reaction_check controls 77 [1; 2] 5
                    {| message_id := 77; user_id := 9;
                       payload_emoji := CrossMark |}
     = false
  /\ reaction_check controls 77 [1; 2] 5
                    {| message_id := 77; user_id := 5;
                       payload_emoji := RightTriangle |}
     = false.
Proof.
  intros m controls. split; [|split].
  - exact (proj2 (proj2 (proj2 (proj1 (reaction_check_admits
                                         (BaseMenu.buttons (PS := PlainPages))
                                         m 77 [1; 2] 5
                                         {| message_id := 77; user_id := 5;
                                            payload_emoji := CrossMark |})
                                      eq_refl)))).
  - apply (proj1 (proj2 (reaction_check_admits
                           (BaseMenu.buttons (PS := PlainPages)) m
                           77 [1; 2] 5
                           {| message_id := 77; user_id := 9;
                              payload_emoji := CrossMark |}))).
    + cbn. intros [H|[H|[]]]; discriminate.
    + cbn. discriminate.
  - apply (proj2 (proj2 (reaction_check_admits
                           (BaseMenu.buttons (PS := PlainPages)) m
                           77 [1; 2] 5
                           {| message_id := 77; user_id := 5;
                              payload_emoji := RightTriangle |}))).
    cbn [payload_emoji]. intros b [<-|[<-|[<-|[<-|[<-|[]]]]]] He;
      cbn in He; try discriminate; reflexivity.
Defined.

(** X7.  How a [GamesMenu] session starts when the source cannot serve page
    0.  An [IndexError] is turned into a text that says no schedule could be
    found, naming the teams when there are any.  The "no schedule" signal is
    not caught here as it is in [show_page]: it leaves the call, and no
    message is sent.  The index is not touched either way. *)
Theorem GamesMenu_send_initial_message_without_page
        {Src Page Embed Date : Type} {PS : PageSource Src Page Embed Date}
        (humanize_list : list string -> string) (team : list string)
        (_last_searched : string) (m : menu Src Embed) (s1 : Src) :
  (get_page 0 None (_source m) = (Raise IndexError, s1) ->
   GamesMenu.send_initial_message humanize_list team _last_searched m
   = (Ok (Some (match team with
                | [] => "No schedule could be found in date ranges "
                          ++ _last_searched
                | _ => "No schedule could be found for "
                         ++ humanize_list team ++ " in date ranges "
                         ++ _last_searched ++ "."
                end)%string, None),
      with_source s1 m))
  /\ (get_page 0 None (_source m) = (Raise NoSchedule, s1) ->
      GamesMenu.send_initial_message humanize_list team _last_searched m
      = (Raise NoSchedule, with_source s1 m)).
Proof.
  split; intros Hget;
    unfold GamesMenu.send_initial_message, bind at 1, try_except at 1,
      bind at 1; rewrite on_source_run, Hget; cbn [fst snd is_IndexError
                                                   is_NoSchedule].
  - unfold ret at 1. cbv beta iota. now destruct team.
  - reflexivity.
Qed.

Lemma GamesMenu_send_initial_message_without_page_witness :
  GamesMenu.send_initial_message
    (PS := GameList false) (String.concat ", ") ["Bruins"]%string
    "2021-02-03 to 2021-02-10" (session [] 0 None)
  = (Ok (Some "No schedule could be found for Bruins in date ranges 2021-02-03 to 2021-02-10."%string,
         None), session [] 0 None)
  /\ fst (GamesMenu.send_initial_message
            (PS := NoGames) (String.concat ", ") ["Bruins"]%string
            "2021-02-03 to 2021-02-10" (session tt 0 None))
     = Raise NoSchedule.
Proof.
  split.
  - exact (proj1 (GamesMenu_send_initial_message_without_page
                    (PS := GameList false) (String.concat ", ")
                    ["Bruins"]%string "2021-02-03 to 2021-02-10"
                    (session [] 0 None) [])
                 eq_refl).
  - exact (f_equal fst
             (proj2 (GamesMenu_send_initial_message_without_page
                       (PS := NoGames) (String.concat ", ")
                       ["Bruins"]%string "2021-02-03 to 2021-02-10"
                       (session tt 0 None) tt)
                    eq_refl)).
Defined.

(** X8.  The footer of a leaderboard page counts pages from 1 and reads the
    session's index.  [show_page] sets the index before the page is
    formatted, so the footer of a page shown by navigation names that page.
    [send_initial_message] does not set the index, so the footer of the
    first message names the page of the index the session starts with,
    whichever page [page_start] asked for. *)
Theorem leaderboard_footer_follows_the_index
        (style guild_name guild_icon_url : string) (utcnow : Z)
        (k : Z) (page : list string)
        (m : menu (list (list string)) Leaderboard.Embed) :
  Py.index (_source m) k = Some page ->
  let PS := Leaderboard.LeaderboardPages style guild_name guild_icon_url
                                         utcnow in
  let pages := Twitch.str (Z.of_nat (List.length (_source m))) in
  (exists em,
      BaseMenu.show_page (PS := PS) k m
      = (Ok tt,
         with_msg {| content := None; embed := Some em;
                     deleted := deleted (msg m) |} (with_current_page k m))
      /\ Leaderboard.footer_text em
         = ("Page " ++ Twitch.str (k + 1) ++ "/" ++ pages)%string
      /\ Leaderboard.description em = fold_left String.append page ""%string)
  /\ (exists em,
         BaseMenu.send_initial_message (PS := PS) k m
         = (Ok (None, Some em), m)
         /\ Leaderboard.footer_text em
            = ("Page " ++ Twitch.str (current_page m + 1) ++ "/" ++ pages)%string
         /\ Leaderboard.description em
            = fold_left String.append page ""%string).
Proof.
  intros Hidx PS pages. split.
  - eexists. split.
    { subst PS. unfold Leaderboard.LeaderboardPages.
      rewrite list_show_page_cases, Hidx. reflexivity. }
    split; reflexivity.
  - destruct m as [src cur shown run lk lg cx]. cbn [_source] in Hidx.
    eexists. split.
    { unfold BaseMenu.send_initial_message, bind at 1.
      rewrite on_source_run. cbn [get_page PS Leaderboard.LeaderboardPages
                                  ListPageSource _source].
      rewrite Hidx. cbn [fst snd].
      unfold _get_kwargs_from_page, bind at 1, gets at 1, bind at 1.
      rewrite on_source_run. cbn [format_page PS Leaderboard.LeaderboardPages
                                  ListPageSource fst snd].
      unfold Leaderboard.format_page. cbn [fst snd ret]. reflexivity. }
    split; reflexivity.
Qed.

Lemma leaderboard_footer_follows_the_index_witness :
  let PS := Leaderboard.LeaderboardPages "Weekly" "Guild" "icon.png" 0 in
  let m := session (Embed := Leaderboard.Embed)
                   [["a"]; ["b"; "c"]; ["d"]]%string 0 None in
  exists em,
    BaseMenu.send_initial_message (PS := PS) 2 m = (Ok (None, Some em), m)
    /\ Leaderboard.footer_text em = "Page 1/3"%string.
Proof.
  intros PS m.
  destruct (proj2 (@leaderboard_footer_follows_the_index
                     "Weekly" "Guild" "icon.png" 0 2 ["d"%string] m eq_refl))
    as (em & Hrun & Hfoot & _).
  exists em. split; [exact Hrun|exact Hfoot].
Defined.

(* ================================================================== *)
(** * Further properties of the Twitch client *)
(* ================================================================== *)

Section Credential.

Variable env : Env.

(** With no credential cached the check does not call itself. *)
Lemma oauth_check_on_empty fuel w :
  access_token_cfg w = EmptyDict ->
  oauth_check env (S fuel) w = oauth_check env 1 w
  /\ fst (oauth_check env 1 w) <> Diverge
  /\ validate_calls (snd (oauth_check env 1 w)) = validate_calls w
  /\ (token_calls w <= token_calls (snd (oauth_check env 1 w))
      <= S (token_calls w))%nat.
Proof.
  intros Htok. cbn [oauth_check]. py_step.
  destruct (client_secret (api_tokens env));
    [|cbn; repeat split; (discriminate || lia)].
  destruct (client_id (api_tokens env));
    [|cbn; repeat split; (discriminate || lia)].
  rewrite Htok.
  destruct (token_endpoint env (token_calls w)) as [resp|e];
    [destruct (payload resp)|]; cbn;
    repeat split; (discriminate || lia).
Qed.

(** One level of the check depends on the level below only through what it
    does once the credential has been cleared. *)
Lemma oauth_check_level f g w :
  (forall w0, access_token_cfg w0 = EmptyDict ->
              oauth_check env f w0 = oauth_check env g w0) ->
  oauth_check env (S f) w = oauth_check env (S g) w.
Proof.
  intros Hin. cbn [oauth_check]. py_step.
  destruct (client_secret (api_tokens env)); [|reflexivity].
  destruct (client_id (api_tokens env)); [|reflexivity].
  destruct (access_token_cfg w); [reflexivity| |].
  - now apply Hin.
  - destruct (validate_endpoint env (validate_calls w) _) as [resp|e];
      [|reflexivity].
    destruct (status resp =? 200); [reflexivity|]. now apply Hin.
Qed.

Lemma oauth_check_level_bounds g w :
  (forall w0, access_token_cfg w0 = EmptyDict ->
              fst (oauth_check env g w0) <> Diverge
              /\ validate_calls (snd (oauth_check env g w0))
                 = validate_calls w0
              /\ (token_calls w0 <= token_calls (snd (oauth_check env g w0))
                  <= S (token_calls w0))%nat) ->
  let w' := snd (oauth_check env (S g) w) in
  fst (oauth_check env (S g) w) <> Diverge
  /\ (token_calls w <= token_calls w' <= S (token_calls w))%nat
  /\ (validate_calls w <= validate_calls w' <= S (validate_calls w))%nat.
Proof.
  intros Hin. cbv zeta. cbn [oauth_check]. py_step.
  destruct (client_secret (api_tokens env));
    [|cbn; repeat split; (discriminate || lia)].
  destruct (client_id (api_tokens env));
    [|cbn; repeat split; (discriminate || lia)].
  destruct (access_token_cfg w) eqn:Htok.
  - destruct (token_endpoint env (token_calls w)) as [resp|e];
      [destruct (payload resp)|]; cbn;
      repeat split; (discriminate || lia).
  - destruct (Hin (set_access_token_cfg EmptyDict w) eq_refl)
      as (Hd & Hv & Ht).
    cbn in Hv, Ht. split; [exact Hd|]. split; lia.
  - destruct (validate_endpoint env (validate_calls w) _) as [resp|e];
      [|cbn; repeat split; (discriminate || lia)].
    destruct (status resp =? 200);
      [cbn; repeat split; (discriminate || lia)|].
    destruct (Hin (set_access_token_cfg EmptyDict
                     (set_validate_calls (S (validate_calls w)) w)) eq_refl)
      as (Hd & Hv & Ht).
    cbn in Hv, Ht. split; [exact Hd|]. split; lia.
Qed.

End Credential.

(** X9.  The credential check calls itself at most once: after it has
    cleared a credential that is malformed or that the identity service
    rejects, it acquires a new one and returns.  So two levels of recursion
    are all it ever uses, it always comes back, and one call makes at most
    one validation request and at most one token request. *)
Theorem oauth_check_recurses_at_most_once (env : Env) (fuel : nat)
        (w : world) :
  let w' := snd (oauth_check env 2 w) in
  oauth_check env (S (S fuel)) w = oauth_check env 2 w
  /\ fst (oauth_check env 2 w) <> Diverge
  /\ (token_calls w <= token_calls w' <= S (token_calls w))%nat
  /\ (validate_calls w <= validate_calls w' <= S (validate_calls w))%nat.
Proof.
  cbv zeta. split.
  - apply oauth_check_level. intros w0 H0.
    apply (oauth_check_on_empty env fuel w0 H0).
  - apply (oauth_check_level_bounds env 1 w). intros w0 H0.
    apply (oauth_check_on_empty env 0 w0 H0).
Qed.

(** A call whose headers cannot be built ends there. *)
Lemma get_response_without_header (env : Env) fuel url w w1 e :
  oauth_check env (S fuel) w = (Ok tt, w1) ->
  get_header env w1 = (Raise e, w1) ->
  get_response env (S fuel) url w = (Raise e, w1).
Proof.
  intros Hoa Hh. cbn [get_response]. unfold bind at 1. rewrite Hoa.
  unfold bind at 1. now rewrite Hh.
Qed.

Lemma oauth_check_clears_malformed (env : Env) (secret cid : string) g w :
  client_secret (api_tokens env) = Some secret ->
  client_id (api_tokens env) = Some cid ->
  access_token_cfg w = NoTokenDict ->
  oauth_check env (S g) w
  = oauth_check env g (set_access_token_cfg EmptyDict w).
Proof.
  intros Hsec Hid Hcfg. cbn [oauth_check]. py_step.
  now rewrite Hsec, Hid, Hcfg.
Qed.

(** X10.  When the token endpoint answers with JSON that holds no access
    token (an error body), the answer is cached as the credential all the
    same.  Every call of [get_response] then asks for a token once more,
    fails with [KeyError] while it builds the headers, and never gets to ask
    Twitch for anything. *)
Theorem get_response_with_rejected_secret
        (env : Env) (secret cid : string) (rejection : response)
        (fuel : nat) (url : string) (w : world) :
  client_secret (api_tokens env) = Some secret ->
  client_id (api_tokens env) = Some cid ->
  (forall n, token_endpoint env n = Responds rejection) ->
  payload rejection <> NotJson ->
  token_dict_of_body (payload rejection) = NoTokenDict ->
  access_token_cfg w = EmptyDict \/ access_token_cfg w = NoTokenDict ->
  let w' := snd (get_response env (S (S fuel)) url w) in
  fst (get_response env (S (S fuel)) url w) = Raise KeyError
  /\ access_token_cfg w' = NoTokenDict
  /\ token_calls w' = S (token_calls w)
  /\ api_calls w' = api_calls w
  /\ issued w' = issued w.
Proof.
  intros Hsec Hid Htoken Hjson Hnotoken Hcfg. cbv zeta.
  assert (Hacquire : forall f w0,
             access_token_cfg w0 = EmptyDict ->
             oauth_check env (S f) w0
             = (Ok tt, set_access_token_cfg NoTokenDict
                         (set_token_calls (S (token_calls w0)) w0))).
  { intros f w0 H0. cbn [oauth_check]. py_step. rewrite Hsec, Hid, H0.
    rewrite Htoken. rewrite <- Hnotoken.
    destruct (payload rejection); try reflexivity. now destruct Hjson. }
  set (w1 := set_access_token_cfg NoTokenDict
               (set_token_calls (S (token_calls w)) w)).
  assert (Hcheck : oauth_check env (S (S fuel)) w = (Ok tt, w1)).
  { destruct Hcfg as [Hcfg|Hcfg]; [now apply Hacquire|].
    rewrite (oauth_check_clears_malformed env _ w Hsec Hid Hcfg).
    rewrite (Hacquire fuel (set_access_token_cfg EmptyDict w) eq_refl). subst w1.
    destruct w. cbn in *. subst. reflexivity. }
  assert (Hheader : get_header env w1 = (Raise KeyError, w1)).
  { unfold get_header. py_step. now rewrite Hid. }
  rewrite (get_response_without_header env (S fuel) url w Hcheck Hheader).
  repeat split.
Qed.

Lemma get_response_with_rejected_secret_witness :
  let w := example_world [] [] 40 [] in
  let run := get_response refused_env 2 (BASE_URL ++ "/users?id=A") w in
  fst run = Raise KeyError
  /\ access_token_cfg (snd run) = NoTokenDict
  /\ api_calls (snd run) = 0%nat.
Proof.
  cbv zeta.
  assert (Hjson : Token None <> NotJson) by discriminate.
  destruct (@get_response_with_rejected_secret
              refused_env "wrong" "client"
              {| status := 400; Ratelimit_Remaining := Absent;
                 Ratelimit_Reset := Absent; payload := Token None |}
              0 (BASE_URL ++ "/users?id=A") (example_world [] [] 40 [])
              eq_refl eq_refl (fun _ => eq_refl) Hjson eq_refl
              (or_introl eq_refl))
    as (Hout & Hcfg & _ & Hapi & _).
  split; [exact Hout|]. split; [exact Hcfg|exact Hapi].
Defined.

Section Lookups.

Variable env : Env.

(** A lookup is a call of [get_response] for one URL followed by a decoding
    step that sends nothing and stores nothing. *)
Lemma lookup_trace {A} fuel url (k : body -> M world A) w :
  (forall b w0,
      clock (snd (k b w0)) = clock w0
      /\ issued (snd (k b w0)) = issued w0
      /\ sent (snd (k b w0)) = sent w0
      /\ twitch_accounts (snd (k b w0)) = twitch_accounts w0
      /\ twitch_clips (snd (k b w0)) = twitch_clips w0) ->
  response_trace url w (snd ((data <- get_response env fuel url ;; k data) w)).
Proof.
  intros Hk. unfold bind.
  destruct (get_response env fuel url w) as [r w'] eqn:Hrun.
  pose proof (get_response_trace _ _ _ _ Hrun) as Ht.
  destruct r as [b|e|]; [|exact Ht..].
  destruct (Hk b w') as (Hc & Hi & Hs & Ha & Hcl).
  destruct Ht as ((times & Hi' & Hf) & Hc' & Hs' & Ha' & Hcl').
  split; [exists times; split; [congruence|exact Hf]|].
  repeat split; (lia || congruence).
Qed.

End Lookups.

(** X11.  Every lookup of the client (a profile by name or by id, the
    followers in either form, the clips) asks Twitch for its own URL and for
    nothing else, never before the time of the call; whatever the outcome, it
    sends nothing to any channel, leaves the stored accounts and clip
    subjects as they are, and never sets the clock back. *)
Theorem lookups_ask_for_one_url (env : Env) (fuel : nat) (key : string)
        (w : world) :
  response_trace (BASE_URL ++ "/users?login=" ++ key) w
                 (snd (get_profile_from_name env fuel key w))
  /\ response_trace (BASE_URL ++ "/users?id=" ++ key) w
                    (snd (get_profile_from_id env fuel key w))
  /\ response_trace (BASE_URL ++ "/users/follows?to_id=" ++ key
                               ++ "&first=100") w
                    (snd (get_new_followers env fuel key w))
  /\ response_trace (BASE_URL ++ "/users/follows?to_id=" ++ key
                               ++ "&first=100") w
                    (snd (get_all_followers env fuel key w))
  /\ (forall started_at,
         response_trace (get_new_clips_url key started_at (clock w)) w
                        (snd (get_new_clips env fuel key started_at w))).
Proof.
  split; [|split; [|split; [|split]]].
  - unfold get_profile_from_name. cbv zeta. apply lookup_trace.
    intros b w0. unfold TwitchProfile_from_json, ret, raise.
    destruct b as [[|p ps]| | | |]; repeat split.
  - unfold get_profile_from_id. cbv zeta. apply lookup_trace.
    intros b w0. unfold TwitchProfile_from_json, ret, raise.
    destruct b as [[|p ps]| | | |]; repeat split.
  - unfold get_new_followers. cbv zeta. apply lookup_trace.
    intros b w0. unfold follows_from_json, ret, raise.
    destruct b; repeat split.
  - unfold get_all_followers. cbv zeta. apply lookup_trace.
    intros b w0. unfold follows_from_json. py_step.
    destruct b; repeat split.
  - intros started_at. unfold get_new_clips, bind at 1, gets at 1.
    apply lookup_trace.
    intros b w0. unfold clips_from_json, ret, raise.
    destruct b; repeat split.
Qed.

Lemma substring_length (n : nat) (s : string) :
  String.length (substring 0 n s) = Nat.min n (String.length s).
Proof.
  revert s. induction n as [|n IH]; intros [|c s]; cbn; try reflexivity.
  now rewrite IH.
Qed.

Lemma substring_is_prefix (n : nat) (s : string) :
  exists rest, s = (substring 0 n s ++ rest)%string.
Proof.
  revert s. induction n as [|n IH]; intros [|c s]; cbn.
  - now exists ""%string.
  - now exists (String c s).
  - now exists ""%string.
  - destruct (IH s) as [rest Hrest]. exists rest. now rewrite <- Hrest.
Qed.

(** X12.  The notification made for a new follower always fits the 2048
    characters that an embed description may hold: the description is the
    follower's own description, a blank line and the link to the follower's
    channel, cut after 2048 characters when it is longer (so the link is what
    is lost first).  Making the embed changes nothing, and the embed is
    stamped with the time of the call. *)
Theorem make_follow_embed_description_fits
        (acct profile : TwitchProfile) (total : Z) (w : world) :
  let text := (description profile ++ NEWLINE ++ NEWLINE
                 ++ "https://twitch.tv/" ++ login profile)%string in
  exists em,
    make_follow_embed acct profile total w = (Ok em, w)
    /\ String.length (em_description em)
       = Nat.min 2048 (String.length text)
    /\ (exists rest, text = (em_description em ++ rest)%string)
    /\ timestamp em = clock w.
Proof.
  cbv zeta. unfold make_follow_embed. py_step.
  eexists. split; [reflexivity|]. cbn [em_description timestamp].
  split; [apply substring_length|]. split; [apply substring_is_prefix|].
  reflexivity.
Qed.

Lemma check_account_added_from_spec (r : option account)
      (l : list account) (p : TwitchProfile) :
  check_account_added_from r l p
  = match find (fun a => String.eqb (account_id a) (id p)) (rev l) with
    | Some a => Some a
    | None => r
    end.
Proof.
  revert r. induction l as [|a l IH]; intros r; [reflexivity|].
  cbn [check_account_added_from rev]. rewrite IH.
  set (f := fun a0 => String.eqb (account_id a0) (id p)).
  assert (Happ : forall xs ys,
             find f (xs ++ ys)
             = match find f xs with Some x => Some x | None => find f ys end).
  { induction xs as [|x xs IHxs]; intros ys; [reflexivity|].
    cbn. destruct (f x); [reflexivity|apply IHxs]. }
  rewrite Happ. destruct (find f (rev l)); [reflexivity|].
  cbn. fold (f a). destruct (f a); reflexivity.
Qed.

(** X14.  [check_account_added] goes through the whole list and keeps the
    last account whose id is the id of the profile: it returns the first
    match of the reversed list.  It returns nothing exactly when no account
    of the list has that id, and what it returns is an account of the list
    with that id. *)
Theorem check_account_added_returns_the_last_match
        (account_list : list account) (profile : TwitchProfile) :
  check_account_added account_list profile
  = find (fun a => String.eqb (account_id a) (id profile))
         (rev account_list)
  /\ (check_account_added account_list profile = None
      <-> forall a, In a account_list -> account_id a <> id profile)
  /\ (forall a, check_account_added account_list profile = Some a ->
                In a account_list /\ account_id a = id profile).
Proof.
  assert (Heq : check_account_added account_list profile
                = find (fun a => String.eqb (account_id a) (id profile))
                       (rev account_list)).
  { unfold check_account_added. rewrite check_account_added_from_spec.
    now destruct (find _ _). }
  split; [exact Heq|]. rewrite Heq. split.
  - split.
    + intros Hnone a Hin Hid.
      apply in_rev in Hin. pose proof (find_none _ _ Hnone a Hin) as Hno.
      cbv beta in Hno. rewrite Hid, String.eqb_refl in Hno. discriminate.
    + intros Hall.
      destruct (find _ (rev account_list)) as [a|] eqn:Hf; [|reflexivity].
      apply find_some in Hf. destruct Hf as [Hin Hid].
      apply String.eqb_eq in Hid. apply in_rev in Hin.
      now destruct (Hall a Hin).
  - intros a Hf. apply find_some in Hf. destruct Hf as [Hin Hid].
    apply String.eqb_eq in Hid. apply in_rev in Hin. now split.
Qed.

(** Every send that [gather] is given is attempted; the failure reported is
    the first one. *)
Lemma gather_spec (what : outgoing) (tasks : list (Z * channel)) :
  forall failed w,
    gather tasks what failed w
    = (match failed with
       | Some e => Raise e
       | None =>
           if forallb (fun t => accepts (snd t)) tasks then Ok tt
           else Raise (OtherError "discord.HTTPException")
       end,
       set_sent (sent w ++ map (fun t => (fst t, what))
                               (filter (fun t => accepts (snd t)) tasks))
                w).
Proof.
  induction tasks as [|[i ch] rest IH]; intros failed w.
  - cbn. rewrite app_nil_r.
    destruct failed; destruct w; reflexivity.
  - cbn [gather forallb filter snd fst]. unfold channel_send.
    destruct (accepts ch); py_step; rewrite IH; cbn [andb map fst].
    + cbn [sent set_sent]. rewrite <- app_assoc.
      destruct failed; destruct w; reflexivity.
    + destruct failed; reflexivity.
Qed.

(** X15.  An announcement of a clip goes once, in the order of the list, to
    every registered destination that resolves to a channel where the bot may
    write and that accepts the message, also when another destination rejects
    it: every send is attempted.  The call fails, with the error of the
    rejected send, exactly when some destination where the bot may write
    rejects the message; a destination that does not resolve or where the bot
    may not write is passed over.  Nothing but the channels is touched. *)
Theorem send_clips_update_reaches_every_open_channel
        (env : Env) (c : clip) (cd : clip_data) (w : world) :
  let what := SendText (cd_display_name cd ++ " has a new clip! "
                          ++ clip_url c) in
  let may_write := fun i => match get_channel env i with
                            | Some ch => send_messages ch
                            | None => false
                            end in
  let goes_through := fun i => match get_channel env i with
                               | Some ch => accepts ch
                               | None => false
                               end in
  send_clips_update env c cd w
  = (if forallb (fun i => implb (may_write i) (goes_through i))
                (cd_channels cd)
     then Ok tt else Raise (OtherError "discord.HTTPException"),
     set_sent (sent w ++ map (fun i => (i, what))
                             (filter (fun i => may_write i && goes_through i)
                                     (cd_channels cd)))
              w).
Proof.
  cbv zeta. unfold send_clips_update. rewrite gather_spec.
  set (tasks := flat_map _ (cd_channels cd)).
  assert (Hall : forallb (fun t => accepts (snd t)) tasks
                 = forallb (fun i =>
                              implb match get_channel env i with
                                    | Some ch => send_messages ch
                                    | None => false
                                    end
                                    match get_channel env i with
                                    | Some ch => accepts ch
                                    | None => false
                                    end) (cd_channels cd)).
  { subst tasks. induction (cd_channels cd) as [|i rest IH]; [reflexivity|].
    cbn [flat_map forallb]. rewrite forallb_app, IH.
    destruct (get_channel env i) as [ch|]; [|reflexivity].
    destruct (send_messages ch); [|reflexivity].
    cbn. now rewrite andb_true_r. }
  assert (Hsome : forall what : outgoing,
             map (fun t => (fst t, what))
                 (filter (fun t => accepts (snd t)) tasks)
             = map (fun i => (i, what))
                   (filter (fun i =>
                              match get_channel env i with
                              | Some ch => send_messages ch
                              | None => false
                              end
                              && match get_channel env i with
                                 | Some ch => accepts ch
                                 | None => false
                                 end) (cd_channels cd))).
  { intros what. subst tasks. clear Hall.
    induction (cd_channels cd) as [|i rest IH]; [reflexivity|].
    cbn [flat_map filter]. rewrite filter_app, map_app, IH.
    destruct (get_channel env i) as [ch|]; [|reflexivity].
    destruct (send_messages ch); [|reflexivity].
    cbn [List.app filter snd andb]. now destruct (accepts ch). }
  now rewrite Hall, Hsome.
Qed.

(** X16.  When the profile of the first new follower of a check cannot be
    fetched, the failure is caught and logged, and the next line reads the
    local [profile], which has never been bound: the check ends with
    [UnboundLocalError].  Nothing has been sent and no follower has been
    recorded at that point, so the followers that were due are neither
    announced nor remembered. *)
Theorem check_followers_first_lookup_failure
        (env : Env) (fuel : nat) (followed : TwitchProfile) (total : Z)
        (follow : TwitchFollower) (rest : list TwitchFollower)
        (acct : account) (w w1 : world) (e : exn) :
  mem (from_id follow) (followers acct) = false ->
  get_profile_from_id env fuel (from_id follow) w = (Raise e, w1) ->
  check_followers_loop env fuel followed total (follow :: rest) acct None w
  = (Raise UnboundLocalError,
     set_log (Twitch.log w1
                ++ [LogError ("Error getting twitch profile "
                                ++ from_id follow) e])
             w1)
  /\ sent w1 = sent w
  /\ twitch_accounts w1 = twitch_accounts w.
Proof.
  intros Hnew Hrun. split; [|exact (get_profile_from_id_frame _ _ _ _ Hrun)].
  cbn [check_followers_loop]. rewrite Hnew. cbn [negb].
  unfold bind at 1, try_except at 1, bind at 1. rewrite Hrun.
  reflexivity.
Qed.

Lemma check_followers_first_lookup_failure_witness :
  let acct := {| account_id := "A"; followers := []; channels := [10] |} in
  let w := example_world [acct] [] 40 [] in
  let run := check_followers_loop
               scenario_env 1 (example_profile "A") 2
               [example_follow "u1"; example_follow "u2"] acct None w in
  fst run = Raise UnboundLocalError
  /\ sent (snd run) = []
  /\ twitch_accounts (snd run) = [acct].
Proof.
  intros acct w.
  set (w1 := snd (get_profile_from_id scenario_env 1 "u1" w)).
  assert (Hnew : mem (from_id (example_follow "u1")) (followers acct) = false)
    by reflexivity.
  assert (Hrun : get_profile_from_id scenario_env 1
                                     (from_id (example_follow "u1")) w
                 = (Raise ClientError, w1)) by reflexivity.
  destruct (@check_followers_first_lookup_failure
              scenario_env 1 (example_profile "A") 2 (example_follow "u1")
              [example_follow "u2"] acct w w1 ClientError Hnew Hrun)
    as (Hloop & Hsent & Hacct).
  cbv zeta. rewrite Hloop. cbn [fst snd sent twitch_accounts set_log].
  rewrite Hsent, Hacct. repeat split.
Defined.

(** X17.  With no followed account and no clip subject configured, a round
    of the polling loop makes no request and sends nothing: it sleeps 60
    seconds.  So when the cog stays registered for [n] rounds and is found
    unregistered at the start of the next one, the task returns normally,
    [n] minutes after it started, and has changed nothing but the clock. *)
Theorem polling_loop_idles_until_unloaded
        (env : Env) (n more fuel : nat) (w : world) :
  twitch_accounts w = [] ->
  twitch_clips w = [] ->
  (forall k, (k < n)%nat ->
             cog_registered env (clock w + Z.of_nat k * (60 * MICRO)) = true) ->
  cog_registered env (clock w + Z.of_nat n * (60 * MICRO)) = false ->
  check_for_new_followers env (S n + more) fuel w
  = (Ok tt, set_clock (clock w + Z.of_nat n * (60 * MICRO)) w).
Proof.
  unfold check_for_new_followers.
  revert w. induction n as [|n IH]; intros w Hacc Hclips Hreg Hstop.
  - cbn [Nat.add polling_loop]. unfold bind at 1, gets at 1.
    replace (clock w + Z.of_nat 0 * (60 * MICRO)) with (clock w) in *
      by (cbn; lia).
    rewrite Hstop. destruct w; reflexivity.
  - cbn [Nat.add polling_loop]. unfold bind at 1, gets at 1.
    assert (Hfirst : cog_registered env (clock w) = true).
    { replace (clock w) with (clock w + Z.of_nat 0 * (60 * MICRO))
        by (cbn; lia).
      apply Hreg. lia. }
    rewrite Hfirst. unfold bind at 1, gets at 1. rewrite Hacc.
    cbn [for_each]. unfold bind at 1, ret at 1.
    unfold bind at 1, check_clips at 1, bind at 1, gets at 1.
    rewrite Hclips. cbn [for_each]. unfold ret at 1.
    unfold bind at 1, sleep at 1, modify at 1.
    set (w1 := set_clock (clock w + Z.max 0 (60 * MICRO)) w).
    change (polling_loop env (S n + more) fuel w1
            = (Ok tt, set_clock (clock w + Z.of_nat (S n) * (60 * MICRO)) w)).
    assert (Hc1 : clock w1 = clock w + 60 * MICRO) by reflexivity.
    rewrite (IH w1); [| exact Hacc | exact Hclips | |].
    + f_equal. rewrite Hc1. subst w1. destruct w. unfold set_clock. cbn.
      f_equal. lia.
    + intros k Hk. rewrite Hc1.
      replace (clock w + 60 * MICRO + Z.of_nat k * (60 * MICRO))
        with (clock w + Z.of_nat (S k) * (60 * MICRO)) by lia.
      apply Hreg. lia.
    + rewrite Hc1.
      replace (clock w + 60 * MICRO + Z.of_nat n * (60 * MICRO))
        with (clock w + Z.of_nat (S n) * (60 * MICRO)) by lia.
      exact Hstop.
Qed.

Lemma polling_loop_idles_until_unloaded_witness :
  let w := example_world [] [] 40 [] in
  check_for_new_followers (unloading_env (clock w + 150 * MICRO)) 5 1 w
  = (Ok tt, set_clock (clock w + 180 * MICRO) w).
Proof.
  cbv zeta.
  assert (Hreg : forall k, (k < 3)%nat ->
             cog_registered (unloading_env
                               (clock (example_world [] [] 40 [])
                                + 150 * MICRO))
                            (clock (example_world [] [] 40 [])
                             + Z.of_nat k * (60 * MICRO)) = true).
  { intros [|[|[|k]]] Hk; try reflexivity. lia. }
  exact (@polling_loop_idles_until_unloaded
           (unloading_env (clock (example_world [] [] 40 []) + 150 * MICRO))
           3 1 1 (example_world [] [] 40 []) eq_refl eq_refl Hreg eq_refl).
Defined.

(** X18.  When a login name is given, [maybe_get_twitch_profile] shows its
    caller one error only: whatever goes wrong in the lookup (Twitch out of
    reach, no such login, an answer of another shape), the error raised is
    [TwitchError] with the message that names the login; the requests made
    are those of the lookup, for the one URL of that login, and a profile
    that the lookup finds is returned as it is.  When no name is given and
    the stored id is empty, [TwitchError] is raised before any request is
    made. *)
Theorem maybe_get_twitch_profile_error_contract
        (env : Env) (fuel : nat) (stored_id name : string) (w : world) :
  let run := maybe_get_twitch_profile env fuel stored_id (Some name) w in
  (forall e, fst run = Raise e ->
             e = TwitchError (name ++ " is not a valid Twitch username"))
  /\ (forall p w', get_profile_from_name env fuel name w = (Ok p, w') ->
                   run = (Ok p, w'))
  /\ response_trace (BASE_URL ++ "/users?login=" ++ name) w (snd run)
  /\ maybe_get_twitch_profile env fuel "" None w
     = (Raise (TwitchError "You must set a twitch ID"), w).
Proof.
  cbv zeta. unfold maybe_get_twitch_profile, try_except.
  assert (Ht : response_trace (BASE_URL ++ "/users?login=" ++ name) w
                 (snd (get_profile_from_name env fuel name w))).
  { unfold get_profile_from_name. cbv zeta. apply lookup_trace.
    intros b w0. unfold TwitchProfile_from_json, ret, raise.
    destruct b as [[|p ps]| | | |]; repeat split. }
  destruct (get_profile_from_name env fuel name w) as [[p|e|] w1].
  - split; [discriminate|]. split; [now intros p0 w0 H|]. now split.
  - py_step. cbn [fst snd]. split; [now intros e0 H; inversion H|].
    split; [discriminate|]. split; [|reflexivity].
    cbn [snd] in Ht.
    destruct Ht as (Hi & Hc & Hs & Ha & Hcl). now repeat split.
  - split; [discriminate|]. split; [discriminate|]. now split.
Qed.

(* ------------------------------------------------------------------ *)
(** ** What the polling task keeps *)
(* ------------------------------------------------------------------ *)

Section Keeping.

Variable R : world -> world -> Prop.
Hypothesis R_refl : forall w, R w w.
Hypothesis R_trans : forall w1 w2 w3, R w1 w2 -> R w2 w3 -> R w1 w3.

Lemma keeps_ret {A} (a : A) : keeps R (ret a).
Proof. intros w. apply R_refl. Qed.

Lemma keeps_raise {A} (e : exn) : keeps R (@raise world A e).
Proof. intros w. apply R_refl. Qed.

Lemma keeps_gets {A} (f : world -> A) : keeps R (gets f).
Proof. intros w. apply R_refl. Qed.

Lemma keeps_bind {A B} (c : M world A) (k : A -> M world B) :
  keeps R c -> (forall a, keeps R (k a)) -> keeps R (bind c k).
Proof.
  intros Hc Hk w. unfold bind. specialize (Hc w).
  destruct (c w) as [[a|e|] w1]; cbn [snd] in *; [|assumption..].
  eapply R_trans; [exact Hc|apply Hk].
Qed.

Lemma keeps_try_except {A} (body : M world A) (handles : exn -> bool)
      (handler : exn -> M world A) :
  keeps R body -> (forall e, keeps R (handler e)) ->
  keeps R (try_except body handles handler).
Proof.
  intros Hb Hh w. unfold try_except. specialize (Hb w).
  destruct (body w) as [[a|e|] w1]; cbn [snd] in *; [assumption| |assumption].
  destruct (handles e); [|assumption].
  eapply R_trans; [exact Hb|apply Hh].
Qed.

Lemma keeps_for_each {X} (xs : list X) (body : X -> M world unit) :
  (forall x, keeps R (body x)) -> keeps R (for_each xs body).
Proof.
  intros Hb. induction xs as [|x xs IH]; cbn [for_each].
  - apply keeps_ret.
  - apply keeps_bind; [apply Hb|intros _; exact IH].
Qed.

End Keeping.

Lemma Forall2_same {A} (P : A -> A -> Prop) (l : list A) :
  (forall x, P x x) -> Forall2 P l l.
Proof. intros HP. induction l; constructor; auto. Qed.

Lemma Forall2_chain {A} (P : A -> A -> Prop) :
  (forall x y z, P x y -> P y z -> P x z) ->
  forall l1 l2 l3, Forall2 P l1 l2 -> Forall2 P l2 l3 -> Forall2 P l1 l3.
Proof.
  intros HP l1 l2 l3 H12. revert l3.
  induction H12 as [|x y l1 l2 Hxy H12 IH]; intros l3 H23;
    inversion H23; subst; constructor; eauto.
Qed.

Lemma account_grown_refl a : account_grown a a.
Proof. repeat split. exists []. now rewrite app_nil_r. Qed.

Lemma account_grown_trans a b c :
  account_grown a b -> account_grown b c -> account_grown a c.
Proof.
  intros (Hi1 & Hc1 & m1 & Hf1) (Hi2 & Hc2 & m2 & Hf2).
  repeat split; [congruence..|].
  exists (m1 ++ m2)%list. now rewrite Hf2, Hf1, app_assoc.
Qed.

Lemma subject_grown_refl s : subject_grown s s.
Proof. repeat split. exists []. now rewrite app_nil_r. Qed.

Lemma subject_grown_trans a b c :
  subject_grown a b -> subject_grown b c -> subject_grown a c.
Proof.
  intros (Hk1 & Hn1 & Hc1 & m1 & Hf1) (Hk2 & Hn2 & Hc2 & m2 & Hf2).
  repeat split; [congruence..|].
  exists (m1 ++ m2)%list. now rewrite Hf2, Hf1, app_assoc.
Qed.

Lemma store_kept_refl w : store_kept w w.
Proof.
  split; [|split; [|split; [|split]]].
  - exists (twitch_accounts w). split; [apply Permutation_refl|].
    apply Forall2_same, account_grown_refl.
  - apply Forall2_same, subject_grown_refl.
  - exists []. now rewrite app_nil_r.
  - exists []. now rewrite app_nil_r.
  - lia.
Qed.

Lemma store_kept_trans w1 w2 w3 :
  store_kept w1 w2 -> store_kept w2 w3 -> store_kept w1 w3.
Proof.
  intros ((l1 & Hp1 & Hg1) & Hs1 & (m1 & Hm1) & (i1 & Hi1) & Hc1)
         ((l2 & Hp2 & Hg2) & Hs2 & (m2 & Hm2) & (i2 & Hi2) & Hc2).
  split; [|split; [|split; [|split]]].
  - apply Forall2_flip in Hg1.
    destruct (Permutation_Forall2 Hp2 Hg1) as (l1' & Hp & Hg).
    apply Forall2_flip in Hg.
    exists l1'. split; [eapply Permutation_trans; eassumption|].
    eapply Forall2_chain; [exact account_grown_trans|exact Hg|exact Hg2].
  - eapply Forall2_chain; [exact subject_grown_trans|exact Hs1|exact Hs2].
  - exists (m1 ++ m2)%list. now rewrite Hm2, Hm1, app_assoc.
  - exists (i1 ++ i2)%list. now rewrite Hi2, Hi1, app_assoc.
  - lia.
Qed.

(** A step that leaves the stores alone keeps them. *)
Lemma store_kept_frame w w' :
  twitch_accounts w' = twitch_accounts w ->
  twitch_clips w' = twitch_clips w ->
  (exists more, sent w' = (sent w ++ more)%list) ->
  (exists more, issued w' = (issued w ++ more)%list) ->
  clock w <= clock w' ->
  store_kept w w'.
Proof.
  intros Ha Hcl Hs Hi Hc. split; [|split; [|split; [|split]]];
    try assumption.
  - rewrite Ha. exists (twitch_accounts w). split; [apply Permutation_refl|].
    apply Forall2_same, account_grown_refl.
  - rewrite Hcl. apply Forall2_same, subject_grown_refl.
Qed.

Lemma account_eqb_eq (a b : account) : account_eqb a b = true -> a = b.
Proof.
  unfold account_eqb. intros H.
  apply andb_true_iff in H. destruct H as [H Hch].
  apply andb_true_iff in H. destruct H as [Hid Hfo].
  apply String.eqb_eq in Hid.
  destruct (list_eq_dec string_dec (followers a) (followers b));
    [|discriminate].
  destruct (list_eq_dec Z.eq_dec (channels a) (channels b)); [|discriminate].
  destruct a, b. cbn in *. now subst.
Qed.

Lemma list_remove_Permutation (x : account) (xs ys : list account) :
  list_remove x xs = Some ys -> Permutation xs (x :: ys).
Proof.
  revert ys. induction xs as [|y xs IH]; intros ys H; [discriminate|].
  cbn [list_remove] in H. destruct (account_eqb y x) eqn:Heq.
  - apply account_eqb_eq in Heq. inversion H; subst. apply Permutation_refl.
  - destruct (list_remove x xs) as [rest|]; [|discriminate].
    inversion H; subst.
    eapply Permutation_trans; [apply perm_skip, IH; reflexivity|].
    apply perm_swap.
Qed.

Lemma append_clip_grown (key v : string)
      (saved saved' : list (string * clip_data)) :
  append_clip key v saved = Some saved' -> Forall2 subject_grown saved saved'.
Proof.
  revert saved'. induction saved as [|[k cd] rest IH]; intros saved' H;
    [discriminate|].
  cbn [append_clip] in H. destruct (String.eqb k key).
  - inversion H; subst. constructor.
    + repeat split. now exists [v].
    + apply Forall2_same, subject_grown_refl.
  - destruct (append_clip key v rest) as [rest'|]; [|discriminate].
    inversion H; subst. constructor; [apply subject_grown_refl|now apply IH].
Qed.

Ltac kept_ret :=
  first [apply keeps_ret | apply keeps_raise | apply keeps_gets];
  exact store_kept_refl.

Ltac kept_bind := apply keeps_bind; [exact store_kept_trans| |].

Ltac kept_try := apply keeps_try_except; [exact store_kept_trans| |].

Ltac kept_each :=
  apply keeps_for_each; [exact store_kept_refl|exact store_kept_trans|].

Section TaskKeeps.

Variable env : Env.

Lemma log_add_kept r : keeps store_kept (log_add r).
Proof.
  intros w.
  apply store_kept_frame;
    [ reflexivity | reflexivity | exists []; now rewrite app_nil_r
    | exists []; now rewrite app_nil_r | cbn; lia ].
Qed.

Lemma sleep_kept delay : keeps store_kept (sleep delay).
Proof.
  intros w.
  apply store_kept_frame;
    [ reflexivity | reflexivity | exists []; now rewrite app_nil_r
    | exists []; now rewrite app_nil_r | cbn; lia ].
Qed.

Lemma channel_send_kept i ch what :
  keeps store_kept (channel_send i ch what).
Proof.
  intros w. unfold channel_send. destruct (accepts ch).
  - apply store_kept_frame;
      [ reflexivity | reflexivity | now exists [(i, what)]
      | exists []; now rewrite app_nil_r | cbn; lia ].
  - apply store_kept_refl.
Qed.

Lemma response_trace_kept url w w' :
  response_trace url w w' -> store_kept w w'.
Proof.
  intros ((times & Hi & _) & Hc & Hs & Ha & Hcl).
  apply store_kept_frame;
    [ assumption | assumption | exists []; now rewrite app_nil_r
    | eexists; exact Hi | assumption ].
Qed.

Lemma get_profile_from_id_kept fuel twitch_id :
  keeps store_kept (get_profile_from_id env fuel twitch_id).
Proof.
  intros w. eapply response_trace_kept.
  unfold get_profile_from_id. cbv zeta. apply lookup_trace.
  intros b w0. unfold TwitchProfile_from_json, ret, raise.
  destruct b as [[|p ps]| | | |]; repeat split.
Qed.

Lemma get_new_followers_kept fuel user_id :
  keeps store_kept (get_new_followers env fuel user_id).
Proof.
  intros w. eapply response_trace_kept.
  unfold get_new_followers. cbv zeta. apply lookup_trace.
  intros b w0. unfold follows_from_json, ret, raise.
  destruct b; repeat split.
Qed.

Lemma get_new_clips_kept fuel user_id started_at :
  keeps store_kept (get_new_clips env fuel user_id started_at).
Proof.
  intros w. eapply response_trace_kept.
  unfold get_new_clips, bind at 1, gets at 1. apply lookup_trace.
  intros b w0. unfold clips_from_json, ret, raise.
  destruct b; repeat split.
Qed.

Lemma make_follow_embed_kept acct profile total :
  keeps store_kept (make_follow_embed acct profile total).
Proof. intros w. apply store_kept_refl. Qed.

Lemma check_followers_loop_kept fuel followed total follows :
  forall acct profile,
    keeps store_kept
          (check_followers_loop env fuel followed total follows acct profile).
Proof.
  induction follows as [|follow rest IH]; intros acct profile;
    cbn [check_followers_loop]; [kept_ret|].
  destruct (negb (mem (from_id follow) (followers acct))); [|apply IH].
  kept_bind.
  { kept_try.
    - kept_bind; [apply get_profile_from_id_kept|].
      intros p. kept_ret.
    - intros e. kept_bind; [apply log_add_kept|].
      intros _. kept_ret. }
  intros [p|]; [|kept_ret].
  kept_bind; [apply log_add_kept|intros _].
  kept_bind; [apply make_follow_embed_kept|intros em].
  kept_bind.
  { kept_each. intros c.
    destruct (get_channel env c) as [ch|];
      [|kept_ret].
    destruct (embed_links ch);
      [apply channel_send_kept|kept_ret]. }
  intros _ w. unfold bind at 1, gets at 1.
  destruct (list_remove acct (twitch_accounts w)) as [others|] eqn:Hrm;
    [|apply store_kept_refl].
  unfold bind at 1, modify at 1.
  eapply store_kept_trans; [|apply IH].
  split; [|split; [|split; [|split]]].
  - exists (others ++ [acct])%list. split.
    + eapply Permutation_trans; [apply (list_remove_Permutation _ _ Hrm)|].
      apply Permutation_cons_append.
    + cbn [twitch_accounts set_twitch_accounts]. apply Forall2_app.
      * apply Forall2_same, account_grown_refl.
      * constructor; [|constructor]. repeat split. now eexists.
  - apply Forall2_same, subject_grown_refl.
  - exists []. now rewrite app_nil_r.
  - exists []. now rewrite app_nil_r.
  - cbn. lia.
Qed.

Lemma check_followers_kept fuel acct :
  keeps store_kept (check_followers env fuel acct).
Proof.
  unfold check_followers.
  kept_bind; [apply get_profile_from_id_kept|intros followed].
  kept_bind; [apply get_new_followers_kept|intros ft].
  apply check_followers_loop_kept.
Qed.

Lemma send_clips_update_kept c cd :
  keeps store_kept (send_clips_update env c cd).
Proof.
  intros w. unfold send_clips_update. rewrite gather_spec. cbn [snd].
  apply store_kept_frame;
    [ reflexivity | reflexivity | cbn; now eexists
    | exists []; now rewrite app_nil_r | cbn; lia ].
Qed.

Lemma check_clips_kept fuel : keeps store_kept (check_clips env fuel).
Proof.
  intros w. unfold check_clips, bind at 1, gets at 1.
  kept_each.
  intros [user_id cd]. cbn [fst snd].
  kept_bind.
  { kept_try.
    - kept_bind; [kept_ret|intros utcnow].
      kept_bind; [apply get_new_clips_kept|intros cs].
      kept_ret.
    - intros e. kept_bind; [apply log_add_kept|].
      intros _. kept_ret. }
  intros [cs|]; [|kept_ret].
  kept_each. intros c.
  destruct (negb (mem (clip_id c) (clips cd)));
    [|kept_ret].
  kept_bind; [apply send_clips_update_kept|intros _].
  intros w0. unfold bind at 1, gets at 1.
  destruct (append_clip user_id (clip_id c) (twitch_clips w0))
    as [saved'|] eqn:Happ; [|apply store_kept_refl].
  split; [|split; [|split; [|split]]].
  - exists (twitch_accounts w0). split; [apply Permutation_refl|].
    apply Forall2_same, account_grown_refl.
  - exact (append_clip_grown _ _ _ Happ).
  - exists []. now rewrite app_nil_r.
  - exists []. now rewrite app_nil_r.
  - cbn. lia.
Qed.

Lemma polling_loop_kept cycles fuel :
  keeps store_kept (polling_loop env cycles fuel).
Proof.
  induction cycles as [|cycles IH]; cbn [polling_loop];
    [intros w; apply store_kept_refl|].
  intros w. unfold bind at 1, gets at 1.
  destruct (cog_registered env (clock w)); [|apply store_kept_refl].
  revert w. change (keeps store_kept
    (follow_accounts <- gets twitch_accounts ;;
     for_each follow_accounts (check_followers env fuel) ;;;
     check_clips env fuel ;;;
     sleep (60 * MICRO) ;;;
     polling_loop env cycles fuel)).
  kept_bind; [kept_ret|intros follow_accounts].
  kept_bind; [kept_each; intros acct; apply check_followers_kept|intros _].
  kept_bind; [apply check_clips_kept|intros _].
  kept_bind; [apply sleep_kept|intros _].
  exact IH.
Qed.

End TaskKeeps.

(** X19.  However long the polling task runs and however it ends (a normal
    return, an exception that escapes, or a round still under way), it never
    loses what it keeps track of.  Every followed account is still stored,
    with its id and its destinations and with every follower that was on
    record, the new ones added after them; only the order of the accounts
    may have changed.  Every clip subject is still stored, in the same
    place, with its name, its destinations and every clip that was on
    record.  What had been sent and requested before is a prefix of what has
    been since, and the clock has not gone back.  The same holds for one
    check of an account and for one check of the clips. *)
Theorem polling_task_keeps_the_store
        (env : Env) (cycles fuel : nat) (w : world) :
  store_kept w (snd (check_for_new_followers env cycles fuel w))
  /\ (forall acct, store_kept w (snd (check_followers env fuel acct w)))
  /\ store_kept w (snd (check_clips env fuel w)).
Proof.
  split; [|split].
  - apply polling_loop_kept.
  - intros acct. apply check_followers_kept.
  - apply check_clips_kept.
Qed.

Section ClipCheck.

Variable env : Env.
Variable user_id : string.
Variable cd : clip_data.

(** Every destination of the subject where the bot may write accepts the
    message. *)
Hypothesis open_channels_accept :
  forall i ch, In i (cd_channels cd) -> get_channel env i = Some ch ->
               send_messages ch = true -> accepts ch = true.

Lemma get_new_clips_frame fuel started_at w r w' :
  get_new_clips env fuel user_id started_at w = (r, w') ->
  sent w' = sent w /\ twitch_clips w' = twitch_clips w.
Proof.
  intros Hrun.
  assert (Ht : response_trace
                 (get_new_clips_url user_id started_at (clock w)) w
                 (snd (get_new_clips env fuel user_id started_at w))).
  { unfold get_new_clips, bind at 1, gets at 1. apply lookup_trace.
    intros b w0. unfold clips_from_json, ret, raise.
    destruct b; repeat split. }
  rewrite Hrun in Ht. destruct Ht as (_ & _ & Hs & _ & Hcl). now split.
Qed.

Lemma open_tasks (what : outgoing) (l : list Z) :
  (forall i, In i l -> In i (cd_channels cd)) ->
  forallb (fun t : Z * channel => accepts (snd t))
          (flat_map (fun channel_id =>
                       match get_channel env channel_id with
                       | Some ch => if send_messages ch
                                    then [(channel_id, ch)] else []
                       | None => []
                       end) l) = true
  /\ map (fun t : Z * channel => (fst t, what))
         (filter (fun t => accepts (snd t))
                 (flat_map (fun channel_id =>
                              match get_channel env channel_id with
                              | Some ch => if send_messages ch
                                           then [(channel_id, ch)] else []
                              | None => []
                              end) l))
     = map (fun i => (i, what))
           (filter (fun i => match get_channel env i with
                             | Some ch => send_messages ch
                             | None => false
                             end) l).
Proof.
  induction l as [|i rest IH]; intros Hin; [now split|].
  destruct IH as [IH1 IH2]; [intros j Hj; apply Hin; now right|].
  cbn [flat_map filter]. rewrite forallb_app, filter_app, map_app, IH1, IH2.
  pose proof (open_channels_accept i) as Hacc.
  destruct (get_channel env i) as [ch|]; [|now split].
  destruct (send_messages ch) eqn:Hsm; [|now split].
  pose proof (Hacc ch (Hin i (or_introl eq_refl)) eq_refl Hsm) as Ha.
  cbn. rewrite Ha. now split.
Qed.

(** The loop over the fetched clips, with [recorded] on record so far. *)
Lemma clip_loop (cs : list clip) :
  forall recorded w,
    twitch_clips w
    = [(user_id, {| cd_display_name := cd_display_name cd;
                    clips := recorded;
                    cd_channels := cd_channels cd |})] ->
    for_each cs
      (fun c =>
         if negb (mem (clip_id c) (clips cd)) then
           send_clips_update env c cd ;;;
           saved <- gets twitch_clips ;;
           match append_clip user_id (clip_id c) saved with
           | Some saved' => modify (set_twitch_clips saved')
           | None => raise KeyError
           end
         else ret tt) w
    = (Ok tt,
       set_twitch_clips
         [(user_id,
           {| cd_display_name := cd_display_name cd;
              clips := (recorded
                          ++ map clip_id
                               (filter (fun c => negb (mem (clip_id c)
                                                           (clips cd))) cs))%list;
              cd_channels := cd_channels cd |})]
         (set_sent
            (sent w
               ++ flat_map
                    (fun c =>
                       map (fun i => (i, SendText (cd_display_name cd
                                                     ++ " has a new clip! "
                                                     ++ clip_url c)))
                           (filter (fun i => match get_channel env i with
                                             | Some ch => send_messages ch
                                             | None => false
                                             end) (cd_channels cd)))
                    (filter (fun c => negb (mem (clip_id c) (clips cd))) cs))
            w)).
Proof.
  induction cs as [|c rest IH]; intros recorded w Hw.
  - cbn. rewrite !app_nil_r. destruct w. cbn in *. now subst.
  - cbn [for_each filter]. unfold bind at 1.
    destruct (negb (mem (clip_id c) (clips cd))).
    + unfold bind at 1, send_clips_update at 1. rewrite gather_spec.
      destruct (open_tasks
                  (SendText (cd_display_name cd ++ " has a new clip! "
                               ++ clip_url c))
                  (cd_channels cd) (fun i H => H)) as [Hall Hsome].
      rewrite Hall, Hsome. unfold bind at 1, gets at 1.
      cbn [twitch_clips set_sent]. rewrite Hw.
      cbn [append_clip]. rewrite String.eqb_refl.
      unfold modify at 1. cbn [cd_display_name clips cd_channels].
      rewrite IH with (recorded := (recorded ++ [clip_id c])%list)
        by reflexivity.
      cbn [map flat_map sent set_sent set_twitch_clips].
      rewrite <- !app_assoc. reflexivity.
    + unfold ret at 1. now apply IH.
Qed.

End ClipCheck.

(** X20.  A check of the clips announces the new clips only.  When the
    store holds one clip subject, its fetch succeeds and its writable
    destinations accept the messages, every fetched clip whose id was not on record when the check
    began is announced, in the order of the answer, to every destination
    that resolves to a channel where the bot may write, and its id is added
    to the record; a clip that was on record is passed over.  The record is
    compared as it was when the check began, so a clip that the answer lists
    twice is announced twice.  A check that fetches nothing new sends nothing
    and leaves the record as it is. *)
Theorem check_clips_announces_new_clips_only
        (env : Env) (fuel : nat) (w : world) (user_id : string)
        (cd : clip_data) (cs : list clip) (w1 : world) :
  twitch_clips w = [(user_id, cd)] ->
  get_new_clips env fuel user_id (Some (clock w + timedelta_days (-8))) w
  = (Ok cs, w1) ->
  (forall i ch, In i (cd_channels cd) -> get_channel env i = Some ch ->
                send_messages ch = true -> accepts ch = true) ->
  let fresh := filter (fun c => negb (mem (clip_id c) (clips cd))) cs in
  let targets := filter (fun i => match get_channel env i with
                                  | Some ch => send_messages ch
                                  | None => false
                                  end) (cd_channels cd) in
  exists w',
    check_clips env fuel w = (Ok tt, w')
    /\ sent w'
       = sent w
           ++ flat_map (fun c =>
                          map (fun i => (i, SendText (cd_display_name cd
                                                        ++ " has a new clip! "
                                                        ++ clip_url c)))
                              targets) fresh
    /\ twitch_clips w'
       = [(user_id, {| cd_display_name := cd_display_name cd;
                       clips := clips cd ++ map clip_id fresh;
                       cd_channels := cd_channels cd |})].
Proof.
  intros Hclips Hrun Hopen. cbv zeta.
  destruct (@get_new_clips_frame _ _ _ _ _ _ _ Hrun) as [Hs Hcl].
  unfold check_clips, bind at 1, gets at 1. rewrite Hclips.
  cbn [for_each fst snd]. unfold bind at 1, bind at 1, try_except at 1.
  unfold bind at 1, gets at 1, bind at 1. rewrite Hrun.
  unfold ret at 1. cbv beta iota.
  rewrite (@clip_loop env user_id cd Hopen cs (clips cd) w1)
    by (rewrite Hcl, Hclips; now destruct cd).
  unfold ret. eexists. split; [reflexivity|].
  cbn [sent set_sent set_twitch_clips twitch_clips]. now rewrite Hs.
Qed.

Lemma check_clips_announces_new_clips_only_witness :
  let cd := {| cd_display_name := "B"; clips := ["c1"%string];
               cd_channels := [10; 11] |} in
  let w := example_world [] [("B"%string, cd)] 40 [] in
  exists w',
    check_clips clips_env 1 w = (Ok tt, w')
    /\ sent w'
       = [(10, SendText "B has a new clip! https://clips.twitch.tv/c2")]
    /\ map (fun kv => clips (snd kv)) (twitch_clips w')
       = [["c1"; "c2"]%string].
Proof.
  intros cd w.
  set (w1 := snd (get_new_clips clips_env 1 "B"
                                (Some (clock w + timedelta_days (-8))) w)).
  assert (Hclips : twitch_clips w = [("B"%string, cd)]) by reflexivity.
  assert (Hrun : get_new_clips clips_env 1 "B"
                               (Some (clock w + timedelta_days (-8))) w
                 = (Ok [example_clip "c1"; example_clip "c2"], w1))
    by reflexivity.
  assert (Hopen : forall i ch,
             In i (cd_channels cd) -> get_channel clips_env i = Some ch ->
             send_messages ch = true -> accepts ch = true).
  { intros i ch [<-|[<-|[]]] Hc _; cbn in Hc; [|discriminate].
    now inversion Hc. }
  destruct (@check_clips_announces_new_clips_only
              clips_env 1 w "B" cd
              [example_clip "c1"; example_clip "c2"] w1 Hclips Hrun Hopen)
    as (w' & Hcheck & Hsent & Hstore).
  exists w'. split; [exact Hcheck|]. split.
  - rewrite Hsent. reflexivity.
  - rewrite Hstore. reflexivity.
Defined.

(** X21.  When the profile of a later new follower cannot be fetched, the
    failure is caught and logged and the check goes on with the local
    [profile] as the previous round has left it.  So the follower is
    announced under the name of the follower announced before: the embed
    made is the one for the previous profile.  It goes to every registered
    destination that resolves (each of them permitting embeds and accepting
    the message), and the id of the follower whose lookup failed is recorded
    as notified. *)
Theorem check_followers_later_lookup_failure
        (env : Env) (fuel : nat) (followed previous : TwitchProfile)
        (total : Z) (follow : TwitchFollower) (rest : list TwitchFollower)
        (acct : account) (w w1 : world) (e : exn) (others : list account) :
  mem (from_id follow) (followers acct) = false ->
  get_profile_from_id env fuel (from_id follow) w = (Raise e, w1) ->
  (forall c ch, In c (channels acct) -> get_channel env c = Some ch ->
                embed_links ch = true /\ accepts ch = true) ->
  list_remove acct (twitch_accounts w) = Some others ->
  let acct' := {| account_id := account_id acct;
                  followers := followers acct ++ [from_id follow];
                  channels := channels acct |} in
  exists em w2,
    make_follow_embed followed previous total w1 = (Ok em, w1)
    /\ author_name em
       = (display_name previous ++ " has just followed "
            ++ display_name followed ++ "!")%string
    /\ check_followers_loop env fuel followed total (follow :: rest) acct
                            (Some previous) w
       = check_followers_loop env fuel followed total rest acct'
                              (Some previous) w2
    /\ sent w2
       = sent w ++ map (fun c => (c, SendEmbed em))
                       (filter (resolves env) (channels acct))
    /\ twitch_accounts w2 = others ++ [acct'].
Proof.
  intros Hnew Hrun Hdest Hremove. cbv zeta.
  destruct (get_profile_from_id_frame _ _ _ _ Hrun) as [Hs1 Ha1].
  eexists. eexists. split; [reflexivity|]. split; [reflexivity|].
  split; [|split].
  - cbn [check_followers_loop]. rewrite Hnew. cbn [negb].
    unfold bind at 1, try_except at 1, bind at 1. rewrite Hrun.
    cbv beta iota.
    unfold bind at 1, log_add at 1, modify at 1. unfold ret at 1.
    cbv beta iota.
    unfold bind at 1, log_add at 1, modify at 1.
    unfold bind at 1, make_follow_embed at 1, bind at 1, gets at 1, ret at 1.
    cbv beta iota. cbn [clock set_log].
    unfold bind at 1. rewrite follow_embed_delivery by exact Hdest.
    unfold bind at 1, gets at 1. cbn [twitch_accounts set_sent set_log].
    rewrite Ha1, Hremove.
    unfold bind at 1, modify at 1. cbv beta iota.
    reflexivity.
  - cbn [sent set_sent set_log set_twitch_accounts]. now rewrite Hs1.
  - reflexivity.
Qed.

Lemma check_followers_later_lookup_failure_witness :
  let acct := {| account_id := "A"; followers := ["u2"%string];
                 channels := [10; 11] |} in
  let w := example_world [acct] [] 40 [] in
  let run := check_followers_loop
               scenario_env 1 (example_profile "A") 2
               [example_follow "u1"] acct (Some (example_profile "u2")) w in
  fst run = Ok tt
  /\ (exists em, sent (snd run) = [(10, SendEmbed em)]
                 /\ author_name em = "u2 has just followed A!"%string)
  /\ map followers (twitch_accounts (snd run)) = [["u2"; "u1"]%string].
Proof.
  intros acct w.
  set (w1 := snd (get_profile_from_id scenario_env 1 "u1" w)).
  assert (Hnew : mem (from_id (example_follow "u1")) (followers acct) = false)
    by reflexivity.
  assert (Hrun : get_profile_from_id scenario_env 1
                                     (from_id (example_follow "u1")) w
                 = (Raise ClientError, w1)) by reflexivity.
  assert (Hdest : forall c ch,
             In c (channels acct) -> get_channel scenario_env c = Some ch ->
             embed_links ch = true /\ accepts ch = true).
  { intros c ch [<-|[<-|[]]] Hc; cbn in Hc; [|discriminate].
    inversion Hc. split; reflexivity. }
  assert (Hremove : list_remove acct (twitch_accounts w) = Some [])
    by reflexivity.
  destruct (@check_followers_later_lookup_failure
              scenario_env 1 (example_profile "A") (example_profile "u2") 2
              (example_follow "u1") [] acct w w1 ClientError []
              Hnew Hrun Hdest Hremove)
    as (em & w2 & Hem & Hname & Hloop & Hsent & Hacct).
  cbv zeta. rewrite Hloop. cbn [check_followers_loop]. unfold ret.
  cbn [fst snd]. split; [reflexivity|]. split.
  - exists em. split; [rewrite Hsent; reflexivity|exact Hname].
  - rewrite Hacct. reflexivity.
Defined.

Section Renewal.

Variable env : Env.
Variable secret cid : string.
Hypothesis has_secret : client_secret (api_tokens env) = Some secret.
Hypothesis has_id : client_id (api_tokens env) = Some cid.

(** A credential that the identity service rejects is cleared, and the check
    starts again. *)
Lemma oauth_check_clears_rejected g w old refusal :
  access_token_cfg w = WithToken old ->
  validate_endpoint env (validate_calls w) ("OAuth " ++ old)
  = Responds refusal ->
  status refusal <> 200 ->
  oauth_check env (S g) w
  = oauth_check env g
                (set_access_token_cfg EmptyDict
                   (set_validate_calls (S (validate_calls w)) w)).
Proof.
  intros Hcfg Hval Hst. cbn [oauth_check]. py_step.
  rewrite has_secret, has_id, Hcfg, Hval.
  apply Z.eqb_neq in Hst. now rewrite Hst.
Qed.

(** With no credential cached, the one that the token endpoint grants is
    stored. *)
Lemma oauth_check_acquires f w granted new :
  access_token_cfg w = EmptyDict ->
  token_endpoint env (token_calls w) = Responds granted ->
  payload granted = Token (Some new) ->
  oauth_check env (S f) w
  = (Ok tt, set_access_token_cfg (WithToken new)
              (set_token_calls (S (token_calls w)) w)).
Proof.
  intros Hcfg Htok Hpay. cbn [oauth_check]. py_step.
  now rewrite has_secret, has_id, Hcfg, Htok, Hpay.
Qed.

(** One attempt that is answered with a status other than 429, and what it
    leaves of the credential. *)
Lemma get_response_answer f url w w1 header resp :
  oauth_check env (S f) w = (Ok tt, w1) ->
  get_header env w1 = (Ok header, w1) ->
  rate_limit_remaining w1 <> 0 ->
  api env (api_calls w1) url header = Responds resp ->
  status resp <> 429 ->
  exists w3,
    get_response env (S f) url w
    = (match payload resp with
       | NotJson => Raise ClientError
       | b => Ok b
       end, w3)
    /\ access_token_cfg w3 = access_token_cfg w1
    /\ validate_calls w3 = validate_calls w1
    /\ token_calls w3 = token_calls w1
    /\ api_calls w3 = S (api_calls w1)
    /\ issued w3 = (issued w1 ++ [(clock w1, url)])%list.
Proof.
  intros Hoa Hh Hrem Hapi Hst.
  cbn [get_response]. unfold bind at 1. rewrite Hoa.
  unfold bind at 1. rewrite Hh.
  unfold bind at 1. rewrite wait_for_rate_limit_reset_cases.
  apply Z.eqb_neq in Hrem. rewrite Hrem.
  py_step. rewrite Hapi.
  apply Z.eqb_neq in Hst. rewrite Hst.
  destruct (Ratelimit_Remaining resp) as [| |n];
    destruct (Ratelimit_Reset resp) as [| |n'];
    destruct (payload resp); eexists; (split; [reflexivity|]);
    repeat split.
Qed.

End Renewal.

(** X22.  A cached credential that the identity service no longer accepts is
    renewed within the call that finds it out.  When the bot has a client
    secret, the rate limit is not used up, the validation of the cached
    token is answered with a status other than 200 and the token endpoint
    grants a new token, [get_response]
    stores the new token and makes its request with the client id and the new
    token as bearer: the caller gets the answer to that request.  The call
    has made one validation request, one token request and one API
    request. *)
Theorem get_response_renews_a_rejected_token
        (env : Env) (secret cid old new : string)
        (refusal granted resp : response)
        (fuel : nat) (url : string) (w : world) :
  client_secret (api_tokens env) = Some secret ->
  client_id (api_tokens env) = Some cid ->
  access_token_cfg w = WithToken old ->
  validate_endpoint env (validate_calls w) ("OAuth " ++ old)
  = Responds refusal ->
  status refusal <> 200 ->
  token_endpoint env (token_calls w) = Responds granted ->
  payload granted = Token (Some new) ->
  rate_limit_remaining w <> 0 ->
  api env (api_calls w) url
      [("Client-ID"%string, cid);
       ("Authorization"%string, ("Bearer " ++ new)%string)]
  = Responds resp ->
  status resp <> 429 ->
  exists w',
    get_response env (S (S fuel)) url w
    = (match payload resp with
       | NotJson => Raise ClientError
       | b => Ok b
       end, w')
    /\ access_token_cfg w' = WithToken new
    /\ validate_calls w' = S (validate_calls w)
    /\ token_calls w' = S (token_calls w)
    /\ api_calls w' = S (api_calls w)
    /\ issued w' = (issued w ++ [(clock w, url)])%list.
Proof.
  intros Hsec Hid Hcfg Hval Hrefused Htok Hgrant Hrem Hapi Hst.
  set (w0 := set_access_token_cfg EmptyDict
               (set_validate_calls (S (validate_calls w)) w)).
  set (w1 := set_access_token_cfg (WithToken new)
               (set_token_calls (S (token_calls w0)) w0)).
  assert (Hoa : oauth_check env (S (S fuel)) w = (Ok tt, w1)).
  { rewrite (@oauth_check_clears_rejected env secret cid Hsec Hid (S fuel) w
                                          old refusal Hcfg Hval Hrefused).
    apply (@oauth_check_acquires env secret cid Hsec Hid fuel w0 granted
                                 new);
      [reflexivity|exact Htok|exact Hgrant]. }
  assert (Hh : get_header env w1
               = (Ok [("Client-ID"%string, cid);
                      ("Authorization"%string, ("Bearer " ++ new)%string)],
                  w1)).
  { unfold get_header. py_step. now rewrite Hid. }
  destruct (@get_response_answer env (S fuel) url w w1 _ resp
                                 Hoa Hh Hrem Hapi Hst)
    as (w3 & Hrun & Hc3 & Hv3 & Ht3 & Ha3 & Hi3).
  exists w3. split; [exact Hrun|]. repeat split; assumption.
Qed.

Lemma get_response_renews_a_rejected_token_witness :
  let w := set_access_token_cfg (WithToken "old"%string)
             (example_world [] [] 40 []) in
  exists w',
    get_response renewing_env 2 (BASE_URL ++ "/users?id=A") w
    = (Ok (Users [example_profile "A"]), w')
    /\ access_token_cfg w' = WithToken "new"%string
    /\ api_calls w' = 1%nat.
Proof.
  cbv zeta.
  assert (H200 : 401 <> 200) by discriminate.
  assert (H40 : 40 <> 0) by discriminate.
  assert (H429 : 200 <> 429) by discriminate.
  destruct (@get_response_renews_a_rejected_token
              renewing_env "secret"%string "client"%string "old"%string
              "new"%string
              {| status := 401; Ratelimit_Remaining := Absent;
                 Ratelimit_Reset := Absent; payload := NotJson |}
              {| status := 200; Ratelimit_Remaining := Absent;
                 Ratelimit_Reset := Absent; payload := Token (Some "new"%string) |}
              {| status := 200; Ratelimit_Remaining := Absent;
                 Ratelimit_Reset := Absent;
                 payload := Users [example_profile "A"] |}
              0 (BASE_URL ++ "/users?id=A")
              (set_access_token_cfg (WithToken "old"%string)
                                    (example_world [] [] 40 []))
              eq_refl eq_refl eq_refl eq_refl H200 eq_refl eq_refl H40
              eq_refl H429)
    as (w' & Hrun & Hcfg & _ & _ & Hapi & _).
  exists w'. split; [exact Hrun|]. split; [exact Hcfg|exact Hapi].
Defined.
